(** * EvoTrack: the natural-language-to-SQL query compiler

    A shallow embedding of [GitHubQueryAnalyzer] from
    [NLP/enhanced_text_to_sql.py], and the properties of its
    [build_sql_query] entry point.

    Conventions of the embedding.
    - A Python [str] is a [string]; a character is a code point below 256,
      and [str.lower], [str.isalnum] and the regex classes [\d], [\s], [\w]
      are given with the values Python has on that range.
    - A Python call that may raise returns an [outcome]; [try: ... except
      Exception: ...] is [try_except].  The [print] calls of the handlers
      write to the console only and are left out.
    - [nltk.word_tokenize] and the stop-word corpus belong to NLTK, not to
      this repository: the analyzer is defined over any tokenizer (which may
      raise) and any stop-word list. *)

From Stdlib Require Import Bool Arith Lia List ZArith NArith.
From Stdlib Require Import Strings.Ascii Strings.String Numbers.DecimalString.
Import ListNotations.
Open Scope string_scope.
Open Scope bool_scope.

(** ** Python exceptions *)

Module Py.

(** An exception is represented by its message. *)
Definition exc := string.

Inductive outcome (A : Type) : Type :=
| Return (a : A)
| Raise (e : exc).
Arguments Return {A} a.
Arguments Raise {A} e.

Definition bind {A B} (m : outcome A) (k : A -> outcome B) : outcome B :=
  match m with
  | Return a => k a
  | Raise e => Raise e
  end.

(** [try: body except Exception as e: handler e] *)
Definition try_except {A} (body : outcome A) (handler : exc -> outcome A)
  : outcome A :=
  match body with
  | Return a => Return a
  | Raise e => handler e
  end.

End Py.
Export Py.

Notation "x <- m ;; k" := (bind m (fun x => k))
  (at level 61, m at next level, right associativity).

(** ** Characters and strings *)

Definition code (c : ascii) : N := N_of_ascii c.

Definition in_range (lo hi : N) (c : ascii) : bool :=
  (lo <=? code c)%N && (code c <=? hi)%N.

(** [\d] on a [str] pattern: the decimal digits. *)
Definition is_digit (c : ascii) : bool := in_range 48 57 c.

(** [\s] on a [str] pattern, which is also [str.isspace]. *)
Definition is_space (c : ascii) : bool :=
  in_range 9 13 c || in_range 28 32 c || (code c =? 133)%N || (code c =? 160)%N.

(** [str.isalnum] on one character. *)
Definition is_alnum_char (c : ascii) : bool :=
  in_range 48 57 c || in_range 65 90 c || in_range 97 122 c
  || (code c =? 170)%N || in_range 178 179 c || (code c =? 181)%N
  || in_range 185 186 c || in_range 188 190 c
  || in_range 192 214 c || in_range 216 246 c || in_range 248 255 c.

(** [\w] on a [str] pattern: alphanumeric or underscore. *)
Definition is_word_char (c : ascii) : bool :=
  is_alnum_char c || (code c =? 95)%N.

Definition lower_char (c : ascii) : ascii :=
  if in_range 65 90 c || in_range 192 214 c || in_range 216 222 c
  then ascii_of_N (code c + 32)
  else c.

(** [str.lower] *)
Fixpoint lower (s : string) : string :=
  match s with
  | EmptyString => EmptyString
  | String c s' => String (lower_char c) (lower s')
  end.

Fixpoint forallb_str (f : ascii -> bool) (s : string) : bool :=
  match s with
  | EmptyString => true
  | String c s' => f c && forallb_str f s'
  end.

(** [str.isalnum]: every character is alphanumeric and there is at least one. *)
Definition isalnum (s : string) : bool :=
  match s with
  | EmptyString => false
  | _ => forallb_str is_alnum_char s
  end.

(** A string of whitespace only; the empty string counts. *)
Definition whitespace_only (s : string) : bool := forallb_str is_space s.

(** [needle in hay] on two strings: substring containment. *)
Fixpoint str_in (needle hay : string) : bool :=
  String.prefix needle hay ||
  match hay with
  | EmptyString => false
  | String _ hay' => str_in needle hay'
  end.

(** [w in words] on a list (or set) of strings. *)
Definition mem (w : string) (words : list string) : bool :=
  existsb (String.eqb w) words.

(** [sep.join(parts)] *)
Fixpoint join (sep : string) (parts : list string) : string :=
  match parts with
  | [] => ""
  | [p] => p
  | p :: ps => p ++ sep ++ join sep ps
  end.

Fixpoint drop (n : nat) (s : string) : string :=
  match n, s with
  | O, _ => s
  | S _, EmptyString => EmptyString
  | S n', String _ s' => drop n' s'
  end.

Fixpoint take (n : nat) (s : string) : string :=
  match n, s with
  | O, _ => EmptyString
  | S _, EmptyString => EmptyString
  | S n', String c s' => String c (take n' s')
  end.

Fixpoint last_char (s : string) (default : option ascii) : option ascii :=
  match s with
  | EmptyString => default
  | String c s' => last_char s' (Some c)
  end.

(** [s.split(sep)] for a one-character separator. *)
Fixpoint split_on (sep : ascii) (s : string) : list string :=
  match s with
  | EmptyString => [""]
  | String c s' =>
      if Ascii.eqb c sep then "" :: split_on sep s'
      else match split_on sep s' with
           | [] => [String c ""]
           | p :: ps => String c p :: ps
           end
  end.

(** [str(n)] and the rendering of an integer in an f-string. *)
Definition str_int (n : Z) : string := NilZero.string_of_int (Z.to_int n).

(** ** The regular expressions of the analyzer

    The four patterns of the source are sequences of literals, greedy
    repetitions of a character class, one capturing group of digits and
    word boundaries.  [re_search] is Python's [re.search] on such a
    sequence, leftmost match first, greedy repetitions giving characters
    back one at a time; it returns [group(1)] of the match. *)

Module Re.

Inductive atom : Type :=
| Lit (s : string)          (* literal text *)
| Spaces0                   (* \s*  *)
| Spaces1                   (* \s+  *)
| Digits1                   (* (\d+), the capturing group *)
| WordBoundary.             (* \b   *)

Definition pattern := list atom.

Fixpoint run_length (f : ascii -> bool) (s : string) : nat :=
  match s with
  | EmptyString => 0
  | String c s' => if f c then S (run_length f s') else 0
  end.

(** Tries the continuation after [n], [n-1], ..., [min] repetitions. *)
Fixpoint try_lengths (cont : string -> string -> option string)
         (s : string) (min n : nat) : option string :=
  if (n <? min)%nat then None
  else match cont (take n s) (drop n s) with
       | Some g => Some g
       | None => match n with
                 | O => None
                 | S n' => try_lengths cont s min n'
                 end
       end.

(** [\b] between the character before the position and the one after. *)
Definition at_boundary (prev : option ascii) (s : string) : bool :=
  let before := match prev with Some c => is_word_char c | None => false end in
  let after := match s with String c _ => is_word_char c | EmptyString => false end in
  xorb before after.

(** Matches [p] at the start of [s]; [prev] is the character before [s] and
    [g] the group captured so far. *)
Fixpoint match_here (p : pattern) (prev : option ascii) (s : string)
         (g : string) : option string :=
  match p with
  | [] => Some g
  | Lit l :: p' =>
      if String.prefix l s
      then match_here p' (last_char l prev) (drop (String.length l) s) g
      else None
  | Spaces0 :: p' =>
      try_lengths (fun used rest => match_here p' (last_char used prev) rest g)
                  s 0 (run_length is_space s)
  | Spaces1 :: p' =>
      try_lengths (fun used rest => match_here p' (last_char used prev) rest g)
                  s 1 (run_length is_space s)
  | Digits1 :: p' =>
      try_lengths (fun used rest => match_here p' (last_char used prev) rest used)
                  s 1 (run_length is_digit s)
  | WordBoundary :: p' =>
      if at_boundary prev s then match_here p' prev s g else None
  end.

Fixpoint search_from (p : pattern) (prev : option ascii) (s : string)
  : option string :=
  match match_here p prev s "" with
  | Some g => Some g
  | None => match s with
            | EmptyString => None
            | String c s' => search_from p (Some c) s'
            end
  end.

(** [m = re.search(p, s)]; [Some g] when [m] is a match with [m.group(1) = g]. *)
Definition re_search (p : pattern) (s : string) : option string :=
  search_from p None s.

End Re.
Export Re.

(** [r'(\d+)\s*stars'] *)
Definition re_stars : pattern := [Digits1; Spaces0; Lit "stars"].
(** [r'(\d+)\s*forks'] *)
Definition re_forks : pattern := [Digits1; Spaces0; Lit "forks"].
(** [r"\btop\s+(\d+)\b"] *)
Definition re_top : pattern := [WordBoundary; Lit "top"; Spaces1; Digits1; WordBoundary].
(** [r"\bbottom\s+(\d+)\b"] *)
Definition re_bottom : pattern := [WordBoundary; Lit "bottom"; Spaces1; Digits1; WordBoundary].

(** ** The analyzer's tables ([GitHubQueryAnalyzer.__init__]) *)

(** [self.keywords] *)
Definition keywords : list (string * string) :=
  [ ("show", "SELECT");
    ("display", "SELECT");
    ("find", "SELECT");
    ("search", "SELECT");
    ("list", "SELECT");
    ("count", "SELECT COUNT(*)");
    ("analyze", "SELECT");
    ("top", "SELECT");
    ("most", "SELECT");
    ("track", "SELECT");
    ("monitor", "SELECT") ].

Record entity_info : Type := {
  patterns : list string;
  table : string;
  columns : list string
}.

(** [self.entity_mapping]; a [dict] iterates in insertion order. *)
Definition entity_mapping : list (string * entity_info) :=
  [ ("repository",
     {| patterns := ["repository"; "repositories"; "repo"; "repos"];
        table := "repositories";
        columns := ["repo_id"; "name"; "url"; "stars"; "forks"] |});
    ("author",
     {| patterns := ["author"; "authors"; "contributor"; "contributors";
                     "developer"; "developers"];
        table := "authors";
        columns := ["author_id"; "name"; "email"] |});
    ("commit",
     {| patterns := ["commit"; "commits"; "change"; "changes"];
        table := "commits";
        columns := ["commit_id"; "hash"; "author_id"; "repo_id"; "timestamp";
                    "message"] |});
    ("file",
     {| patterns := ["file"; "files"; "document"; "documents"; "code"];
        table := "files";
        columns := ["file_id"; "repo_id"; "path"; "type"; "status"] |});
    ("diff",
     {| patterns := ["diff"; "difference"; "changes"; "modification";
                     "modifications"];
        table := "diffs";
        columns := ["diff_id"; "commit_id"; "file_id"; "lines_added";
                    "lines_deleted"; "change_type"] |}) ].

(** The table names of [self.entity_mapping]. *)
Definition tables : list string := map (fun e => table (snd e)) entity_mapping.

(** [d[k]] when [k in d], on a dictionary kept as an association list. *)
Fixpoint lookup {V} (k : string) (d : list (string * V)) : option V :=
  match d with
  | [] => None
  | (k', v) :: d' => if String.eqb k k' then Some v else lookup k d'
  end.

(** [l.append(x)] *)
Definition list_append {A} (l : list A) (x : A) : list A := (l ++ [x])%list.

(** [m.group(1)]: an [AttributeError] when [m] is [None]. *)
Definition group1 (m : option string) : outcome string :=
  match m with
  | Some g => Return g
  | None => Raise "'NoneType' object has no attribute 'group'"
  end.

Definition is_match (m : option string) : bool :=
  match m with Some _ => true | None => false end.

(** ** The matchers *)

(** The first token that is a key of [self.keywords], with its action. *)
Fixpoint first_keyword (tokens : list string) : option string :=
  match tokens with
  | [] => None
  | token :: rest =>
      match lookup token keywords with
      | Some action => Some action
      | None => first_keyword rest
      end
  end.

Definition identify_action (tokens : list string) : outcome string :=
  try_except
    (match first_keyword tokens with
     | Some action => Return action
     | None =>
         if existsb (fun token => mem token ["count"; "total"; "sum"]) tokens
         then Return "SELECT COUNT(*)"
         else Return "SELECT"
     end)
    (fun _ => Return "SELECT").

(** One iteration test of [identify_table]'s loop. *)
Definition entity_matches (words_set : list string) (info : entity_info) : bool :=
  existsb (fun syn => mem syn words_set) (patterns info).

Fixpoint first_table (words_set : list string)
         (items : list (string * entity_info)) : option string :=
  match items with
  | [] => None
  | (_, info) :: rest =>
      if entity_matches words_set info then Some (table info)
      else first_table words_set rest
  end.

Definition identify_table (words : list string) : outcome (option string) :=
  try_except
    (let words_set := words in
     Return (first_table words_set entity_mapping))
    (fun _ => Return None).

(** [next((info for entity, info in items if info['table'] == table), None)] *)
Fixpoint table_info_of (tbl : option string)
         (items : list (string * entity_info)) : option entity_info :=
  match items with
  | [] => None
  | (_, info) :: rest =>
      match tbl with
      | Some t => if String.eqb (table info) t then Some info
                  else table_info_of tbl rest
      | None => table_info_of tbl rest
      end
  end.

Definition identify_columns (words : list string) (tbl : option string)
  : outcome (list string) :=
  try_except
    (if existsb (fun word => mem word ["count"; "how many"; "total"]) words
     then Return ["COUNT(*)"]
     else
       match table_info_of tbl entity_mapping with
       | None => Return ["*"]
       | Some table_info =>
           let cols :=
             filter (fun col =>
                       let col_name := last (split_on "_" col) "" in
                       mem col_name words)
                    (columns table_info) in
           match cols with
           | _ :: _ => Return cols
           | [] =>
               match tbl with
               | Some "repositories" => Return ["repo_id"; "name"; "stars"; "forks"]
               | Some "authors" => Return ["author_id"; "name"; "email"]
               | Some "commits" => Return ["commit_id"; "hash"; "timestamp"]
               | Some "files" => Return ["file_id"; "path"; "type"; "status"]
               | Some "diffs" => Return ["diff_id"; "lines_added"; "lines_deleted"]
               | _ => Return ["*"]
               end
           end
       end)
    (fun _ => Return ["*"]).

Definition identify_conditions (text : string) : outcome (list string) :=
  try_except
    (let conditions := [] in
     let text := lower text in
     (* star count conditions *)
     conditions <-
       (if str_in "stars" text then
          let star_match := re_search re_stars text in
          if is_match star_match then
            num <- group1 star_match ;;
            if str_in "more than" text || str_in "greater than" text
            then Return (list_append conditions ("stars >= " ++ num))
            else if str_in "less than" text
            then Return (list_append conditions ("stars <= " ++ num))
            else Return (list_append conditions ("stars = " ++ num))
          else Return conditions
        else Return conditions) ;;
     (* fork count conditions *)
     conditions <-
       (if str_in "forks" text then
          let fork_match := re_search re_forks text in
          if is_match fork_match then
            num <- group1 fork_match ;;
            if str_in "more than" text || str_in "greater than" text
            then Return (list_append conditions ("forks >= " ++ num))
            else if str_in "less than" text
            then Return (list_append conditions ("forks <= " ++ num))
            else Return (list_append conditions ("forks = " ++ num))
          else Return conditions
        else Return conditions) ;;
     (* time-based conditions *)
     if str_in "this month" text
     then Return (list_append conditions "EXTRACT(MONTH FROM created_at) = EXTRACT(MONTH FROM CURRENT_DATE) AND EXTRACT(YEAR FROM created_at) = EXTRACT(YEAR FROM CURRENT_DATE)")
     else if str_in "last month" text
     then Return (list_append conditions "created_at >= DATE_TRUNC('month', CURRENT_DATE - INTERVAL '1 month') AND created_at < DATE_TRUNC('month', CURRENT_DATE)")
     else Return conditions)
    (fun _ => Return []).

(** ** [preprocess_text] and [build_sql_query] *)

Section Analyzer.

(** [nltk.tokenize.word_tokenize]; it raises when its data is missing. *)
Variable word_tokenize : string -> outcome (list string).
(** [self.stop_words] *)
Variable stop_words : list string.

Definition preprocess_text (text : string) : outcome (list string) :=
  try_except
    (let text := lower text in
     tokens <- word_tokenize text ;;
     let tokens :=
       filter (fun word => isalnum word && negb (mem word stop_words)) tokens in
     Return tokens)
    (fun _ => Return []).

Definition build_sql_query (text : string) (repo_id : option Z) : outcome string :=
  try_except
    (tokens <- preprocess_text text ;;
     match tokens with
     | [] => Return "Error: Could not process the input text"
     | _ :: _ =>
     let text_lower := lower text in
     (* which author introduced the most bugs *)
     if (str_in "author" text_lower || str_in "contributor" text_lower
         || str_in "developer" text_lower)
        && str_in "introduc" text_lower && str_in "bug" text_lower
     then
       match repo_id with
       | Some repo_id =>
           Return ("SELECT authors.name, COUNT(bugs.bug_id) AS bugs_introduced "
                   ++ "FROM bugs "
                   ++ "JOIN commits ON bugs.introduced_commit = commits.commit_id "
                   ++ "JOIN authors ON commits.author_id = authors.author_id "
                   ++ "WHERE commits.repo_id = " ++ str_int repo_id ++ " "
                   ++ "GROUP BY authors.author_id, authors.name "
                   ++ "ORDER BY bugs_introduced DESC "
                   ++ "LIMIT 1;")
       | None =>
           Return ("SELECT authors.name, COUNT(bugs.bug_id) AS bugs_introduced "
                   ++ "FROM bugs "
                   ++ "JOIN commits ON bugs.introduced_commit = commits.commit_id "
                   ++ "JOIN authors ON commits.author_id = authors.author_id "
                   ++ "GROUP BY authors.author_id, authors.name "
                   ++ "ORDER BY bugs_introduced DESC "
                   ++ "LIMIT 1;")
       end
     (* most changed file (sum of additions + deletions) *)
     else if str_in "most" text_lower && str_in "file" text_lower
             && (str_in "change" text_lower || str_in "changes" text_lower
                 || str_in "lines" text_lower)
     then
       let base :=
         "SELECT files.path AS most_changed_file, SUM(diffs.lines_added + diffs.lines_deleted) AS total_changes "
         ++ "FROM files JOIN diffs ON files.file_id = diffs.file_id "
         ++ "JOIN commits ON diffs.commit_id = commits.commit_id " in
       let where_ := match repo_id with
                     | Some repo_id => "WHERE commits.repo_id = " ++ str_int repo_id ++ " "
                     | None => "" end in
       Return (base ++ where_ ++ "GROUP BY files.file_id, files.path ORDER BY total_changes DESC LIMIT 1;")
     (* most additions *)
     else if str_in "most" text_lower && str_in "file" text_lower
             && (str_in "addition" text_lower || str_in "added" text_lower)
     then
       let base :=
         "SELECT files.path AS most_added_file, SUM(diffs.lines_added) AS total_additions "
         ++ "FROM files JOIN diffs ON files.file_id = diffs.file_id JOIN commits ON diffs.commit_id = commits.commit_id " in
       let where_ := match repo_id with
                     | Some repo_id => "WHERE commits.repo_id = " ++ str_int repo_id ++ " "
                     | None => "" end in
       Return (base ++ where_ ++ "GROUP BY files.file_id, files.path ORDER BY total_additions DESC LIMIT 1;")
     (* most deletions *)
     else if str_in "most" text_lower && str_in "file" text_lower
             && (str_in "deletion" text_lower || str_in "deleted" text_lower)
     then
       let base :=
         "SELECT files.path AS most_deleted_file, SUM(diffs.lines_deleted) AS total_deletions "
         ++ "FROM files JOIN diffs ON files.file_id = diffs.file_id JOIN commits ON diffs.commit_id = commits.commit_id " in
       let where_ := match repo_id with
                     | Some repo_id => "WHERE commits.repo_id = " ++ str_int repo_id ++ " "
                     | None => "" end in
       Return (base ++ where_ ++ "GROUP BY files.file_id, files.path ORDER BY total_deletions DESC LIMIT 1;")
     else
     (* top N files by changes *)
     let top_match := re_search re_top text_lower in
     if is_match top_match && str_in "file" text_lower
     then
       n <- group1 top_match ;;
       let base :=
         "SELECT files.path, SUM(diffs.lines_added + diffs.lines_deleted) AS total_changes "
         ++ "FROM files JOIN diffs ON files.file_id = diffs.file_id JOIN commits ON diffs.commit_id = commits.commit_id " in
       let where_ := match repo_id with
                     | Some repo_id => "WHERE commits.repo_id = " ++ str_int repo_id ++ " "
                     | None => "" end in
       Return (base ++ where_ ++ "GROUP BY files.file_id, files.path ORDER BY total_changes DESC LIMIT " ++ n ++ ";")
     (* top contributor (single) *)
     else if str_in "which developer contributed the most" text_lower
             || (str_in "most" text_lower
                 && existsb (fun w => str_in w text_lower) ["developer"; "author"; "contributor"]
                 && existsb (fun w => str_in w text_lower) ["commit"; "commits"; "contributed"])
     then
       let base :=
         "SELECT authors.name AS top_contributor, COUNT(commits.commit_id) AS commit_count "
         ++ "FROM commits JOIN authors ON commits.author_id = authors.author_id " in
       let where_ := match repo_id with
                     | Some repo_id => "WHERE commits.repo_id = " ++ str_int repo_id ++ " "
                     | None => "" end in
       Return (base ++ where_ ++ "GROUP BY authors.author_id, authors.name ORDER BY commit_count DESC LIMIT 1;")
     (* top contributors by commit (default 10) *)
     else if str_in "top contributors by commit" text_lower
     then
       Return "SELECT authors.name, COUNT(commits.commit_id) as commit_count FROM authors JOIN commits ON authors.author_id = commits.author_id GROUP BY authors.author_id, authors.name ORDER BY commit_count DESC LIMIT 10;"
     (* top N contributors by commit *)
     else if is_match top_match && str_in "contributor" text_lower
     then
       n <- group1 top_match ;;
       Return ("SELECT authors.name, COUNT(commits.commit_id) as commit_count FROM authors JOIN commits ON authors.author_id = commits.author_id GROUP BY authors.author_id, authors.name ORDER BY commit_count DESC LIMIT " ++ n ++ ";")
     else
     (* bottom N contributors by commit *)
     let bottom_match := re_search re_bottom text_lower in
     if (is_match bottom_match || str_in "bottom" text_lower)
        && existsb (fun w => str_in w text_lower)
                   ["contributor"; "contributors"; "author"; "authors";
                    "developer"; "developers"]
     then
       n <- (if is_match bottom_match then group1 bottom_match else Return "3") ;;
       let base :=
         "SELECT authors.name AS name, COUNT(commits.commit_id) AS commit_count "
         ++ "FROM commits JOIN authors ON commits.author_id = authors.author_id " in
       let where_ := match repo_id with
                     | Some repo_id => "WHERE commits.repo_id = " ++ str_int repo_id ++ " "
                     | None => "" end in
       Return (base ++ where_ ++ "GROUP BY authors.author_id, authors.name ORDER BY commit_count ASC LIMIT " ++ n ++ ";")
     (* commits from last 30 days *)
     else if str_in "commits from last 30 days" text_lower
     then
       Return "SELECT commits.commit_id, authors.name, repositories.name as repo_name, commits.message, commits.timestamp FROM commits JOIN authors ON commits.author_id = authors.author_id JOIN repositories ON commits.repo_id = repositories.repo_id WHERE commits.timestamp >= CURRENT_DATE - INTERVAL 30 DAY ORDER BY commits.timestamp DESC;"
     (* most active developer in last 30 days *)
     else if str_in "last 30 days" text_lower
             && existsb (fun w => str_in w text_lower) ["developer"; "author"; "contributor"]
             && (str_in "most" text_lower || str_in "top" text_lower)
     then
       Return "SELECT authors.name AS top_contributor, COUNT(commits.commit_id) AS commit_count FROM commits JOIN authors ON commits.author_id = authors.author_id WHERE commits.timestamp >= CURRENT_DATE - INTERVAL 30 DAY GROUP BY authors.author_id, authors.name ORDER BY commit_count DESC LIMIT 1;"
     (* count commits *)
     else if (str_in "how many" text_lower || str_in "count" text_lower)
             && str_in "commit" text_lower
     then
       let where_ := match repo_id with
                     | Some repo_id => "WHERE repo_id = " ++ str_int repo_id ++ " "
                     | None => "" end in
       Return ("SELECT COUNT(*) AS total_commits FROM commits " ++ where_ ++ ";")
     (* count contributors *)
     else if (str_in "how many" text_lower || str_in "count" text_lower)
             && existsb (fun w => str_in w text_lower) ["contributor"; "author"; "developer"]
     then
       match repo_id with
       | Some repo_id =>
           Return ("SELECT COUNT(DISTINCT commits.author_id) AS contributors FROM commits WHERE commits.repo_id = " ++ str_int repo_id ++ ";")
       | None =>
           Return "SELECT COUNT(DISTINCT authors.author_id) AS contributors FROM authors;"
       end
     (* commit with most changes *)
     else if str_in "which commit" text_lower
             && (str_in "most" text_lower && str_in "change" text_lower)
     then
       let where_ := match repo_id with
                     | Some repo_id => "WHERE commits.repo_id = " ++ str_int repo_id ++ " "
                     | None => "" end in
       Return ("SELECT commits.hash AS top_commit, SUM(diffs.lines_added + diffs.lines_deleted) AS total_changes FROM commits JOIN diffs ON commits.commit_id = diffs.commit_id " ++ where_ ++ "GROUP BY commits.commit_id, commits.hash ORDER BY total_changes DESC LIMIT 1;")
     (* developer who fixed the most bugs *)
     else if existsb (fun w => str_in w text_lower) ["developer"; "author"; "contributor"]
             && (str_in "fix" text_lower || str_in "fixed" text_lower)
             && str_in "bug" text_lower
     then
       let base :=
         "SELECT authors.name AS top_fixer, COUNT(bugs.bug_id) AS bugs_fixed FROM bugs JOIN commits ON bugs.fixed_commit = commits.commit_id JOIN authors ON commits.author_id = authors.author_id " in
       let where_ := match repo_id with
                     | Some repo_id => "WHERE commits.repo_id = " ++ str_int repo_id ++ " "
                     | None => "" end in
       Return (base ++ where_ ++ "GROUP BY authors.author_id, authors.name ORDER BY bugs_fixed DESC LIMIT 1;")
     (* repository with most changes *)
     else if str_in "repository" text_lower && str_in "most" text_lower
             && (str_in "change" text_lower || str_in "changes" text_lower)
     then
       Return "SELECT repositories.name AS top_repository, SUM(diffs.lines_added + diffs.lines_deleted) AS total_changes FROM repositories JOIN commits ON repositories.repo_id = commits.repo_id JOIN diffs ON commits.commit_id = diffs.commit_id GROUP BY repositories.repo_id, repositories.name ORDER BY total_changes DESC LIMIT 1;"
     (* count commits per repository *)
     else if str_in "count commits per repository" text_lower
     then
       Return "SELECT repositories.name, COUNT(commits.commit_id) as commit_count FROM repositories LEFT JOIN commits ON repositories.repo_id = commits.repo_id GROUP BY repositories.repo_id, repositories.name ORDER BY commit_count DESC;"
     else
     (* extract components *)
     action <- identify_action tokens ;;
     tbl <- identify_table tokens ;;
     match tbl with
     | None | Some EmptyString => Return "Error: Could not identify the table"
     | Some table =>
     columns <- identify_columns tokens (Some table) ;;
     conditions <- identify_conditions text ;;
     (* check for aggregations *)
     let needs_group_by :=
       existsb (fun word => str_in word text_lower) ["per"; "group by"; "count by"] in
     (* build the query *)
     let query := action ++ " " ++ join ", " columns ++ " FROM " ++ table in
     (* joins *)
     let query :=
       if str_in "author" text_lower && String.eqb table "commits"
       then query ++ " JOIN authors ON commits.author_id = authors.author_id"
       else query in
     let query :=
       if str_in "repository" text_lower && String.eqb table "commits"
       then query ++ " JOIN repositories ON commits.repo_id = repositories.repo_id"
       else query in
     (* WHERE clause *)
     let query :=
       match conditions with
       | _ :: _ => query ++ " WHERE " ++ join " AND " conditions
       | [] => query
       end in
     (* GROUP BY *)
     let query :=
       if needs_group_by then
         if String.eqb table "Repository"
         then query ++ " GROUP BY Repository.repo_id, Repository.name"
         else if String.eqb table "Author"
         then query ++ " GROUP BY Author.author_id, Author.name"
         else query
       else query in
     (* ORDER BY *)
     let query :=
       if existsb (fun word => str_in word text_lower) ["top"; "most"; "highest"] then
         if str_in "commit" text_lower then query ++ " ORDER BY commit_count DESC"
         else if str_in "stars" text_lower then query ++ " ORDER BY stars DESC"
         else if str_in "forks" text_lower then query ++ " ORDER BY forks DESC"
         else query
       else query in
     Return (query ++ ";")
     end
     end)
    (fun _ => Return "Error: Could not generate SQL query").

End Analyzer.

(** ** The special-case template bank, as the specification words it

    The specification describes the chain of special cases of
    [build_sql_query] as an ordered list of (predicate, SQL template)
    pairs over the lowercased text, the first predicate that holds winning.
    [special_cases], [trigger] and [render] follow that description, one
    entry per special case of the source in its order; [template_precedence]
    below compares them with [build_sql_query]. *)

Inductive template : Type :=
| BugIntroducer            (* which author introduced the most bugs *)
| MostChangedFile
| MostAddedFile
| MostDeletedFile
| TopNFiles
| TopContributor
| TopContributorsByCommit
| TopNContributors
| BottomNContributors
| CommitsLast30Days
| MostActiveLast30Days
| CountCommits
| CountContributors
| CommitMostChanges
| TopBugFixer
| RepositoryMostChanges
| CommitsPerRepository.

Definition special_cases : list template :=
  [ BugIntroducer; MostChangedFile; MostAddedFile; MostDeletedFile; TopNFiles;
    TopContributor; TopContributorsByCommit; TopNContributors;
    BottomNContributors; CommitsLast30Days; MostActiveLast30Days; CountCommits;
    CountContributors; CommitMostChanges; TopBugFixer; RepositoryMostChanges;
    CommitsPerRepository ].

Definition any_in (ws : list string) (text_lower : string) : bool :=
  existsb (fun w => str_in w text_lower) ws.

Definition trigger (t : template) (text_lower : string) : bool :=
  match t with
  | BugIntroducer =>
      (str_in "author" text_lower || str_in "contributor" text_lower
       || str_in "developer" text_lower)
      && str_in "introduc" text_lower && str_in "bug" text_lower
  | MostChangedFile =>
      str_in "most" text_lower && str_in "file" text_lower
      && (str_in "change" text_lower || str_in "changes" text_lower
          || str_in "lines" text_lower)
  | MostAddedFile =>
      str_in "most" text_lower && str_in "file" text_lower
      && (str_in "addition" text_lower || str_in "added" text_lower)
  | MostDeletedFile =>
      str_in "most" text_lower && str_in "file" text_lower
      && (str_in "deletion" text_lower || str_in "deleted" text_lower)
  | TopNFiles =>
      is_match (re_search re_top text_lower) && str_in "file" text_lower
  | TopContributor =>
      str_in "which developer contributed the most" text_lower
      || (str_in "most" text_lower
          && any_in ["developer"; "author"; "contributor"] text_lower
          && any_in ["commit"; "commits"; "contributed"] text_lower)
  | TopContributorsByCommit =>
      str_in "top contributors by commit" text_lower
  | TopNContributors =>
      is_match (re_search re_top text_lower) && str_in "contributor" text_lower
  | BottomNContributors =>
      (is_match (re_search re_bottom text_lower) || str_in "bottom" text_lower)
      && any_in ["contributor"; "contributors"; "author"; "authors";
                 "developer"; "developers"] text_lower
  | CommitsLast30Days =>
      str_in "commits from last 30 days" text_lower
  | MostActiveLast30Days =>
      str_in "last 30 days" text_lower
      && any_in ["developer"; "author"; "contributor"] text_lower
      && (str_in "most" text_lower || str_in "top" text_lower)
  | CountCommits =>
      (str_in "how many" text_lower || str_in "count" text_lower)
      && str_in "commit" text_lower
  | CountContributors =>
      (str_in "how many" text_lower || str_in "count" text_lower)
      && any_in ["contributor"; "author"; "developer"] text_lower
  | CommitMostChanges =>
      str_in "which commit" text_lower
      && (str_in "most" text_lower && str_in "change" text_lower)
  | TopBugFixer =>
      any_in ["developer"; "author"; "contributor"] text_lower
      && (str_in "fix" text_lower || str_in "fixed" text_lower)
      && str_in "bug" text_lower
  | RepositoryMostChanges =>
      str_in "repository" text_lower && str_in "most" text_lower
      && (str_in "change" text_lower || str_in "changes" text_lower)
  | CommitsPerRepository =>
      str_in "count commits per repository" text_lower
  end.

(** The optional scoping clause on [col]. *)
Definition where_clause (col : string) (repo_id : option Z) : string :=
  match repo_id with
  | Some r => "WHERE " ++ col ++ " = " ++ str_int r ++ " "
  | None => ""
  end.

(** The N of a "top N" or "bottom N" phrase; [default] without a number. *)
Definition limit_of (p : pattern) (default : string) (text_lower : string) : string :=
  match re_search p text_lower with
  | Some n => n
  | None => default
  end.

Definition render (t : template) (text_lower : string) (repo_id : option Z) : string :=
  match t with
  | BugIntroducer =>
      "SELECT authors.name, COUNT(bugs.bug_id) AS bugs_introduced FROM bugs JOIN commits ON bugs.introduced_commit = commits.commit_id JOIN authors ON commits.author_id = authors.author_id "
      ++ where_clause "commits.repo_id" repo_id
      ++ "GROUP BY authors.author_id, authors.name ORDER BY bugs_introduced DESC LIMIT 1;"
  | MostChangedFile =>
      "SELECT files.path AS most_changed_file, SUM(diffs.lines_added + diffs.lines_deleted) AS total_changes FROM files JOIN diffs ON files.file_id = diffs.file_id JOIN commits ON diffs.commit_id = commits.commit_id "
      ++ where_clause "commits.repo_id" repo_id
      ++ "GROUP BY files.file_id, files.path ORDER BY total_changes DESC LIMIT 1;"
  | MostAddedFile =>
      "SELECT files.path AS most_added_file, SUM(diffs.lines_added) AS total_additions FROM files JOIN diffs ON files.file_id = diffs.file_id JOIN commits ON diffs.commit_id = commits.commit_id "
      ++ where_clause "commits.repo_id" repo_id
      ++ "GROUP BY files.file_id, files.path ORDER BY total_additions DESC LIMIT 1;"
  | MostDeletedFile =>
      "SELECT files.path AS most_deleted_file, SUM(diffs.lines_deleted) AS total_deletions FROM files JOIN diffs ON files.file_id = diffs.file_id JOIN commits ON diffs.commit_id = commits.commit_id "
      ++ where_clause "commits.repo_id" repo_id
      ++ "GROUP BY files.file_id, files.path ORDER BY total_deletions DESC LIMIT 1;"
  | TopNFiles =>
      "SELECT files.path, SUM(diffs.lines_added + diffs.lines_deleted) AS total_changes FROM files JOIN diffs ON files.file_id = diffs.file_id JOIN commits ON diffs.commit_id = commits.commit_id "
      ++ where_clause "commits.repo_id" repo_id
      ++ "GROUP BY files.file_id, files.path ORDER BY total_changes DESC LIMIT "
      ++ limit_of re_top "" text_lower ++ ";"
  | TopContributor =>
      "SELECT authors.name AS top_contributor, COUNT(commits.commit_id) AS commit_count FROM commits JOIN authors ON commits.author_id = authors.author_id "
      ++ where_clause "commits.repo_id" repo_id
      ++ "GROUP BY authors.author_id, authors.name ORDER BY commit_count DESC LIMIT 1;"
  | TopContributorsByCommit =>
      "SELECT authors.name, COUNT(commits.commit_id) as commit_count FROM authors JOIN commits ON authors.author_id = commits.author_id GROUP BY authors.author_id, authors.name ORDER BY commit_count DESC LIMIT 10;"
  | TopNContributors =>
      "SELECT authors.name, COUNT(commits.commit_id) as commit_count FROM authors JOIN commits ON authors.author_id = commits.author_id GROUP BY authors.author_id, authors.name ORDER BY commit_count DESC LIMIT "
      ++ limit_of re_top "" text_lower ++ ";"
  | BottomNContributors =>
      "SELECT authors.name AS name, COUNT(commits.commit_id) AS commit_count FROM commits JOIN authors ON commits.author_id = authors.author_id "
      ++ where_clause "commits.repo_id" repo_id
      ++ "GROUP BY authors.author_id, authors.name ORDER BY commit_count ASC LIMIT "
      ++ limit_of re_bottom "3" text_lower ++ ";"
  | CommitsLast30Days =>
      "SELECT commits.commit_id, authors.name, repositories.name as repo_name, commits.message, commits.timestamp FROM commits JOIN authors ON commits.author_id = authors.author_id JOIN repositories ON commits.repo_id = repositories.repo_id WHERE commits.timestamp >= CURRENT_DATE - INTERVAL 30 DAY ORDER BY commits.timestamp DESC;"
  | MostActiveLast30Days =>
      "SELECT authors.name AS top_contributor, COUNT(commits.commit_id) AS commit_count FROM commits JOIN authors ON commits.author_id = authors.author_id WHERE commits.timestamp >= CURRENT_DATE - INTERVAL 30 DAY GROUP BY authors.author_id, authors.name ORDER BY commit_count DESC LIMIT 1;"
  | CountCommits =>
      "SELECT COUNT(*) AS total_commits FROM commits "
      ++ where_clause "repo_id" repo_id ++ ";"
  | CountContributors =>
      match repo_id with
      | Some r =>
          "SELECT COUNT(DISTINCT commits.author_id) AS contributors FROM commits WHERE commits.repo_id = "
          ++ str_int r ++ ";"
      | None => "SELECT COUNT(DISTINCT authors.author_id) AS contributors FROM authors;"
      end
  | CommitMostChanges =>
      "SELECT commits.hash AS top_commit, SUM(diffs.lines_added + diffs.lines_deleted) AS total_changes FROM commits JOIN diffs ON commits.commit_id = diffs.commit_id "
      ++ where_clause "commits.repo_id" repo_id
      ++ "GROUP BY commits.commit_id, commits.hash ORDER BY total_changes DESC LIMIT 1;"
  | TopBugFixer =>
      "SELECT authors.name AS top_fixer, COUNT(bugs.bug_id) AS bugs_fixed FROM bugs JOIN commits ON bugs.fixed_commit = commits.commit_id JOIN authors ON commits.author_id = authors.author_id "
      ++ where_clause "commits.repo_id" repo_id
      ++ "GROUP BY authors.author_id, authors.name ORDER BY bugs_fixed DESC LIMIT 1;"
  | RepositoryMostChanges =>
      "SELECT repositories.name AS top_repository, SUM(diffs.lines_added + diffs.lines_deleted) AS total_changes FROM repositories JOIN commits ON repositories.repo_id = commits.repo_id JOIN diffs ON commits.commit_id = diffs.commit_id GROUP BY repositories.repo_id, repositories.name ORDER BY total_changes DESC LIMIT 1;"
  | CommitsPerRepository =>
      "SELECT repositories.name, COUNT(commits.commit_id) as commit_count FROM repositories LEFT JOIN commits ON repositories.repo_id = commits.repo_id GROUP BY repositories.repo_id, repositories.name ORDER BY commit_count DESC;"
  end.

(** The first template, in declared order, whose predicate holds. *)
Definition first_match (text_lower : string) : option template :=
  find (fun t => trigger t text_lower) special_cases.

(** The templates whose rendering depends on the repository identifier. *)
Definition repo_scoped (t : template) : bool :=
  match t with
  | TopContributorsByCommit | TopNContributors | CommitsLast30Days
  | MostActiveLast30Days | RepositoryMostChanges | CommitsPerRepository => false
  | _ => true
  end.

(** The forms a scoping clause on repository [r] takes in the templates. *)
Definition scoping_clauses (r : Z) : list string :=
  [ "WHERE commits.repo_id = " ++ str_int r ++ " ";
    "WHERE commits.repo_id = " ++ str_int r ++ ";";
    "WHERE repo_id = " ++ str_int r ++ " " ].

(** ** The generic assembler, as the specification words it

    [assemble(action, entity, columns, filters, text)] of the specification:
    the statement built after the special cases, given what the matchers
    found.  [generic_path] runs the matchers and assembles;
    [build_sql_query_cases] below compares both with [build_sql_query]. *)

Definition assemble (action tbl : string) (cols conditions : list string)
           (text_lower : string) : string :=
  let query := action ++ " " ++ join ", " cols ++ " FROM " ++ tbl in
  let query :=
    if str_in "author" text_lower && String.eqb tbl "commits"
    then query ++ " JOIN authors ON commits.author_id = authors.author_id"
    else query in
  let query :=
    if str_in "repository" text_lower && String.eqb tbl "commits"
    then query ++ " JOIN repositories ON commits.repo_id = repositories.repo_id"
    else query in
  let query :=
    match conditions with
    | _ :: _ => query ++ " WHERE " ++ join " AND " conditions
    | [] => query
    end in
  let query :=
    if any_in ["per"; "group by"; "count by"] text_lower then
      if String.eqb tbl "Repository"
      then query ++ " GROUP BY Repository.repo_id, Repository.name"
      else if String.eqb tbl "Author"
      then query ++ " GROUP BY Author.author_id, Author.name"
      else query
    else query in
  let query :=
    if any_in ["top"; "most"; "highest"] text_lower then
      if str_in "commit" text_lower then query ++ " ORDER BY commit_count DESC"
      else if str_in "stars" text_lower then query ++ " ORDER BY stars DESC"
      else if str_in "forks" text_lower then query ++ " ORDER BY forks DESC"
      else query
    else query in
  query ++ ";".

Definition generic_path (tokens : list string) (text : string) : outcome string :=
  action <- identify_action tokens ;;
  tbl <- identify_table tokens ;;
  match tbl with
  | None | Some EmptyString => Return "Error: Could not identify the table"
  | Some tbl =>
      cols <- identify_columns tokens (Some tbl) ;;
      conditions <- identify_conditions text ;;
      Return (assemble action tbl cols conditions (lower text))
  end.

(** ** The comparison filters, as the code derives them

    The operator of a star or fork filter comes from the directional
    phrases found anywhere in the text. *)

Definition direction (text_lower : string) : string :=
  if str_in "more than" text_lower || str_in "greater than" text_lower then ">="
  else if str_in "less than" text_lower then "<="
  else "=".

(** The metrics with a comparison filter, each with its pattern. *)
Definition metrics : list (string * pattern) :=
  [ ("stars", re_stars); ("forks", re_forks) ].

Definition metric_filter (metric : string) (p : pattern) (text_lower : string)
  : list string :=
  match re_search p text_lower with
  | Some num => [metric ++ " " ++ direction text_lower ++ " " ++ num]
  | None => []
  end.

Definition time_filter (text_lower : string) : list string :=
  if str_in "this month" text_lower
  then ["EXTRACT(MONTH FROM created_at) = EXTRACT(MONTH FROM CURRENT_DATE) AND EXTRACT(YEAR FROM created_at) = EXTRACT(YEAR FROM CURRENT_DATE)"]
  else if str_in "last month" text_lower
  then ["created_at >= DATE_TRUNC('month', CURRENT_DATE - INTERVAL '1 month') AND created_at < DATE_TRUNC('month', CURRENT_DATE)"]
  else [].

(** The conditions that are a filter on [metric]. *)
Definition filters_on (metric : string) (conditions : list string) : list string :=
  filter (fun c => String.prefix (metric ++ " ") c) conditions.

(** ** The three error values and the shape of a statement *)

Definition EmptyInput : string := "Error: Could not process the input text".
Definition NoEntity : string := "Error: Could not identify the table".
Definition InternalFault : string := "Error: Could not generate SQL query".

Fixpoint ends_with (c : ascii) (s : string) : bool :=
  match s with
  | EmptyString => false
  | String x EmptyString => Ascii.eqb x c
  | String _ s' => ends_with c s'
  end.

(** A statement: it opens with [SELECT] and is closed by a semicolon. *)
Definition is_statement (s : string) : bool :=
  String.prefix "SELECT" s && ends_with ";" s.

(** [q] starts with [base]: [q.startswith(base)]. *)
Definition extends (base q : string) : Prop := exists rest, q = base ++ rest.

(** [c in s] for a character. *)
Fixpoint has_char (c : ascii) (s : string) : bool :=
  match s with
  | EmptyString => false
  | String x s' => Ascii.eqb x c || has_char c s'
  end.

(** ** The select list of a statement

    The syntax of SQL for the select list of a statement, on the
    expressions that the compiler writes (columns, the wildcard, calls and
    arithmetic on them), blanks and commas counting outside parentheses
    only:
    - a select list is a list of derived columns separated by commas;
    - a derived column is a value expression, then possibly [AS] and a
      column name, or a column name alone;
    - a value expression is a sequence of operands with an operator
      between any two; an operand has no blank outside parentheses (a
      column, the wildcard, a call with its arguments);
    - a column name is an identifier.
    The select list of a statement is the text between the opening
    [SELECT] and the first [FROM] outside parentheses. *)

Module Sql.

(** [s.startswith(p)], by recursion on [p]. *)
Fixpoint starts_with (p s : string) : bool :=
  match p with
  | EmptyString => true
  | String a p' =>
      match s with
      | EmptyString => false
      | String b s' => Ascii.eqb a b && starts_with p' s'
      end
  end.

(** The parenthesis depth after the character [c]. *)
Definition step (depth : nat) (c : ascii) : nat :=
  if Ascii.eqb c "(" then S depth
  else if Ascii.eqb c ")" then pred depth
  else depth.

(** The text before the first [" FROM "] outside parentheses. *)
Fixpoint until_from (depth : nat) (s : string) : option string :=
  if (depth =? 0)%nat && starts_with " FROM " s then Some ""
  else match s with
       | EmptyString => None
       | String c s' => option_map (String c) (until_from (step depth c) s')
       end.

Definition select_list (sql : string) : option string :=
  if starts_with "SELECT " sql then until_from 0 (drop 7 sql) else None.

(** Splits at the characters [sep] outside parentheses. *)
Fixpoint split_top (sep : ascii) (depth : nat) (cur : string) (s : string)
  : list string :=
  match s with
  | EmptyString => [cur]
  | String c s' =>
      if (depth =? 0)%nat && Ascii.eqb c sep
      then cur :: split_top sep 0 "" s'
      else split_top sep (step depth c) (cur ++ String c "") s'
  end.

Definition nonempty (w : string) : bool :=
  match w with EmptyString => false | _ => true end.

(** The parts of a derived column: its texts between blanks. *)
Definition parts (item : string) : list string :=
  filter nonempty (split_top " " 0 "" item).

Definition is_identifier (w : string) : bool :=
  match w with
  | EmptyString => false
  | String c _ => negb (is_digit c) && forallb_str is_word_char w
  end.

Definition is_as (w : string) : bool := String.eqb (lower w) "as".

Definition is_operator (w : string) : bool :=
  mem w ["+"; "-"; "*"; "/"; "%"; "||"].

Definition is_operand (w : string) : bool :=
  String.eqb w "*" || (nonempty w && negb (is_operator w) && negb (is_as w)).

(** What may follow an operand: nothing, a column name, [AS] and a column
    name, or an operator, an operand and what may follow that. *)
Fixpoint expression_tail (ws : list string) : bool :=
  match ws with
  | [] => true
  | [a] => is_identifier a
  | k :: ((a :: rest) as more) =>
      match rest with
      | [] => (is_as k && is_identifier a) || (is_operator k && is_operand a)
      | _ => is_operator k && is_operand a && expression_tail rest
      end
  end.

Definition derived_column (item : string) : bool :=
  match parts item with
  | [] => false
  | e :: rest => is_operand e && expression_tail rest
  end.

(** The statement has a select list, and it follows the syntax. *)
Definition well_formed_select_list (sql : string) : bool :=
  match select_list sql with
  | Some l => forallb derived_column (split_top "," 0 "" l)
  | None => false
  end.

End Sql.

(** ** A reference environment for concrete runs

    [simple_tokenize] cuts at whitespace and sets the marks [? ! , ; : ( )]
    apart; hyphens and underscores stay inside a token.  On the sentences
    used below this is what [word_tokenize] returns.  [english_stop_words]
    is NLTK's English stop-word list. *)

Definition is_mark (c : ascii) : bool :=
  existsb (Ascii.eqb c) ["?"; "!"; ","; ";"; ":"; "("; ")"]%char.

Definition flush (cur : string) : list string :=
  match cur with
  | EmptyString => []
  | _ => [cur]
  end.

Fixpoint tokens_from (cur : string) (s : string) : list string :=
  match s with
  | EmptyString => flush cur
  | String c s' =>
      if is_space c then (flush cur ++ tokens_from "" s')%list
      else if is_mark c then (flush cur ++ String c "" :: tokens_from "" s')%list
      else tokens_from (cur ++ String c "") s'
  end.

Definition simple_tokenize (s : string) : outcome (list string) :=
  Return (tokens_from "" s).

Definition english_stop_words : list string :=
  [ "i"; "me"; "my"; "myself"; "we"; "our"; "ours"; "ourselves"; "you";
    "you're"; "you've"; "you'll"; "you'd"; "your"; "yours"; "yourself";
    "yourselves"; "he"; "him"; "his"; "himself"; "she"; "she's"; "her";
    "hers"; "herself"; "it"; "it's"; "its"; "itself"; "they"; "them";
    "their"; "theirs"; "themselves"; "what"; "which"; "who"; "whom"; "this";
    "that"; "that'll"; "these"; "those"; "am"; "is"; "are"; "was"; "were";
    "be"; "been"; "being"; "have"; "has"; "had"; "having"; "do"; "does";
    "did"; "doing"; "a"; "an"; "the"; "and"; "but"; "if"; "or"; "because";
    "as"; "until"; "while"; "of"; "at"; "by"; "for"; "with"; "about";
    "against"; "between"; "into"; "through"; "during"; "before"; "after";
    "above"; "below"; "to"; "from"; "up"; "down"; "in"; "out"; "on"; "off";
    "over"; "under"; "again"; "further"; "then"; "once"; "here"; "there";
    "when"; "where"; "why"; "how"; "all"; "any"; "both"; "each"; "few";
    "more"; "most"; "other"; "some"; "such"; "no"; "nor"; "not"; "only";
    "own"; "same"; "so"; "than"; "too"; "very"; "s"; "t"; "can"; "will";
    "just"; "don"; "don't"; "should"; "should've"; "now"; "d"; "ll"; "m";
    "o"; "re"; "ve"; "y"; "ain"; "aren"; "aren't"; "couldn"; "couldn't";
    "didn"; "didn't"; "doesn"; "doesn't"; "hadn"; "hadn't"; "hasn";
    "hasn't"; "haven"; "haven't"; "isn"; "isn't"; "ma"; "mightn";
    "mightn't"; "mustn"; "mustn't"; "needn"; "needn't"; "shan"; "shan't";
    "shouldn"; "shouldn't"; "wasn"; "wasn't"; "weren"; "weren't"; "won";
    "won't"; "wouldn"; "wouldn't" ].

(** A tokenizer whose data is missing: every call raises. *)
Definition missing_data_tokenize (s : string) : outcome (list string) :=
  Raise "LookupError: Resource punkt not found.".

(** The analyzer in the reference environment. *)
Definition compile : string -> option Z -> outcome string :=
  build_sql_query simple_tokenize english_stop_words.

(** ** The caller: [api_query] of [backend/app.py]

    The route looks a repository up, compiles the query for it and runs the
    text it gets unless that text starts with "Error".  The lookup and the
    execution belong to the database: [repo_obj] is the [repo_id] of the row
    found, if any, [BadRequest] the answer with status 400 and [Execute sql]
    the call [session.execute(text(sql))]. *)

Inductive api_result : Type :=
| BadRequest (error : string)
| Execute (sql : string).

Section Caller.

Variable word_tokenize : string -> outcome (list string).
Variable stop_words : list string.

Definition api_query (user_query : string) (repo_obj : option Z)
  : outcome api_result :=
  match repo_obj with
  | None =>
      Return (BadRequest "No repository found. Please extract the repository first.")
  | Some repo_id =>
      sql_query <- build_sql_query word_tokenize stop_words user_query (Some repo_id) ;;
      if String.prefix "Error" sql_query
      then Return (BadRequest sql_query)
      else Return (Execute sql_query)
  end.

End Caller.

(** ** [AccuracyTester.normalize_sql] of [NLP/test_accuracy.py] *)

(** [s.split()]: the maximal runs of characters that are no whitespace. *)
Fixpoint words_from (cur : string) (s : string) : list string :=
  match s with
  | EmptyString => flush cur
  | String c s' =>
      if is_space c then (flush cur ++ words_from "" s')%list
      else words_from (cur ++ String c "") s'
  end.

Definition split_whitespace (s : string) : list string := words_from "" s.

(** A string without whitespace, and a word of a split: a nonempty one. *)
Definition blank_free (w : string) : Prop :=
  forallb_str (fun c => negb (is_space c)) w = true.

Definition split_word (w : string) : Prop := w <> "" /\ blank_free w.

Definition normalize_sql (sql : string) : string :=
  join " " (split_whitespace (lower sql)).

(** [s.count(c)] for a character. *)
Fixpoint count_char (c : ascii) (s : string) : nat :=
  match s with
  | EmptyString => 0
  | String x s' => (if Ascii.eqb x c then 1 else 0) + count_char c s'
  end.

(** [s] does not start with a word character. *)
Definition not_word_start (s : string) : Prop :=
  match s with
  | String c _ => is_word_char c = false
  | EmptyString => True
  end.

(** [s] does not end with a word character. *)
Definition not_word_end (s : string) : Prop :=
  match last_char s None with
  | Some c => is_word_char c = false
  | None => True
  end.

(** All the synonyms of the catalog. *)
Definition all_patterns : list string :=
  flat_map (fun e => patterns (snd e)) entity_mapping.

(** ** [GitHubQueryParser] of [NLP/github_analyzer.py]

    The parser of the accuracy test.  Its methods read a spaCy document
    through [doc.text] only, so a document is the text it holds.
    [detect_filters] reads the clock and converts digits: the [datetime]
    module and [int] are what the Python library provides. *)

Module Parser.

Record Doc : Type := { doc_text : string }.

(** [d[k]]: a [KeyError] when [k] is no key of [d]. *)
Definition getitem {V} (k : string) (d : list (string * V)) : outcome V :=
  match lookup k d with
  | Some v => Return v
  | None => Raise ("KeyError: " ++ k)
  end.

(** [self.intent_patterns] *)
Definition intent_patterns : list (string * list string) :=
  [ ("SELECT", ["show"; "find"; "display"; "list"; "get"; "what"; "which"]);
    ("COUNT", ["count"; "how many"; "total number"]);
    ("UPDATE", ["update"; "modify"; "change"]);
    ("DELETE", ["delete"; "remove"]);
    ("INSERT", ["add"; "insert"; "create"]) ].

Record column_groups : Type := {
  default : list string;
  stats : list string;
  details : list string
}.

Record entity_info : Type := {
  patterns : list string;
  table : string;
  columns : column_groups
}.

(** [self.entity_mappings] *)
Definition entity_mappings : list (string * entity_info) :=
  [ ("repository",
     {| patterns := ["repo"; "repository"; "repositories"; "project"];
        table := "repositories";
        columns :=
          {| default := ["id"; "name"; "full_name"; "description"];
             stats := ["stargazers_count"; "forks_count"; "watchers_count"];
             details := ["language"; "created_at"; "updated_at"; "archived"] |} |});
    ("commit",
     {| patterns := ["commit"; "commits"; "change"; "changes"];
        table := "commits";
        columns :=
          {| default := ["id"; "sha"; "message"];
             stats := ["additions"; "deletions"; "total"];
             details := ["author_id"; "committer_id"; "created_at"] |} |});
    ("issue",
     {| patterns := ["issue"; "issues"; "bug"; "bugs"; "ticket"];
        table := "issues";
        columns :=
          {| default := ["id"; "number"; "title"; "state"];
             stats := ["comments_count"; "reactions_count"];
             details := ["body"; "created_at"; "updated_at"; "closed_at"] |} |});
    ("pull_request",
     {| patterns := ["pr"; "pull request"; "merge request"];
        table := "pull_requests";
        columns :=
          {| default := ["id"; "number"; "title"; "state"];
             stats := ["comments_count"; "commits_count"];
             details := ["body"; "merged_at"; "created_at"] |} |}) ].

(** The value of a filter: a string, an integer or a pair of integers. *)
Inductive filter_value : Type :=
| VStr (s : string)
| VInt (n : Z)
| VPair (lo hi : Z).

Record filter_dict : Type := {
  column : string;
  operator : string;
  value : filter_value
}.

(** The dictionary [parse_query] returns. *)
Record parsed_data : Type := {
  intent : string;
  entity : option string;
  parsed_columns : list string;       (* the key 'columns' *)
  filters : list filter_dict
}.

(** The first key, in insertion order, one of whose patterns is in [text]. *)
Fixpoint first_key {V} (pats : V -> list string) (text : string)
         (items : list (string * V)) : option string :=
  match items with
  | [] => None
  | (key, v) :: rest =>
      if any_in (pats v) text then Some key else first_key pats text rest
  end.

Definition detect_intent (doc : Doc) : outcome string :=
  let text := lower (doc_text doc) in
  (* COUNT first *)
  count_patterns <- getitem "COUNT" intent_patterns ;;
  if any_in count_patterns text then Return "COUNT"
  else
    match first_key (fun ps => ps) text intent_patterns with
    | Some intent => Return intent
    | None => Return "SELECT"
    end.

Definition detect_entity (doc : Doc) : outcome (option string) :=
  let text := lower (doc_text doc) in
  Return (first_key patterns text entity_mappings).

Definition detect_columns (doc : Doc) (entity : option string)
  : outcome (list string) :=
  let text := lower (doc_text doc) in
  match entity with
  | None | Some EmptyString => Return ["*"]
  | Some entity =>
      match lookup entity entity_mappings with
      | None => Return ["*"]
      | Some _ =>
          entity_info <- getitem entity entity_mappings ;;
          if any_in ["count"; "number"; "stats"; "statistics"] text
          then Return (stats (columns entity_info))
          else if any_in ["details"; "information"; "full"; "all"] text
          then Return (details (columns entity_info))
          else Return (default (columns entity_info))
      end
  end.

(** [str.isdigit] on one character, then on a string. *)
Definition is_digit_char (c : ascii) : bool :=
  in_range 48 57 c || in_range 178 179 c || (code c =? 185)%N.

Definition isdigit (s : string) : bool :=
  match s with
  | EmptyString => false
  | _ => forallb_str is_digit_char s
  end.

(** The condition of one filter, as the loop of [build_sql_query] renders it. *)
Definition render_condition (filter_dict : filter_dict) : outcome string :=
  let column := column filter_dict in
  let operator := operator filter_dict in
  let value := value filter_dict in
  if String.eqb operator "BETWEEN" then
    match value with
    | VPair lo hi =>
        Return (column ++ " BETWEEN " ++ str_int lo ++ " AND " ++ str_int hi)
    | VStr (String a (String b _)) =>
        Return (column ++ " BETWEEN " ++ String a "" ++ " AND " ++ String b "")
    | VStr _ => Raise "IndexError: string index out of range"
    | VInt _ => Raise "TypeError: 'int' object is not subscriptable"
    end
  else
    match value with
    | VStr s =>
        if negb (isdigit s)
        then Return (column ++ " " ++ operator ++ " '" ++ s ++ "'")
        else Return (column ++ " " ++ operator ++ " " ++ s)
    | VInt n => Return (column ++ " " ++ operator ++ " " ++ str_int n)
    | VPair lo hi =>
        Return (column ++ " " ++ operator ++ " (" ++ str_int lo ++ ", "
                ++ str_int hi ++ ")")
    end.

(** The loop over the filters; it stops at the first condition that raises. *)
Fixpoint where_conditions (filters : list filter_dict) : outcome (list string) :=
  match filters with
  | [] => Return []
  | filter_dict :: rest =>
      c <- render_condition filter_dict ;;
      cs <- where_conditions rest ;;
      Return (c :: cs)
  end.

Definition build_sql_query (parsed_data : parsed_data) : outcome string :=
  let intent := intent parsed_data in
  let entity := entity parsed_data in
  let columns := parsed_columns parsed_data in
  let filters := filters parsed_data in
  match entity with
  | None | Some EmptyString => Return "Could not determine the table to query"
  | Some entity =>
      info <- getitem entity entity_mappings ;;
      let table := table info in
      let query :=
        if String.eqb intent "COUNT"
        then "SELECT COUNT(*) FROM " ++ table
        else
          let columns_str := join ", " columns in
          "SELECT " ++ columns_str ++ " FROM " ++ table in
      match filters with
      | [] => Return (query ++ ";")
      | _ :: _ =>
          conditions <- where_conditions filters ;;
          Return ((query ++ " WHERE " ++ join " AND " conditions) ++ ";")
      end
  end.

(** *** The regular expressions of the parser

    The patterns of [time_patterns], [comparison_patterns] and the state
    filter are sequences of literals, [\s*], [\d+], optional parts and
    alternatives of literals; every capturing group stands at the top of
    its pattern, so it takes part in every match.  [search] is Python's
    [re.search] on such a pattern: the leftmost match, alternatives in
    their order, greedy parts giving back what a later part needs. *)

Module Rx.

Inductive rx : Type :=
| Text (s : string)          (* literal text *)
| Blanks0                    (* \s*  *)
| Number                     (* \d+  *)
| OneOf (alts : list string) (* a|b|c  *)
| Maybe (r : rx)             (* r?  and  (?:r)?  *)
| Then (r1 r2 : rx).         (* r1 r2 *)

Inductive item : Type :=
| Plain (r : rx)
| Capture (r : rx).          (* ( r ) *)

Definition pattern := list item.

(** A match object: [m.group(0)] and [m.groups()]. *)
Record match_object : Type := {
  whole : string;
  groups : list string
}.

(** The text of [s] before its suffix [rest]. *)
Definition consumed (s rest : string) : string :=
  take (String.length s - String.length rest) s.

(** Tries the continuation after [n], [n-1], ..., [min] characters. *)
Fixpoint try_lengths {A} (cont : string -> option A) (s : string)
         (min n : nat) : option A :=
  if (n <? min)%nat then None
  else match cont (drop n s) with
       | Some m => Some m
       | None => match n with
                 | O => None
                 | S n' => try_lengths cont s min n'
                 end
       end.

(** The first alternative that is at the start of [s] and after which the
    continuation succeeds. *)
Fixpoint first_alternative {A} (cont : string -> option A) (s : string)
         (alts : list string) : option A :=
  match alts with
  | [] => None
  | l :: alts' =>
      match (if String.prefix l s then cont (drop (String.length l) s)
             else None) with
      | Some m => Some m
      | None => first_alternative cont s alts'
      end
  end.

(** Matches [r] at the start of [s], then the continuation on the rest. *)
Fixpoint match_rx {A} (r : rx) (s : string) (cont : string -> option A)
  : option A :=
  match r with
  | Text l =>
      if String.prefix l s then cont (drop (String.length l) s) else None
  | Blanks0 => try_lengths cont s 0 (run_length is_space s)
  | Number => try_lengths cont s 1 (run_length is_digit s)
  | OneOf alts => first_alternative cont s alts
  | Maybe r' =>
      match match_rx r' s cont with
      | Some m => Some m
      | None => cont s
      end
  | Then r1 r2 => match_rx r1 s (fun rest => match_rx r2 rest cont)
  end.

(** Matches the items of [p] at the start of [s]; [start] is where the
    match began and [gs] the groups captured so far. *)
Fixpoint match_items (p : pattern) (start s : string) (gs : list string)
  : option match_object :=
  match p with
  | [] => Some {| whole := consumed start s; groups := gs |}
  | Plain r :: p' =>
      match_rx r s (fun rest => match_items p' start rest gs)
  | Capture r :: p' =>
      match_rx r s (fun rest =>
                      match_items p' start rest (list_append gs (consumed s rest)))
  end.

Fixpoint search_from (p : pattern) (s : string) : option match_object :=
  match match_items p s s [] with
  | Some m => Some m
  | None => match s with
            | EmptyString => None
            | String _ s' => search_from p s'
            end
  end.

(** [re.search(p, s)] *)
Definition search (p : pattern) (s : string) : option match_object :=
  search_from p s.

(** [m.group(g)] for a group number [g] of 1 or more: an [IndexError] when
    the pattern has fewer groups. *)
Definition group (g : nat) (m : match_object) : outcome string :=
  match g with
  | O => Return (whole m)
  | S g' =>
      match nth_error (groups m) g' with
      | Some s => Return s
      | None => Raise "IndexError: no such group"
      end
  end.

End Rx.

Import Rx.

(** [r'(\d+)\s*<unit>s?(?:\s*ago)?'] *)
Definition ago (unit : string) : pattern :=
  [ Capture Number; Plain Blanks0; Plain (Text unit); Plain (Maybe (Text "s"));
    Plain (Maybe (Then Blanks0 (Text "ago"))) ].

(** [self.time_patterns] *)
Definition time_patterns : list (string * pattern) :=
  [ ("today", [Plain (Text "today")]);
    ("yesterday", [Plain (Text "yesterday")]);
    ("this week", [Plain (Text "this week")]);
    ("last week", [Plain (Text "last week")]);
    ("this month", [Plain (Text "this month")]);
    ("last month", [Plain (Text "last month")]);
    ("this year", [Plain (Text "this year")]);
    ("last year", [Plain (Text "last year")]);
    ("days", ago "day");
    ("weeks", ago "week");
    ("months", ago "month");
    ("years", ago "year") ].

(** [self.comparison_patterns] *)
Definition comparison_patterns : list (string * pattern) :=
  [ ("greater",
     [ Capture (OneOf ["more"; "greater"; "higher"; "over"; "above"]);
       Plain (Text " than "); Capture Number ]);
    ("less",
     [ Capture (OneOf ["less"; "fewer"; "lower"; "under"; "below"]);
       Plain (Text " than "); Capture Number ]);
    ("equal",
     [ Capture (OneOf ["equal"; "equals"; "exactly"]); Plain (Text " ");
       Capture Number ]);
    ("between",
     [ Plain (Text "between "); Capture Number; Plain (Text " and ");
       Capture Number ]) ].

(** [r'(open|closed|merged|pending)'] *)
Definition state_pattern : pattern :=
  [ Capture (OneOf ["open"; "closed"; "merged"; "pending"]) ].

(** *** The [datetime] module

    What the parser calls of it.  [now] is indexed by the number of
    earlier readings of the clock; building a [timedelta] and subtracting
    one raise [OverflowError] out of range. *)

Record Datetime : Type := {
  datetime : Type;
  date : Type;
  timedelta : Type;
  now : nat -> datetime;                              (* datetime.datetime.now() *)
  timedelta_days : Z -> outcome timedelta;            (* datetime.timedelta(days=n) *)
  timedelta_weeks : Z -> outcome timedelta;           (* datetime.timedelta(weeks=n) *)
  minus : datetime -> timedelta -> outcome datetime;  (* d - delta *)
  weekday : datetime -> Z;                            (* d.weekday() *)
  replace_day_1 : datetime -> datetime;               (* d.replace(day=1) *)
  date_of : datetime -> date;                         (* d.date() *)
  isoformat : date -> string                          (* d.isoformat() *)
}.

Section Library.

Variable lib : Datetime.
(** [int(s)] on a [str] *)
Variable int : string -> outcome Z.
(** [self.nlp], spaCy's pipeline. *)
Variable nlp : string -> Doc.

(** [(now - delta).date()] *)
Definition days_before (now : datetime lib) (delta : outcome (timedelta lib))
  : outcome (option (date lib)) :=
  delta <- delta ;;
  d <- minus lib now delta ;;
  Return (Some (date_of lib d)).

(** [reads] is the number of earlier readings of the clock. *)
Definition create_time_filter (reads : nat) (time_key : string)
           (matches : match_object) : outcome (option filter_dict) :=
  let now := now lib reads in
  date <-
    (if String.eqb time_key "today" then Return (Some (date_of lib now))
     else if String.eqb time_key "yesterday"
     then days_before now (timedelta_days lib 1)
     else if String.eqb time_key "this week"
     then days_before now (timedelta_days lib (weekday lib now))
     else if String.eqb time_key "last week"
     then days_before now (timedelta_days lib (weekday lib now + 7))
     else if String.eqb time_key "this month"
     then Return (Some (date_of lib (replace_day_1 lib now)))
     else if String.eqb time_key "last month"
     then
       delta <- timedelta_days lib 1 ;;
       last_month <- minus lib (replace_day_1 lib now) delta ;;
       Return (Some (date_of lib (replace_day_1 lib last_month)))
     else
       (* Handle numeric time periods; a match object is true *)
       g <- group 1 matches ;;
       if negb (String.eqb g "") then
         number <- int g ;;
         if String.eqb time_key "days"
         then days_before now (timedelta_days lib number)
         else if String.eqb time_key "weeks"
         then days_before now (timedelta_weeks lib number)
         else if String.eqb time_key "months"
         then days_before now (timedelta_days lib (number * 30))
         else if String.eqb time_key "years"
         then days_before now (timedelta_days lib (number * 365))
         else Return None
       else Return None) ;;
  match date with
  | Some date =>
      Return (Some {| column := "created_at"; operator := ">=";
                      value := VStr (isoformat lib date) |})
  | None => Return None
  end.

Definition create_comparison_filter (comp_key : string)
           (matches : match_object) : outcome (option filter_dict) :=
  (* a match object is true *)
  if String.eqb comp_key "between" then
    g1 <- group 1 matches ;;
    lo <- int g1 ;;
    g2 <- group 2 matches ;;
    hi <- int g2 ;;
    Return (Some {| column := "count"; operator := "BETWEEN";
                    value := VPair lo hi |})
  else
    g2 <- group 2 matches ;;
    value <- int g2 ;;
    let operator :=
      if String.eqb comp_key "greater" then ">="
      else if String.eqb comp_key "less" then "<="
      else "=" in
    Return (Some {| column := "count"; operator := operator;
                    value := VInt value |}).

(** [filters.append(filter_dict)] when [filter_dict] is a dictionary. *)
Definition append_filter (filters : list filter_dict)
           (created : option filter_dict) : list filter_dict :=
  match created with
  | Some f => list_append filters f
  | None => filters
  end.

(** The loop over [self.time_patterns.items()]. *)
Fixpoint time_loop (items : list (string * pattern)) (text : string)
         (reads : nat) (filters : list filter_dict)
  : outcome (list filter_dict) :=
  match items with
  | [] => Return filters
  | (time_key, pattern) :: rest =>
      match search pattern text with
      | Some matches =>
          filter_dict <- create_time_filter reads time_key matches ;;
          time_loop rest text (S reads) (append_filter filters filter_dict)
      | None => time_loop rest text reads filters
      end
  end.

(** The loop over [self.comparison_patterns.items()]. *)
Fixpoint comparison_loop (items : list (string * pattern)) (text : string)
         (filters : list filter_dict) : outcome (list filter_dict) :=
  match items with
  | [] => Return filters
  | (comp_key, pattern) :: rest =>
      match search pattern text with
      | Some matches =>
          filter_dict <- create_comparison_filter comp_key matches ;;
          comparison_loop rest text (append_filter filters filter_dict)
      | None => comparison_loop rest text filters
      end
  end.

Definition detect_filters (doc : Doc) : outcome (list filter_dict) :=
  let filters := [] in
  let text := lower (doc_text doc) in
  (* Detect time-based filters *)
  filters <- time_loop time_patterns text 0 filters ;;
  (* Detect comparison filters *)
  filters <- comparison_loop comparison_patterns text filters ;;
  (* Detect state/status filters *)
  match search state_pattern text with
  | Some state_match =>
      state <- group 1 state_match ;;
      Return (list_append filters {| column := "state"; operator := "=";
                                     value := VStr state |})
  | None => Return filters
  end.

Definition parse_query (query : string) : outcome parsed_data :=
  let doc := nlp (lower query) in
  intent <- detect_intent doc ;;
  entity <- detect_entity doc ;;
  filters <- detect_filters doc ;;
  columns <- detect_columns doc entity ;;
  Return {| intent := intent; entity := entity; parsed_columns := columns;
            filters := filters |}.

End Library.

(** The number that a string of the digits 0 to 9 writes, after [acc]. *)
Fixpoint digits_value (acc : Z) (s : string) : Z :=
  match s with
  | EmptyString => acc
  | String c s' => digits_value (10 * acc + Z.of_N (code c - 48)) s'
  end.

(** [int(s)] on the digit strings of the runs below: nonempty, of the
    digits 0 to 9. *)
Definition decimal_int (s : string) : outcome Z :=
  if negb (String.eqb s "") && forallb_str is_digit s
  then Return (digits_value 0 s)
  else Raise "ValueError: invalid literal for int() with base 10".

(** A clock for the runs that never read it: a query without a time
    phrase calls nothing of the [datetime] module. *)
Definition unread_clock : Datetime :=
  {| datetime := unit; date := unit; timedelta := unit;
     now := fun _ => tt;
     timedelta_days := fun _ => Raise "OverflowError";
     timedelta_weeks := fun _ => Raise "OverflowError";
     minus := fun _ _ => Raise "OverflowError";
     weekday := fun _ => 0%Z;
     replace_day_1 := fun d => d;
     date_of := fun d => d;
     isoformat := fun _ => "" |}.

(** A filter that [render_condition] can render: the value of a BETWEEN
    can be subscripted at 0 and at 1. *)
Definition well_formed (f : filter_dict) : bool :=
  if String.eqb (operator f) "BETWEEN"
  then match value f with
       | VPair _ _ => true
       | VStr (String _ (String _ _)) => true
       | _ => false
       end
  else true.

End Parser.

(** * Properties *)

(** ** Sample runs of the embedding *)

Example re_stars_1 : re_search re_stars "more than 1000 stars" = Some "1000".
Proof. reflexivity. Qed.
Example re_stars_2 : re_search re_stars "12 34stars" = Some "34".
Proof. reflexivity. Qed.
Example re_top_1 : re_search re_top "the top  5 files" = Some "5".
Proof. reflexivity. Qed.
Example re_top_2 : re_search re_top "stop 5 files" = None.
Proof. reflexivity. Qed.
Example re_top_3 : re_search re_top "top 5files" = None.
Proof. reflexivity. Qed.
Example lower_1 : lower "Show Repositories" = "show repositories".
Proof. reflexivity. Qed.
Example str_int_1 : str_int 42 = "42" /\ str_int 0 = "0" /\ str_int (-7) = "-7".
Proof. repeat split. Qed.
Example identify_action_1 : identify_action ["count"; "files"] = Return "SELECT COUNT(*)".
Proof. reflexivity. Qed.
Example identify_action_2 : identify_action ["show"; "count"; "files"] = Return "SELECT".
Proof. reflexivity. Qed.
Example identify_table_1 : identify_table ["changes"] = Return (Some "commits").
Proof. reflexivity. Qed.
Example identify_columns_1 :
  identify_columns ["show"; "repositories"; "1000"; "stars"] (Some "repositories")
  = Return ["stars"].
Proof. reflexivity. Qed.
Example identify_conditions_1 :
  identify_conditions "Show repositories with more than 1000 stars"
  = Return ["stars >= 1000"].
Proof. reflexivity. Qed.
Example compile_1 :
  compile "Show repositories with more than 1000 stars" None
  = Return "SELECT stars FROM repositories WHERE stars >= 1000;".
Proof. vm_compute. reflexivity. Qed.
Example compile_2 :
  compile "how many commits" (Some 42%Z)
  = Return "SELECT COUNT(*) AS total_commits FROM commits WHERE repo_id = 42 ;".
Proof. vm_compute. reflexivity. Qed.
Example compile_3 :
  compile "count files" None = Return "SELECT COUNT(*) COUNT(*) FROM files;".
Proof. vm_compute. reflexivity. Qed.
Example compile_4 :
  compile "show count of files" None = Return "SELECT COUNT(*) FROM files;".
Proof. vm_compute. reflexivity. Qed.
Example compile_5 :
  compile "author-introduced-bug" None = Return EmptyInput.
Proof. vm_compute. reflexivity. Qed.
Example compile_6 :
  compile "top 5 contributors" None
  = Return "SELECT authors.name, COUNT(commits.commit_id) as commit_count FROM authors JOIN commits ON authors.author_id = commits.author_id GROUP BY authors.author_id, authors.name ORDER BY commit_count DESC LIMIT 5;".
Proof. vm_compute. reflexivity. Qed.
Example compile_7 :
  compile "which author introduced the most bugs?" (Some 7%Z)
  = Return (render BugIntroducer "" (Some 7%Z)).
Proof. vm_compute. reflexivity. Qed.
Example compile_8 :
  compile "list repos per owner" None
  = Return "SELECT repo_id, name, stars, forks FROM repositories;".
Proof. vm_compute. reflexivity. Qed.

(** The patterns of the parser, on texts where [re.search] gives back, picks
    the later alternative or the leftmost match. *)
Example search_days :
  Parser.Rx.search (Parser.ago "day") "5 x 10 days ago"
  = Some {| Parser.Rx.whole := "10 days ago"; Parser.Rx.groups := ["10"] |}.
Proof. vm_compute. reflexivity. Qed.
Example search_equal :
  option_map Parser.Rx.groups
    (Parser.Rx.search
       [ Parser.Rx.Capture (Parser.Rx.OneOf ["equal"; "equals"; "exactly"]);
         Parser.Rx.Plain (Parser.Rx.Text " ");
         Parser.Rx.Capture Parser.Rx.Number ] "equals 5")
  = Some ["equals"; "5"].
Proof. vm_compute. reflexivity. Qed.
Example search_greater :
  option_map Parser.Rx.groups
    (match lookup "greater" Parser.comparison_patterns with
     | Some p => Parser.Rx.search p "moreover than 7 and more than 8"
     | None => None
     end)
  = Some ["over"; "7"].
Proof. vm_compute. reflexivity. Qed.
Example search_state :
  option_map Parser.Rx.groups
    (Parser.Rx.search Parser.state_pattern "reopened closed")
  = Some ["open"].
Proof. vm_compute. reflexivity. Qed.
Example detect_filters_1 :
  Parser.detect_filters Parser.unread_clock Parser.decimal_int
    {| Parser.doc_text := "PRs with between 3 and 40 comments, merged" |}
  = Return [ {| Parser.column := "count"; Parser.operator := "BETWEEN";
                Parser.value := Parser.VPair 3 40 |};
             {| Parser.column := "state"; Parser.operator := "=";
                Parser.value := Parser.VStr "merged" |} ].
Proof. vm_compute. reflexivity. Qed.
Example detect_filters_2 :
  Parser.detect_filters Parser.unread_clock Parser.decimal_int
    {| Parser.doc_text := "Commits of last year" |}
  = Raise "IndexError: no such group".
Proof. vm_compute. reflexivity. Qed.


(** ** Strings *)

Section StringFacts.

Lemma prefix_app (p b : string) : String.prefix p (p ++ b) = true.
Proof.
  induction p as [|c p IH]; simpl.
  - now destruct b.
  - destruct (ascii_dec c c) as [_|n]; [exact IH | now elim n].
Qed.

Lemma prefix_split (p s : string) :
  String.prefix p s = true -> exists b, s = p ++ b.
Proof.
  revert s; induction p as [|c p IH]; intros s H.
  - now exists s.
  - destruct s as [|x s]; simpl in H; [discriminate|].
    destruct (ascii_dec c x) as [->|]; [|discriminate].
    destruct (IH _ H) as [b ->]. now exists b.
Qed.

Lemma str_in_here (p s : string) : String.prefix p s = true -> str_in p s = true.
Proof. intros H. destruct s; cbn [str_in]; rewrite H; reflexivity. Qed.

Lemma str_in_cons (p : string) (c : ascii) (s : string) :
  str_in p s = true -> str_in p (String c s) = true.
Proof. intros H. cbn [str_in]. rewrite H. apply orb_true_r. Qed.

Lemma str_in_app_r (p a b : string) :
  str_in p b = true -> str_in p (a ++ b) = true.
Proof.
  intros H. induction a as [|c a IH]; [exact H|].
  simpl String.append. now apply str_in_cons.
Qed.

Lemma str_in_intro (a p b : string) : str_in p (a ++ p ++ b) = true.
Proof. apply str_in_app_r, str_in_here, prefix_app. Qed.

Lemma str_in_elim (p s : string) :
  str_in p s = true -> exists a b, s = a ++ p ++ b.
Proof.
  induction s as [|c s IH]; cbn [str_in]; intros H.
  - rewrite orb_false_r in H. destruct (prefix_split _ _ H) as [b ->].
    now exists "", b.
  - apply orb_true_iff in H as [H|H].
    + destruct (prefix_split _ _ H) as [b ->]. now exists "", b.
    + destruct (IH H) as (a & b & ->). now exists (String c a), b.
Qed.

Lemma str_in_drop (p : string) (n : nat) (s : string) :
  str_in p (drop n s) = true -> str_in p s = true.
Proof.
  revert s; induction n as [|n IH]; intros s H; [exact H|].
  destruct s as [|c s]; [exact H|]. apply str_in_cons, IH, H.
Qed.

Lemma has_char_app (c : ascii) (a b : string) :
  has_char c (a ++ b) = has_char c a || has_char c b.
Proof.
  induction a as [|x a IH]; simpl; [reflexivity|].
  now rewrite IH, orb_assoc.
Qed.

Lemma prefix_has_char (c : ascii) (p s : string) :
  String.prefix (String c p) s = true -> has_char c s = true.
Proof.
  destruct s as [|x s]; simpl; [discriminate|].
  destruct (ascii_dec c x) as [->|]; [|discriminate].
  intros _. now rewrite Ascii.eqb_refl.
Qed.

(** A string that lacks the first character of [p] does not contain [p]. *)
Lemma str_in_has_char (c : ascii) (p s : string) :
  str_in (String c p) s = true -> has_char c s = true.
Proof.
  induction s as [|x s IH]; cbn [str_in]; intros H.
  - rewrite orb_false_r in H. discriminate.
  - apply orb_true_iff in H as [H|H].
    + now apply prefix_has_char in H.
    + simpl. rewrite (IH H). apply orb_true_r.
Qed.

Lemma no_char_not_in (c : ascii) (p s : string) :
  has_char c s = false -> str_in (String c p) s = false.
Proof.
  intros H. destruct (str_in (String c p) s) eqn:E; [|reflexivity].
  apply str_in_has_char in E. congruence.
Qed.

Lemma digits_lack (c : ascii) (g : string) :
  is_digit c = false -> forallb_str is_digit g = true -> has_char c g = false.
Proof.
  intros Hc. induction g as [|x g IH]; simpl; [reflexivity|].
  intros H. apply andb_true_iff in H as [Hx Hg].
  rewrite (IH Hg), orb_false_r.
  destruct (Ascii.eqb_spec x c) as [->|]; congruence.
Qed.

Lemma ends_with_app (c : ascii) (a : string) :
  ends_with c (a ++ String c "") = true.
Proof.
  induction a as [|x a IH]; simpl.
  - apply Ascii.eqb_refl.
  - destruct (a ++ String c "") eqn:E; [|exact IH].
    destruct a; discriminate.
Qed.

Lemma ends_with_app_r (c : ascii) (a b : string) :
  ends_with c b = true -> ends_with c (a ++ b) = true.
Proof.
  intros H. induction a as [|x a IH]; simpl; [exact H|].
  destruct (a ++ b) eqn:E; [|exact IH].
  destruct a, b; simpl in *; discriminate.
Qed.

Lemma append_assoc (a b c : string) : (a ++ b) ++ c = a ++ b ++ c.
Proof. induction a; simpl; congruence. Qed.

Lemma lower_whitespace (s : string) :
  whitespace_only s = true -> lower s = s.
Proof.
  unfold whitespace_only.
  induction s as [|c s IH]; simpl; [reflexivity|].
  intros H. apply andb_true_iff in H as [Hc Hs]. rewrite (IH Hs). f_equal.
  destruct c as [[] [] [] [] [] [] [] []]; vm_compute in Hc; try discriminate;
    reflexivity.
Qed.

End StringFacts.

(** ** Regular expressions *)

Section RegexFacts.

Lemma try_lengths_some cont s min n g :
  try_lengths cont s min n = Some g ->
  exists k, k <= n /\ min <= k /\ cont (take k s) (drop k s) = Some g.
Proof.
  induction n as [|n IH]; cbn [try_lengths].
  - destruct (Nat.ltb_spec 0 min); [discriminate|].
    destruct (cont (take 0 s) (drop 0 s)) eqn:E; [|discriminate].
    intros [= <-]. exists 0. repeat split; try lia; exact E.
  - destruct (Nat.ltb_spec (S n) min); [discriminate|].
    destruct (cont (take (S n) s) (drop (S n) s)) eqn:E.
    + intros [= <-]. exists (S n). repeat split; try lia; exact E.
    + intros H'. destruct (IH H') as (k & ? & ? & ?). exists k. auto.
Qed.

Lemma take_run f s k :
  k <= run_length f s -> forallb_str f (take k s) = true.
Proof.
  revert s; induction k as [|k IH]; intros s H; [reflexivity|].
  destruct s as [|c s]; simpl in *; [reflexivity|].
  destruct (f c); [|lia]. simpl. apply IH. lia.
Qed.

(** The group of a match is a run of decimal digits. *)
Lemma match_here_digits p :
  forall prev s g g',
    match_here p prev s g = Some g' ->
    forallb_str is_digit g = true -> forallb_str is_digit g' = true.
Proof.
  induction p as [|a p IH]; intros prev s g g' H Hg; cbn [match_here] in H.
  - now injection H as <-.
  - destruct a.
    + destruct (String.prefix s0 s); [eauto | discriminate].
    + apply try_lengths_some in H as (k & _ & _ & H). eauto.
    + apply try_lengths_some in H as (k & _ & _ & H). eauto.
    + apply try_lengths_some in H as (k & Hk & _ & H).
      eapply IH; [exact H|]. now apply take_run.
    + destruct (at_boundary prev s); [eauto | discriminate].
Qed.

Lemma search_from_digits p s :
  forall prev g, search_from p prev s = Some g -> forallb_str is_digit g = true.
Proof.
  induction s as [|c s IH]; intros prev g; cbn [search_from].
  - destruct (match_here p prev "" "") eqn:E; [|discriminate].
    intros [= <-]. now apply match_here_digits in E.
  - destruct (match_here p prev (String c s) "") eqn:E.
    + intros [= <-]. now apply match_here_digits in E.
    + apply IH.
Qed.

Lemma re_search_digits p s g :
  re_search p s = Some g -> forallb_str is_digit g = true.
Proof. apply search_from_digits. Qed.

(** A match of [(\d+)\s*kw] needs [kw] in the text. *)
Lemma search_from_keyword kw s :
  forall prev g,
    search_from [Digits1; Spaces0; Lit kw] prev s = Some g -> str_in kw s = true.
Proof.
  assert (Hm : forall prev s g,
             match_here [Digits1; Spaces0; Lit kw] prev s "" = Some g ->
             str_in kw s = true).
  { intros prev s' g H. cbn [match_here] in H.
    apply try_lengths_some in H as (k & _ & _ & H).
    apply try_lengths_some in H as (k' & _ & _ & H).
    destruct (String.prefix kw (drop k' (drop k s'))) eqn:E; [|discriminate].
    eapply str_in_drop, str_in_drop, str_in_here, E. }
  induction s as [|c s IH]; intros prev g; cbn [search_from].
  - destruct (match_here _ prev "" "") eqn:E; [|discriminate].
    intros _. eapply Hm, E.
  - destruct (match_here _ prev (String c s) "") eqn:E.
    + intros _. eapply Hm, E.
    + intros H. eapply str_in_cons, IH, H.
Qed.

Lemma limit_of_digits p default s :
  forallb_str is_digit default = true ->
  forallb_str is_digit (limit_of p default s) = true.
Proof.
  intros Hd. unfold limit_of.
  destruct (re_search p s) eqn:E; [|exact Hd].
  eapply re_search_digits, E.
Qed.

End RegexFacts.

(** ** The select list of a statement *)

Example select_list_columns :
  Sql.select_list "SELECT repo_id, name, stars, forks FROM repositories;"
  = Some "repo_id, name, stars, forks"
  /\ Sql.well_formed_select_list
       "SELECT repo_id, name, stars, forks FROM repositories;" = true.
Proof. split; reflexivity. Qed.

Example select_list_alias :
  Sql.well_formed_select_list "SELECT COUNT(*) total, a + b AS c FROM t;" = true
  /\ Sql.well_formed_select_list "SELECT COUNT(*) FROM files;" = true
  /\ Sql.well_formed_select_list "SELECT f(x, y) FROM t WHERE a = 1;" = true.
Proof. repeat split. Qed.

Example select_list_ill_formed :
  Sql.well_formed_select_list "SELECT a b c FROM t;" = false
  /\ Sql.well_formed_select_list "SELECT a, FROM t;" = false
  /\ Sql.well_formed_select_list "SELECT a + FROM t;" = false
  /\ Sql.well_formed_select_list "SELECT FROM t;" = false.
Proof. repeat split. Qed.

(** Every special-case template has a select list that follows the syntax. *)
Lemma render_select_list t tl repo_id :
  Sql.well_formed_select_list (render t tl repo_id) = true.
Proof. destruct t, repo_id; reflexivity. Qed.

(** ** The structure of [build_sql_query] *)

Section Structure.

Variable word_tokenize : string -> outcome (list string).
Variable stop_words : list string.

Local Abbreviation preprocess := (preprocess_text word_tokenize stop_words).
Local Abbreviation build := (build_sql_query word_tokenize stop_words).

Lemma preprocess_text_returns text :
  exists tokens, preprocess text = Return tokens.
Proof.
  unfold preprocess_text.
  destruct (word_tokenize (lower text)); cbn; eauto.
Qed.

Lemma preprocess_text_fault text e :
  word_tokenize (lower text) = Raise e -> preprocess text = Return [].
Proof. unfold preprocess_text. now intros ->. Qed.

Lemma identify_action_returns tokens :
  exists a, identify_action tokens = Return a.
Proof.
  unfold identify_action.
  destruct (first_keyword tokens); [|destruct (existsb _ tokens)]; cbn; eauto.
Qed.

Lemma identify_table_returns words :
  identify_table words = Return (first_table words entity_mapping).
Proof. reflexivity. Qed.

Lemma identify_columns_returns words tbl :
  exists cols, identify_columns words tbl = Return cols.
Proof.
  unfold identify_columns.
  destruct (existsb _ words); [cbn; eauto|].
  destruct (table_info_of tbl entity_mapping); [|cbn; eauto].
  destruct (filter _ _); [|cbn; eauto].
  destruct tbl as [t|]; [|cbn; eauto].
  repeat (destruct t as [|[[] [] [] [] [] [] [] []] t]; try (cbn; eauto; fail)).
Qed.


Ltac first_template H :=
  match type of H with
  | (if ?c then _ else _) = _ =>
      let E := fresh "E" in
      destruct c eqn:E; cbv iota in H |- *
  end.

Ltac with_group R :=
  match goal with
  | |- context [re_search ?p ?s] =>
      destruct (re_search p s) eqn:R;
      cbn [is_match group1 bind try_except andb orb] in *;
      try discriminate;
      unfold render, limit_of; rewrite ?R
  end.

Ltac same_text :=
  first [ reflexivity
        | cbn [render where_clause]; rewrite ?append_assoc; reflexivity ].

(** [build_sql_query] is the first matching template, or else the generic
    path, once normalization has kept a token. *)
Lemma build_sql_query_cases text repo_id tok toks :
  preprocess text = Return (tok :: toks) ->
  build text repo_id =
    match first_match (lower text) with
    | Some t => Return (render t (lower text) repo_id)
    | None => try_except (generic_path (tok :: toks) text)
                         (fun _ => Return InternalFault)
    end.
Proof.
  intros Hpre. unfold build_sql_query. rewrite Hpre. cbn [bind]. cbv zeta.
  destruct (first_match (lower text)) as [t|] eqn:H;
    unfold first_match, special_cases in H; cbn [find trigger] in H;
    unfold any_in in H.
  - repeat (first_template H;
            [injection H as <-; cbn [try_except] | ]).
    all: try discriminate.
    all: try (destruct repo_id; same_text).
    all: with_group R; destruct repo_id; same_text.
  - repeat (first_template H; [discriminate | ]).
    reflexivity.
Qed.

Lemma build_sql_query_no_tokens text repo_id :
  preprocess text = Return [] -> build text repo_id = Return EmptyInput.
Proof. intros H. unfold build_sql_query. now rewrite H. Qed.

(** *** What the matchers can return *)

Lemma lookup_keywords token action :
  lookup token keywords = Some action ->
  action = "SELECT" \/ action = "SELECT COUNT(*)".
Proof.
  unfold keywords. cbn [lookup].
  repeat match goal with
         | |- (if ?c then _ else _) = _ -> _ => destruct c
         end;
    intros [= <-]; auto.
Qed.

Lemma first_keyword_action tokens action :
  first_keyword tokens = Some action ->
  action = "SELECT" \/ action = "SELECT COUNT(*)".
Proof.
  induction tokens as [|t ts IH]; cbn [first_keyword]; [discriminate|].
  destruct (lookup t keywords) eqn:E; [|exact IH].
  intros [= <-]. eapply lookup_keywords, E.
Qed.

Lemma identify_action_range tokens :
  identify_action tokens = Return "SELECT"
  \/ identify_action tokens = Return "SELECT COUNT(*)".
Proof.
  unfold identify_action.
  destruct (first_keyword tokens) as [a|] eqn:E.
  - destruct (first_keyword_action _ _ E) as [-> | ->]; auto.
  - destruct (existsb _ tokens); auto.
Qed.

Lemma first_table_range words t :
  first_table words entity_mapping = Some t -> In t tables.
Proof.
  unfold entity_mapping. cbn [first_table].
  repeat match goal with
         | |- (if ?c then _ else _) = _ -> _ => destruct c
         end;
    intros [= <-]; cbn; auto 10.
Qed.

Lemma identify_columns_range words t :
  In t tables ->
  exists cols, identify_columns words (Some t) = Return cols
               /\ Forall (fun c => has_char "G" c = false) cols.
Proof.
  intros Ht. unfold identify_columns.
  destruct (existsb _ words).
  { eexists; split; [reflexivity|]. repeat constructor. }
  assert (Hf : forall l : list string,
             Forall (fun c => has_char "G" c = false) l ->
             Forall (fun c => has_char "G" c = false)
                    (filter (fun col => mem (last (split_on "_" col) "") words) l)).
  { intros l Hl. rewrite Forall_forall in *. intros c Hc.
    apply filter_In in Hc as [Hc _]. auto. }
  cbn in Ht.
  destruct Ht as [<-|[<-|[<-|[<-|[<-|[]]]]]];
    cbn [table_info_of entity_mapping table String.eqb Ascii.eqb Bool.eqb columns].
  all: match goal with
       | |- context [filter ?f ?l] =>
           specialize (Hf l); destruct (filter f l) eqn:Efl
       end.
  all: eexists; split; [reflexivity|].
  all: try (apply Hf); repeat constructor.
Qed.

Lemma identify_conditions_eq text :
  identify_conditions text =
  Return (metric_filter "stars" re_stars (lower text)
          ++ metric_filter "forks" re_forks (lower text)
          ++ time_filter (lower text))%list.
Proof.
  unfold identify_conditions, metric_filter, time_filter, direction.
  cbv zeta. set (tl := lower text).
  assert (Hs : forall g, re_search re_stars tl = Some g -> str_in "stars" tl = true)
    by (intros g; apply search_from_keyword).
  assert (Hf : forall g, re_search re_forks tl = Some g -> str_in "forks" tl = true)
    by (intros g; apply search_from_keyword).
  destruct (re_search re_stars tl) as [sn|];
    [rewrite (Hs _ eq_refl) | destruct (str_in "stars" tl)];
    (destruct (re_search re_forks tl) as [fn|];
     [rewrite (Hf _ eq_refl) | destruct (str_in "forks" tl)]);
    cbn [is_match group1 bind];
    destruct (str_in "more than" tl || str_in "greater than" tl);
    destruct (str_in "less than" tl);
    destruct (str_in "this month" tl); destruct (str_in "last month" tl);
    reflexivity.
Qed.

Lemma identify_conditions_lack_G text :
  exists conds, identify_conditions text = Return conds
                /\ Forall (fun c => has_char "G" c = false) conds.
Proof.
  rewrite identify_conditions_eq. eexists; split; [reflexivity|].
  assert (Hm : forall m p, has_char "G" m = false ->
                           Forall (fun c => has_char "G" c = false)
                                  (metric_filter m p (lower text))).
  { intros m p Hm. unfold metric_filter.
    destruct (re_search p (lower text)) as [num|] eqn:E; constructor; [|constructor].
    apply re_search_digits in E.
    assert (Hd : has_char "G" (direction (lower text)) = false).
    { unfold direction. destruct (_ || _); [reflexivity|].
      destruct (str_in "less than" _); reflexivity. }
    now rewrite !has_char_app, Hm, Hd, (digits_lack "G" num eq_refl E). }
  rewrite !Forall_app. repeat split; try (apply Hm; reflexivity).
  unfold time_filter.
  destruct (str_in "this month" _); [|destruct (str_in "last month" _)];
    repeat constructor.
Qed.

(** *** The assembled statement *)

Lemma append_empty (s : string) : s ++ "" = s.
Proof. induction s; simpl; congruence. Qed.

Lemma extends_refl b : extends b b.
Proof. exists "". now rewrite append_empty. Qed.

Lemma extends_app b q x : extends b q -> extends b (q ++ x).
Proof. intros [r ->]. exists (r ++ x). apply append_assoc. Qed.

Lemma assemble_extends action tbl cols conds tl :
  extends (action ++ " " ++ join ", " cols ++ " FROM " ++ tbl)
          (assemble action tbl cols conds tl).
Proof.
  unfold assemble. cbv zeta.
  repeat first
    [ apply extends_refl
    | apply extends_app
    | match goal with
      | |- context [if ?c then _ else _] => destruct c
      end ].
Qed.

Lemma assemble_ends action tbl cols conds tl :
  ends_with ";" (assemble action tbl cols conds tl) = true.
Proof. unfold assemble. cbv zeta. apply ends_with_app. Qed.

Lemma has_char_join c sep parts :
  has_char c sep = false ->
  Forall (fun p => has_char c p = false) parts ->
  has_char c (join sep parts) = false.
Proof.
  intros Hsep. induction 1 as [|p ps Hp Hps IH]; [reflexivity|].
  cbn [join]. destruct ps as [|q ps]; [exact Hp|].
  now rewrite !has_char_app, Hp, Hsep, IH.
Qed.

Lemma assemble_lacks_G action tbl cols conds tl :
  action = "SELECT" \/ action = "SELECT COUNT(*)" ->
  In tbl tables ->
  Forall (fun c => has_char "G" c = false) cols ->
  Forall (fun c => has_char "G" c = false) conds ->
  has_char "G" (assemble action tbl cols conds tl) = false.
Proof.
  intros Ha Ht Hcols Hconds.
  pose proof (has_char_join "G" ", " cols eq_refl Hcols) as Hj1.
  pose proof (has_char_join "G" " AND " conds eq_refl Hconds) as Hj2.
  unfold assemble. cbv zeta.
  cbn in Ht.
  destruct Ha as [-> | ->];
    destruct Ht as [<-|[<-|[<-|[<-|[<-|[]]]]]];
    cbn [String.eqb Ascii.eqb Bool.eqb andb];
    rewrite ?andb_false_r, ?andb_true_r;
    repeat match goal with
           | |- context [if ?c then _ else _] => destruct c
           end;
    rewrite ?has_char_app, ?Hj1, ?Hj2; reflexivity.
Qed.

Lemma generic_path_cases tokens text :
  (first_table tokens entity_mapping = None
   /\ generic_path tokens text = Return NoEntity)
  \/ exists a t cols conds,
      identify_action tokens = Return a
      /\ (a = "SELECT" \/ a = "SELECT COUNT(*)")
      /\ first_table tokens entity_mapping = Some t /\ In t tables
      /\ identify_columns tokens (Some t) = Return cols
      /\ Forall (fun c => has_char "G" c = false) cols
      /\ identify_conditions text = Return conds
      /\ Forall (fun c => has_char "G" c = false) conds
      /\ generic_path tokens text = Return (assemble a t cols conds (lower text)).
Proof.
  unfold generic_path. rewrite identify_table_returns.
  destruct (first_table tokens entity_mapping) as [t|] eqn:Et.
  - right. pose proof (first_table_range _ _ Et) as Ht.
    destruct (identify_columns_range tokens t Ht) as (cols & Hc & Hcols).
    destruct (identify_conditions_lack_G text) as (conds & Hk & Hconds).
    assert (Ha : exists a, identify_action tokens = Return a
                           /\ (a = "SELECT" \/ a = "SELECT COUNT(*)")).
    { destruct (identify_action_range tokens) as [H|H]; rewrite H; eauto. }
    destruct Ha as (a & Ha & Hr).
    exists a, t, cols, conds. rewrite Ha, Hk. cbn [bind].
    repeat split; auto.
    cbn in Ht. destruct Ht as [<-|[<-|[<-|[<-|[<-|[]]]]]];
      cbv iota; rewrite Hc; reflexivity.
  - left. split; [reflexivity|].
    destruct (identify_action_range tokens) as [H|H]; rewrite H; reflexivity.
Qed.

Lemma generic_path_returns tokens text :
  try_except (generic_path tokens text) (fun _ => Return InternalFault)
  = generic_path tokens text.
Proof.
  destruct (generic_path_cases tokens text) as [[_ H]|(a & t & c & k & H)].
  - now rewrite H.
  - destruct H as (_ & _ & _ & _ & _ & _ & _ & _ & H). now rewrite H.
Qed.

Lemma render_is_statement t tl repo_id :
  is_statement (render t tl repo_id) = true.
Proof.
  unfold is_statement. apply andb_true_intro. split.
  - destruct t, repo_id; reflexivity.
  - destruct t, repo_id; cbn [render where_clause];
      repeat first [ reflexivity | apply ends_with_app_r ].
Qed.

Lemma assemble_is_statement a t cols conds tl :
  a = "SELECT" \/ a = "SELECT COUNT(*)" ->
  is_statement (assemble a t cols conds tl) = true.
Proof.
  intros Ha. unfold is_statement. rewrite assemble_ends, andb_true_r.
  destruct (assemble_extends a t cols conds tl) as [r ->].
  destruct Ha as [-> | ->]; reflexivity.
Qed.

Lemma find_first {A} (f : A -> bool) (l : list A) (x : A) :
  find f l = Some x ->
  exists before after,
    l = (before ++ x :: after)%list /\ f x = true
    /\ Forall (fun y => f y = false) before.
Proof.
  induction l as [|a l IH]; cbn [find]; [discriminate|].
  destruct (f a) eqn:E.
  - intros [= <-]. now exists [], l.
  - intros H. destruct (IH H) as (b & c & -> & Hx & Hb).
    exists (a :: b), c. repeat split; auto.
Qed.

(** What [build_sql_query] returns once a token has been kept. *)
Lemma build_sql_query_kept text repo_id tok toks :
  preprocess text = Return (tok :: toks) ->
  exists s, build text repo_id = Return s
            /\ (is_statement s = true \/ s = NoEntity).
Proof.
  intros Hpre. rewrite (build_sql_query_cases _ _ _ _ Hpre).
  destruct (first_match (lower text)) as [t|].
  - eexists; split; [reflexivity|]. left. apply render_is_statement.
  - rewrite generic_path_returns.
    destruct (generic_path_cases (tok :: toks) text)
      as [[_ H]|(a & t & c & k & _ & Ha & _ & _ & _ & _ & _ & _ & H)];
      rewrite H; eexists; (split; [reflexivity|]); auto.
    left. now apply assemble_is_statement.
Qed.

(** ** The specified properties *)

(** C1 (as amended).  For every input of which normalization keeps at least
    one token and whose lowercased text satisfies some special-case
    predicate, [build_sql_query] returns the SQL rendered by the first such
    template in declared order: every template before it has a false
    predicate, and the result is a function of the lowercased text and the
    repository identifier alone, so neither a later template nor any
    generic matcher contributes to it. *)
Theorem template_precedence text repo_id tokens t :
  preprocess_text word_tokenize stop_words text = Return tokens ->
  tokens <> [] ->
  first_match (lower text) = Some t ->
  build_sql_query word_tokenize stop_words text repo_id
  = Return (render t (lower text) repo_id)
  /\ exists before after,
      special_cases = (before ++ t :: after)%list
      /\ trigger t (lower text) = true
      /\ Forall (fun u => trigger u (lower text) = false) before.
Proof.
  intros Hpre Hne Hm. split.
  - destruct tokens as [|tok toks]; [congruence|].
    now rewrite (build_sql_query_cases _ _ _ _ Hpre), Hm.
  - now apply find_first in Hm.
Qed.

(** C2 (as amended).  [build_sql_query] returns the EmptyInput error exactly
    when normalization yields no usable token, whether or not a special-case
    predicate holds of the lowercased text.  With a tokenizer that finds no
    token in a text of whitespace, the empty and the whitespace-only inputs
    yield EmptyInput, as a returned value. *)
Theorem empty_input_iff text repo_id :
  (forall s toks,
      whitespace_only s = true -> word_tokenize s = Return toks -> toks = []) ->
  (build_sql_query word_tokenize stop_words text repo_id = Return EmptyInput
   <-> preprocess_text word_tokenize stop_words text = Return [])
  /\ (whitespace_only text = true ->
      build_sql_query word_tokenize stop_words text repo_id = Return EmptyInput).
Proof.
  intros Hws. split; [split|].
  - intros Hb. destruct (preprocess_text_returns text) as [[|tok toks] Hpre];
      [exact Hpre|].
    destruct (build_sql_query_kept text repo_id _ _ Hpre) as (s & Hs & Hk).
    rewrite Hs in Hb. injection Hb as ->. destruct Hk; discriminate.
  - apply build_sql_query_no_tokens.
  - intros Hw. apply build_sql_query_no_tokens.
    unfold preprocess_text. rewrite (lower_whitespace _ Hw).
    destruct (word_tokenize text) as [toks|e] eqn:E; [|reflexivity].
    now rewrite (Hws _ _ Hw E).
Qed.

(** C9.  For every input text and every optional repository identifier,
    [build_sql_query] returns a value and raises nothing: the value is a SQL
    statement or one of the three error values, which are no statements.
    The matchers return a value on every input too, and a fault of the
    tokenizer inside [preprocess_text] is caught there and read as no token
    found, the compile then ending with the EmptyInput value. *)
Theorem never_raises text repo_id :
  (exists s, build_sql_query word_tokenize stop_words text repo_id = Return s
             /\ (is_statement s = true \/ In s [EmptyInput; NoEntity; InternalFault]))
  /\ Forall (fun e => is_statement e = false) [EmptyInput; NoEntity; InternalFault]
  /\ (forall e, word_tokenize (lower text) = Raise e ->
                preprocess_text word_tokenize stop_words text = Return []
                /\ build_sql_query word_tokenize stop_words text repo_id
                   = Return EmptyInput)
  /\ (forall tokens tbl,
         (exists toks, preprocess_text word_tokenize stop_words text = Return toks)
         /\ (exists a, identify_action tokens = Return a)
         /\ (exists r, identify_table tokens = Return r)
         /\ (exists cols, identify_columns tokens tbl = Return cols)
         /\ (exists conds, identify_conditions text = Return conds)).
Proof.
  repeat split.
  - destruct (preprocess_text_returns text) as [[|tok toks] Hpre].
    + exists EmptyInput. split; [now apply build_sql_query_no_tokens|].
      right. cbn. auto.
    + destruct (build_sql_query_kept text repo_id _ _ Hpre) as (s & Hs & [Hk | ->]);
        eexists; (split; [exact Hs|]); [now left | right; cbn; auto].
  - repeat constructor.
  - eapply preprocess_text_fault; eassumption.
  - eapply build_sql_query_no_tokens, preprocess_text_fault; eassumption.
  - apply preprocess_text_returns.
  - apply identify_action_returns.
  - eexists. apply identify_table_returns.
  - apply identify_columns_returns.
  - rewrite identify_conditions_eq. eauto.
Qed.

Lemma str_in_self (p : string) : str_in p p = true.
Proof.
  apply str_in_here. rewrite <- (append_empty p) at 2. apply prefix_app.
Qed.

Lemma where_clause_in a col r b :
  str_in ("WHERE " ++ col ++ " = " ++ str_int r ++ " ")
         (a ++ where_clause col (Some r) ++ b) = true.
Proof. apply str_in_intro. Qed.

(** A repo-aware template scopes by the repository it is given, and has no
    WHERE clause without one. *)
Lemma render_scoped t tl :
  repo_scoped t = true ->
  (forall r, existsb (fun c => str_in c (render t tl (Some r))) (scoping_clauses r)
             = true)
  /\ str_in "WHERE" (render t tl None) = false.
Proof.
  intros Hs. split.
  - intros r. cbn [existsb scoping_clauses].
    destruct t; try discriminate Hs; cbn [render].
    all: try (apply orb_true_iff; left;
              apply (where_clause_in _ "commits.repo_id")).
    + apply orb_true_iff; right. apply orb_true_iff; right.
      apply orb_true_iff; left. apply (where_clause_in _ "repo_id").
    + apply orb_true_iff; right. apply orb_true_iff; left.
      change (str_in ("WHERE commits.repo_id = " ++ str_int r ++ ";")
                ("SELECT COUNT(DISTINCT commits.author_id) AS contributors FROM commits "
                 ++ "WHERE commits.repo_id = " ++ str_int r ++ ";") = true).
      apply str_in_app_r, str_in_self.
  - apply no_char_not_in.
    pose proof (limit_of_digits re_top "" tl eq_refl) as Ht.
    pose proof (limit_of_digits re_bottom "3" tl eq_refl) as Hb.
    destruct t; try discriminate Hs; cbn [render where_clause];
      rewrite ?has_char_app, ?(digits_lack "W" _ eq_refl Ht),
        ?(digits_lack "W" _ eq_refl Hb);
      reflexivity.
Qed.

(** C3 (as amended).  For each of the eleven repo-aware templates (bug
    introducer, most changed / added / deleted file, top N files, top
    contributor, bottom N contributors, count commits, count contributors,
    commit with most changes, top bug fixer) and every input that it
    compiles: with a repository identifier the SQL contains a WHERE clause
    on [repo_id] equal to that identifier, and without one it contains no
    WHERE at all. *)
Theorem repo_scoping text repo_id tokens t :
  preprocess_text word_tokenize stop_words text = Return tokens ->
  tokens <> [] ->
  first_match (lower text) = Some t ->
  repo_scoped t = true ->
  exists sql,
    build_sql_query word_tokenize stop_words text repo_id = Return sql
    /\ match repo_id with
       | Some r => existsb (fun c => str_in c sql) (scoping_clauses r) = true
       | None => str_in "WHERE" sql = false
       end.
Proof.
  intros Hpre Hne Hm Hs.
  destruct tokens as [|tok toks]; [congruence|].
  exists (render t (lower text) repo_id). split.
  - now rewrite (build_sql_query_cases _ _ _ _ Hpre), Hm.
  - destruct (render_scoped t (lower text) Hs) as [Hsome Hnone].
    destruct repo_id; auto.
Qed.

Lemma str_in_app_l (p a b : string) :
  str_in p a = true -> str_in p (a ++ b) = true.
Proof.
  intros H. apply str_in_elim in H as (x & y & ->).
  rewrite !append_assoc. apply str_in_intro.
Qed.

(** C4 (as amended).  Compiling "Show repositories with more than 1000
    stars", of which normalization keeps show, repositories, 1000 and stars,
    takes the generic path (no template matches), resolves the table
    repositories, produces the single filter [stars >= 1000], uses the
    action SELECT and selects the one column [stars], the column named in
    the text, not the default repository column list; the statement is
    [SELECT stars FROM repositories WHERE stars >= 1000;]. *)
Theorem scenario_more_than_1000_stars repo_id :
  let text := "Show repositories with more than 1000 stars" in
  let tokens := ["show"; "repositories"; "1000"; "stars"] in
  preprocess_text word_tokenize stop_words text = Return tokens ->
  first_match (lower text) = None
  /\ identify_action tokens = Return "SELECT"
  /\ identify_table tokens = Return (Some "repositories")
  /\ identify_conditions text = Return ["stars >= 1000"]
  /\ identify_columns tokens (Some "repositories") = Return ["stars"]
  /\ build_sql_query word_tokenize stop_words text repo_id
     = Return "SELECT stars FROM repositories WHERE stars >= 1000;".
Proof.
  intros text tokens Hpre.
  assert (Hm : first_match (lower text) = None) by (vm_compute; reflexivity).
  repeat split; try (vm_compute; reflexivity).
  rewrite (build_sql_query_cases _ _ _ _ Hpre), Hm.
  vm_compute. reflexivity.
Qed.

(** C5 (as amended).  [build_sql_query] applied to "how many commits" with
    repo_id=42, normalization keeping some token of it, returns exactly
    [SELECT COUNT( * ) AS total_commits FROM commits WHERE repo_id = 42 ;],
    with the blank that ends the WHERE clause before the semicolon. *)
Theorem scenario_how_many_commits tokens :
  preprocess_text word_tokenize stop_words "how many commits" = Return tokens ->
  tokens <> [] ->
  build_sql_query word_tokenize stop_words "how many commits" (Some 42%Z)
  = Return "SELECT COUNT(*) AS total_commits FROM commits WHERE repo_id = 42 ;".
Proof.
  intros Hpre Hne. destruct tokens as [|tok toks]; [congruence|].
  rewrite (build_sql_query_cases _ _ _ _ Hpre).
  vm_compute. reflexivity.
Qed.

(** C6 (as amended).  For every input in which a number stands before
    "stars" or "forks", the generated conditions hold exactly one filter on
    that metric, with that number and with the operator of the directional
    phrases found anywhere in the text (>= with "more than" or "greater
    than", else <= with "less than", else =): the phrase is not tied to a
    metric, and both metrics get the same operator.  The two metrics are
    detected independently, and all conditions are joined by AND in the
    WHERE clause of the assembled statement. *)
Theorem comparison_filters text metric p num :
  In (metric, p) metrics ->
  re_search p (lower text) = Some num ->
  exists conds,
    identify_conditions text = Return conds
    /\ filters_on metric conds
       = [metric ++ " " ++ direction (lower text) ++ " " ++ num]
    /\ In (direction (lower text)) [">="; "<="; "="]
    /\ forall action tbl cols,
        str_in (" WHERE " ++ join " AND " conds)
               (assemble action tbl cols conds (lower text)) = true.
Proof.
  intros Hin Hre. rewrite identify_conditions_eq.
  eexists; split; [reflexivity|]. repeat split.
  - unfold filters_on. rewrite !filter_app.
    assert (Ht : forall m, In m ["stars"; "forks"] ->
                           filter (fun c => String.prefix (m ++ " ") c)
                                  (time_filter (lower text)) = []).
    { intros m [<-|[<-|[]]]; unfold time_filter;
        destruct (str_in "this month" _); try reflexivity;
        destruct (str_in "last month" _); reflexivity. }
    assert (Hd : forall m m' q, In (m, m') [("stars", "forks"); ("forks", "stars")] ->
                   filter (fun c => String.prefix (m ++ " ") c)
                          (metric_filter m' q (lower text)) = []).
    { intros m m' q Hm. unfold metric_filter.
      destruct (re_search q (lower text)); [|reflexivity].
      destruct Hm as [[= <- <-]|[[= <- <-]|[]]]; reflexivity. }
    assert (Hk : forall m, filter (fun c => String.prefix (m ++ " ") c)
                                 [m ++ " " ++ direction (lower text) ++ " " ++ num]
                           = [m ++ " " ++ direction (lower text) ++ " " ++ num]).
    { intros m. cbn [filter].
      replace (m ++ " " ++ direction (lower text) ++ " " ++ num)
        with ((m ++ " ") ++ direction (lower text) ++ " " ++ num)
        by apply append_assoc.
      now rewrite prefix_app. }
    destruct Hin as [[= <- <-]|[[= <- <-]|[]]]; unfold metric_filter at 1 2.
    + rewrite Hre, Hk, Ht by (cbn; auto).
      fold (metric_filter "forks" re_forks (lower text)).
      rewrite (Hd "stars" "forks") by (cbn; auto). reflexivity.
    + fold (metric_filter "stars" re_stars (lower text)).
      rewrite Hre, Hk, Ht by (cbn; auto).
      rewrite (Hd "forks" "stars") by (cbn; auto). reflexivity.
  - unfold direction. destruct (_ || _); [cbn; auto|].
    destruct (str_in "less than" _); cbn; auto.
  - intros action tbl cols.
    set (conds := (_ ++ _)%list).
    assert (Hne : conds <> []).
    { subst conds. destruct Hin as [[= <- <-]|[[= <- <-]|[]]].
      - unfold metric_filter at 1. rewrite Hre. discriminate.
      - unfold metric_filter at 2. rewrite Hre.
        destruct (metric_filter "stars" _ _); discriminate. }
    unfold assemble. cbv zeta.
    destruct conds as [|c cs]; [congruence|]. cbv match.
    repeat first
      [ apply str_in_app_r, str_in_self
      | apply str_in_app_l
      | match goal with
        | |- context [if ?b then _ else _] => destruct b
        end ].
Qed.

(** [first_table] returns the table of the first item that matches. *)
Lemma first_table_first words items :
  forall k e,
    nth_error items k = Some e ->
    entity_matches words (snd e) = true ->
    (forall m em, m < k -> nth_error items m = Some em ->
                  entity_matches words (snd em) = false) ->
    first_table words items = Some (table (snd e)).
Proof.
  induction items as [|[n info] items IH]; intros k e Hk He Hlt.
  - destruct k; discriminate.
  - cbn [first_table]. destruct k as [|k].
    + injection Hk as <-. cbn in He. now rewrite He.
    + assert (H0 : entity_matches words info = false)
        by (apply (Hlt 0 (n, info)); [lia | reflexivity]).
      rewrite H0. apply (IH k e Hk He). intros m em Hm Hem.
      apply (Hlt (S m) em); [lia | exact Hem].
Qed.

(** Among the items up to a matching one, there is a first that matches. *)
Lemma first_matching_entity words (items : list (string * entity_info)) :
  forall i e,
    nth_error items i = Some e ->
    entity_matches words (snd e) = true ->
    exists k ek,
      k <= i /\ nth_error items k = Some ek
      /\ entity_matches words (snd ek) = true
      /\ forall m em, m < k -> nth_error items m = Some em ->
                      entity_matches words (snd em) = false.
Proof.
  induction items as [|a items IH]; intros i e Hi He.
  - destruct i; discriminate.
  - destruct (entity_matches words (snd a)) eqn:Ea.
    + exists 0, a. repeat split; [lia | assumption |]. intros m em Hm. lia.
    + destruct i as [|i]; [injection Hi as <-; congruence|].
      destruct (IH i e Hi He) as (k & ek & Hk & Hek & Hmk & Hlt).
      exists (S k), ek. repeat split; [lia | assumption | assumption |].
      intros [|m] em Hm Hem; [injection Hem as <-; exact Ea|].
      apply (Hlt m em); [lia | exact Hem].
Qed.

(** Two entities of the catalog have two tables. *)
Lemma tables_distinct k j ek ej :
  k < j ->
  nth_error entity_mapping k = Some ek ->
  nth_error entity_mapping j = Some ej ->
  table (snd ek) <> table (snd ej).
Proof.
  intros Hkj Hk Hj.
  destruct k as [|[|[|[|[|k]]]]]; cbn in Hk; try (destruct k; discriminate);
    destruct j as [|[|[|[|[|j]]]]]; cbn in Hj; try (destruct j; discriminate);
    try lia;
    injection Hk as <-; injection Hj as <-; discriminate.
Qed.

(** C7.  Entity resolution is order-stable: for every token list that
    matches the synonyms of two entities of the catalog, [identify_table]
    returns the table of the first entity in declared order that matches,
    which stands no later than the earlier of the two, and never the table
    of the later one.  The tokens "changes" alone, a synonym of both commit
    and diff, resolve to commits. *)
Theorem entity_order_stable words i j ei ej :
  i < j ->
  nth_error entity_mapping i = Some ei ->
  nth_error entity_mapping j = Some ej ->
  entity_matches words (snd ei) = true ->
  entity_matches words (snd ej) = true ->
  (exists k ek,
      k <= i /\ nth_error entity_mapping k = Some ek
      /\ entity_matches words (snd ek) = true
      /\ (forall m em, m < k -> nth_error entity_mapping m = Some em ->
                       entity_matches words (snd em) = false)
      /\ identify_table words = Return (Some (table (snd ek))))
  /\ identify_table words <> Return (Some (table (snd ej)))
  /\ identify_table ["changes"] = Return (Some "commits").
Proof.
  intros Hij Hi Hj Hmi Hmj.
  destruct (first_matching_entity words entity_mapping i ei Hi Hmi)
    as (k & ek & Hk & Hek & Hmk & Hlt).
  pose proof (first_table_first words entity_mapping k ek Hek Hmk Hlt) as Hft.
  repeat split.
  - exists k, ek. rewrite identify_table_returns, Hft. auto.
  - rewrite identify_table_returns, Hft. intros [= E].
    apply (tables_distinct k j ek ej); [lia | assumption | assumption | exact E].
Qed.

(** C8.  The GROUP BY branch of the generic assembler is unreachable:
    [identify_table] only returns the lowercase table names of the catalog,
    never "Repository" or "Author", and for every input compiled through
    the generic path, no template matching, the returned text contains no
    GROUP BY. *)
Theorem group_by_unreachable text repo_id sql :
  first_match (lower text) = None ->
  build_sql_query word_tokenize stop_words text repo_id = Return sql ->
  str_in "GROUP BY" sql = false
  /\ forall words t,
      identify_table words = Return (Some t) ->
      In t ["repositories"; "authors"; "commits"; "files"; "diffs"]
      /\ t <> "Repository" /\ t <> "Author".
Proof.
  intros Hm Hb. split.
  - apply no_char_not_in.
    destruct (preprocess_text_returns text) as [[|tok toks] Hpre].
    + rewrite (build_sql_query_no_tokens _ _ Hpre) in Hb.
      now injection Hb as <-.
    + rewrite (build_sql_query_cases _ _ _ _ Hpre), Hm, generic_path_returns in Hb.
      destruct (generic_path_cases (tok :: toks) text)
        as [[_ H]|(a & t & c & k & _ & Ha & _ & Ht & _ & Hc & _ & Hk & H)];
        rewrite H in Hb; injection Hb as <-; [reflexivity|].
      now apply assemble_lacks_G.
  - intros words t. rewrite identify_table_returns. intros [= H].
    apply first_table_range in H. split; [exact H|].
    cbn in H. destruct H as [<-|[<-|[<-|[<-|[<-|[]]]]]]; split; discriminate.
Qed.

Lemma first_keyword_count before after :
  Forall (fun w => lookup w keywords = None) before ->
  first_keyword (before ++ "count" :: after) = Some "SELECT COUNT(*)".
Proof.
  induction 1 as [|w ws Hw _ IH]; [reflexivity|].
  cbn [app first_keyword]. now rewrite Hw.
Qed.

(** C10 (as amended).  For every input whose retained tokens include the
    keyword "count" with no other action keyword of the table before it,
    resolve to some table, and match no special-case template, the generic
    path sets the action to [SELECT COUNT( * )] and independently the column
    list to the aggregate alone, and renders both: the returned statement
    begins with the aggregate twice, before FROM and the table, and it is
    not well-formed SQL: its select list is the two aggregates with a blank
    between them, which is no derived column. *)
Theorem count_rendered_twice text repo_id before after t :
  preprocess_text word_tokenize stop_words text
  = Return (before ++ "count" :: after)%list ->
  Forall (fun w => lookup w keywords = None) before ->
  identify_table (before ++ "count" :: after)%list = Return (Some t) ->
  first_match (lower text) = None ->
  identify_action (before ++ "count" :: after)%list = Return "SELECT COUNT(*)"
  /\ identify_columns (before ++ "count" :: after)%list (Some t)
     = Return ["COUNT(*)"]
  /\ exists sql,
      build_sql_query word_tokenize stop_words text repo_id = Return sql
      /\ extends ("SELECT COUNT(*) COUNT(*) FROM " ++ t) sql
      /\ Sql.select_list sql = Some "COUNT(*) COUNT(*)"
      /\ Sql.well_formed_select_list sql = false.
Proof.
  intros Hpre Hb Ht Hm.
  set (tokens := (before ++ "count" :: after)%list) in *.
  assert (Ha : identify_action tokens = Return "SELECT COUNT(*)").
  { unfold identify_action, tokens. now rewrite first_keyword_count. }
  assert (Hc : identify_columns tokens (Some t) = Return ["COUNT(*)"]).
  { unfold identify_columns.
    replace (existsb _ tokens) with true; [reflexivity|].
    symmetry. apply existsb_exists. exists "count". split; [|reflexivity].
    unfold tokens. apply in_or_app. right. now left. }
  assert (Hq : exists conds,
             build text repo_id
             = Return (assemble "SELECT COUNT(*)" t ["COUNT(*)"] conds (lower text))).
  { destruct tokens as [|tok toks] eqn:Etok.
    { destruct before; discriminate. }
    rewrite (build_sql_query_cases _ _ _ _ Hpre), Hm, generic_path_returns.
    unfold generic_path. rewrite Ha, Ht. cbn [bind].
    rewrite identify_table_returns in Ht. injection Ht as Ht.
    pose proof (first_table_range _ _ Ht) as Hin.
    rewrite identify_conditions_eq. eexists.
    cbn in Hin. destruct Hin as [<-|[<-|[<-|[<-|[<-|[]]]]]];
      cbv iota; rewrite Hc; reflexivity. }
  destruct Hq as [conds Hq]. repeat split; auto.
  eexists. split; [exact Hq|].
  destruct (assemble_extends "SELECT COUNT(*)" t ["COUNT(*)"] conds (lower text))
    as [r ->].
  split; [exists r; reflexivity|].
  split; vm_compute; reflexivity.
Qed.

End Structure.

(** ** Concrete runs

    The claims at explicit inputs, in the reference environment. *)

Lemma tokens_from_whitespace s :
  whitespace_only s = true -> tokens_from "" s = [].
Proof.
  unfold whitespace_only. induction s as [|c s IH]; cbn; [reflexivity|].
  intros H. apply andb_true_iff in H as [Hc Hs]. now rewrite Hc, IH.
Qed.

Lemma simple_tokenize_whitespace s toks :
  whitespace_only s = true -> simple_tokenize s = Return toks -> toks = [].
Proof.
  intros Hw [= <-]. now apply tokens_from_whitespace.
Qed.

Lemma template_precedence_witness :
  let text := "Which author introduced the most bugs?" in
  preprocess_text simple_tokenize english_stop_words text
  = Return ["author"; "introduced"; "bugs"]
  /\ first_match (lower text) = Some BugIntroducer
  /\ build_sql_query simple_tokenize english_stop_words text (Some 7%Z)
     = Return (render BugIntroducer (lower text) (Some 7%Z)).
Proof.
  intros text.
  assert (Hpre : preprocess_text simple_tokenize english_stop_words text
                 = Return ["author"; "introduced"; "bugs"])
    by (vm_compute; reflexivity).
  assert (Hm : first_match (lower text) = Some BugIntroducer)
    by (vm_compute; reflexivity).
  split; [exact Hpre | split; [exact Hm|]].
  apply (template_precedence simple_tokenize english_stop_words text (Some 7%Z)
           ["author"; "introduced"; "bugs"] BugIntroducer Hpre);
    [discriminate | exact Hm].
Defined.

Lemma template_rejected_without_tokens :
  let text := "author-introduced-bug" in
  first_match (lower text) = Some BugIntroducer
  /\ build_sql_query simple_tokenize english_stop_words text None
     = Return EmptyInput
  /\ build_sql_query simple_tokenize english_stop_words text None
     <> Return (render BugIntroducer (lower text) None).
Proof. repeat split; try (vm_compute; reflexivity). vm_compute. discriminate. Qed.

Lemma empty_input_iff_witness :
  build_sql_query simple_tokenize english_stop_words "" None = Return EmptyInput
  /\ build_sql_query simple_tokenize english_stop_words "   " (Some 42%Z)
     = Return EmptyInput.
Proof.
  split.
  - apply (empty_input_iff simple_tokenize english_stop_words "" None
             simple_tokenize_whitespace). reflexivity.
  - apply (empty_input_iff simple_tokenize english_stop_words "   " (Some 42%Z)
             simple_tokenize_whitespace). reflexivity.
Defined.

Lemma empty_input_despite_template :
  let text := "count-commits" in
  preprocess_text simple_tokenize english_stop_words text = Return []
  /\ first_match (lower text) = Some CountCommits
  /\ build_sql_query simple_tokenize english_stop_words text None
     = Return EmptyInput.
Proof. repeat split; vm_compute; reflexivity. Qed.

Lemma repo_scoping_witness :
  let text := "top 3 files" in
  preprocess_text simple_tokenize english_stop_words text
  = Return ["top"; "3"; "files"]
  /\ first_match (lower text) = Some TopNFiles
  /\ exists sql,
      build_sql_query simple_tokenize english_stop_words text (Some 42%Z)
      = Return sql
      /\ existsb (fun c => str_in c sql) (scoping_clauses 42) = true.
Proof.
  intros text.
  assert (Hpre : preprocess_text simple_tokenize english_stop_words text
                 = Return ["top"; "3"; "files"])
    by (vm_compute; reflexivity).
  assert (Hm : first_match (lower text) = Some TopNFiles)
    by (vm_compute; reflexivity).
  split; [exact Hpre | split; [exact Hm|]].
  apply (repo_scoping simple_tokenize english_stop_words text (Some 42%Z)
           ["top"; "3"; "files"] TopNFiles Hpre);
    [discriminate | exact Hm | reflexivity].
Defined.

Lemma unscoped_templates :
  (first_match (lower "top contributors by commit") = Some TopContributorsByCommit
   /\ exists sql,
       build_sql_query simple_tokenize english_stop_words
                       "top contributors by commit" (Some 42%Z) = Return sql
       /\ str_in "WHERE" sql = false)
  /\ (first_match (lower "commits from last 30 days") = Some CommitsLast30Days
      /\ exists sql,
          build_sql_query simple_tokenize english_stop_words
                          "commits from last 30 days" None = Return sql
          /\ str_in "WHERE" sql = true).
Proof.
  split; (split; [vm_compute; reflexivity|]);
    eexists; (split; [vm_compute; reflexivity|]); vm_compute; reflexivity.
Qed.

Lemma scenario_more_than_1000_stars_witness :
  build_sql_query simple_tokenize english_stop_words
                  "Show repositories with more than 1000 stars" None
  = Return "SELECT stars FROM repositories WHERE stars >= 1000;".
Proof.
  apply (scenario_more_than_1000_stars simple_tokenize english_stop_words None).
  vm_compute. reflexivity.
Defined.

Lemma stars_scenario_columns :
  let text := "Show repositories with more than 1000 stars" in
  preprocess_text simple_tokenize english_stop_words text
  = Return ["show"; "repositories"; "1000"; "stars"]
  /\ identify_columns ["show"; "repositories"; "1000"; "stars"] (Some "repositories")
     = Return ["stars"]
  /\ identify_columns ["show"; "repositories"; "1000"; "stars"] (Some "repositories")
     <> Return ["repo_id"; "name"; "stars"; "forks"]
  /\ build_sql_query simple_tokenize english_stop_words text None
     = Return "SELECT stars FROM repositories WHERE stars >= 1000;".
Proof. repeat split; try (vm_compute; reflexivity). vm_compute. discriminate. Qed.

Lemma scenario_how_many_commits_witness :
  preprocess_text simple_tokenize english_stop_words "how many commits"
  = Return ["many"; "commits"]
  /\ build_sql_query simple_tokenize english_stop_words "how many commits"
                     (Some 42%Z)
     = Return "SELECT COUNT(*) AS total_commits FROM commits WHERE repo_id = 42 ;".
Proof.
  assert (Hpre : preprocess_text simple_tokenize english_stop_words
                                 "how many commits" = Return ["many"; "commits"])
    by (vm_compute; reflexivity).
  split; [exact Hpre|].
  apply (scenario_how_many_commits simple_tokenize english_stop_words
           ["many"; "commits"] Hpre).
  discriminate.
Defined.

Lemma how_many_commits_text :
  build_sql_query simple_tokenize english_stop_words "how many commits"
                  (Some 42%Z)
  <> Return "SELECT COUNT(*) AS total_commits FROM commits WHERE repo_id = 42;".
Proof. vm_compute. discriminate. Qed.

Lemma comparison_filters_witness :
  let text := "Find repositories with more than 10 forks" in
  re_search re_forks (lower text) = Some "10"
  /\ exists conds,
      identify_conditions text = Return conds
      /\ filters_on "forks" conds = ["forks >= 10"].
Proof.
  intros text.
  assert (Hre : re_search re_forks (lower text) = Some "10")
    by (vm_compute; reflexivity).
  split; [exact Hre|].
  destruct (comparison_filters text "forks" re_forks "10") as (conds & Hc & Hf & _).
  - right. left. reflexivity.
  - exact Hre.
  - exists conds. split; [exact Hc|]. rewrite Hf. vm_compute. reflexivity.
Defined.

Lemma direction_is_shared :
  let text := "more than 5 stars and less than 10 forks" in
  re_search re_forks (lower text) = Some "10"
  /\ identify_conditions text = Return ["stars >= 5"; "forks >= 10"]
  /\ filters_on "forks" ["stars >= 5"; "forks >= 10"] <> ["forks <= 10"].
Proof. repeat split; try (vm_compute; reflexivity). vm_compute. discriminate. Qed.

Lemma entity_order_stable_witness :
  nth_error entity_mapping 2 = Some ("commit", {|
    patterns := ["commit"; "commits"; "change"; "changes"];
    table := "commits";
    columns := ["commit_id"; "hash"; "author_id"; "repo_id"; "timestamp";
                "message"] |})
  /\ identify_table ["changes"] <> Return (Some "diffs")
  /\ identify_table ["changes"] = Return (Some "commits").
Proof.
  split; [reflexivity|].
  refine (proj2 (entity_order_stable ["changes"] 2 4 _ _ _
                                     eq_refl eq_refl eq_refl eq_refl)).
  lia.
Defined.

Lemma group_by_unreachable_witness :
  let text := "list repos per owner" in
  first_match (lower text) = None
  /\ build_sql_query simple_tokenize english_stop_words text None
     = Return "SELECT repo_id, name, stars, forks FROM repositories;"
  /\ str_in "GROUP BY" "SELECT repo_id, name, stars, forks FROM repositories;"
     = false.
Proof.
  intros text.
  assert (Hm : first_match (lower text) = None) by (vm_compute; reflexivity).
  assert (Hb : build_sql_query simple_tokenize english_stop_words text None
               = Return "SELECT repo_id, name, stars, forks FROM repositories;")
    by (vm_compute; reflexivity).
  split; [exact Hm | split; [exact Hb|]].
  apply (group_by_unreachable simple_tokenize english_stop_words text None _ Hm Hb).
Defined.

Lemma never_raises_witness :
  build_sql_query missing_data_tokenize english_stop_words
                  "how many commits" (Some 42%Z) = Return EmptyInput.
Proof.
  apply (never_raises missing_data_tokenize english_stop_words
           "how many commits" (Some 42%Z))
    with (e := "LookupError: Resource punkt not found.").
  reflexivity.
Defined.

Lemma count_rendered_twice_witness :
  preprocess_text simple_tokenize english_stop_words "count files"
  = Return ["count"; "files"]
  /\ exists sql,
      build_sql_query simple_tokenize english_stop_words "count files" None
      = Return sql
      /\ extends "SELECT COUNT(*) COUNT(*) FROM files" sql
      /\ Sql.select_list sql = Some "COUNT(*) COUNT(*)"
      /\ Sql.well_formed_select_list sql = false.
Proof.
  assert (Hpre : preprocess_text simple_tokenize english_stop_words "count files"
                 = Return ["count"; "files"])
    by (vm_compute; reflexivity).
  split; [exact Hpre|].
  apply (count_rendered_twice simple_tokenize english_stop_words "count files"
           None [] ["files"] "files" Hpre).
  - constructor.
  - reflexivity.
  - vm_compute. reflexivity.
Defined.

Lemma count_after_show :
  let text := "show count of files" in
  preprocess_text simple_tokenize english_stop_words text
  = Return ["show"; "count"; "files"]
  /\ identify_table ["show"; "count"; "files"] = Return (Some "files")
  /\ first_match (lower text) = None
  /\ identify_action ["show"; "count"; "files"] = Return "SELECT"
  /\ build_sql_query simple_tokenize english_stop_words text None
     = Return "SELECT COUNT(*) FROM files;"
  /\ String.prefix "SELECT COUNT(*) COUNT(*) FROM" "SELECT COUNT(*) FROM files;"
     = false.
Proof. repeat split; vm_compute; reflexivity. Qed.

(** * Further properties of the code *)

(** ** Lowercasing *)

Lemma lower_char_idempotent c : lower_char (lower_char c) = lower_char c.
Proof. destruct c as [[] [] [] [] [] [] [] []]; reflexivity. Qed.

Lemma lower_idempotent s : lower (lower s) = lower s.
Proof.
  induction s as [|c s IH]; cbn [lower]; [reflexivity|].
  now rewrite lower_char_idempotent, IH.
Qed.

Lemma is_space_lower_char c : is_space (lower_char c) = is_space c.
Proof. destruct c as [[] [] [] [] [] [] [] []]; reflexivity. Qed.

Lemma mem_In w ws : mem w ws = true <-> In w ws.
Proof.
  unfold mem. rewrite existsb_exists. split.
  - intros (x & Hx & E). apply String.eqb_eq in E. now subst.
  - intros H. exists w. split; [exact H | apply String.eqb_refl].
Qed.

Lemma mem_false w ws : mem w ws = false <-> ~ In w ws.
Proof.
  rewrite <- mem_In. destruct (mem w ws); split; congruence.
Qed.

Section Further.

Variable word_tokenize : string -> outcome (list string).
Variable stop_words : list string.

(** X1.  [build_sql_query] reads its text through the lowercased form
    only: two texts with the same lowercase form compile to the same
    result, and a text compiles as its lowercase form does. *)
Theorem case_insensitive text1 text2 repo_id :
  lower text1 = lower text2 ->
  build_sql_query word_tokenize stop_words text1 repo_id
  = build_sql_query word_tokenize stop_words text2 repo_id
  /\ build_sql_query word_tokenize stop_words (lower text1) repo_id
     = build_sql_query word_tokenize stop_words text1 repo_id.
Proof.
  intros H.
  assert (Hl : forall a b, lower a = lower b ->
                           build_sql_query word_tokenize stop_words a repo_id
                           = build_sql_query word_tokenize stop_words b repo_id).
  { intros a b E. unfold build_sql_query, preprocess_text.
    rewrite !identify_conditions_eq, E. reflexivity. }
  split; [now apply Hl | apply Hl, lower_idempotent].
Qed.

Lemma entity_matches_iff words info :
  entity_matches words info = true
  <-> exists syn, In syn (patterns info) /\ In syn words.
Proof.
  unfold entity_matches. rewrite existsb_exists.
  split; intros (syn & H1 & H2); exists syn; split; auto; now apply mem_In.
Qed.

Lemma first_table_none words items :
  first_table words items = None
  <-> forall e, In e items -> entity_matches words (snd e) = false.
Proof.
  induction items as [|[n info] items IH]; cbn [first_table].
  - split; [intros _ e [] | reflexivity].
  - destruct (entity_matches words info) eqn:E.
    + split; [discriminate|]. intros H.
      specialize (H (n, info) (or_introl eq_refl)). cbn in H. congruence.
    + rewrite IH. split.
      * intros H e [<-|He]; [exact E | now apply H].
      * intros H e He. apply H. now right.
Qed.

Lemma first_table_some words items t :
  first_table words items = Some t ->
  exists e, In e items /\ table (snd e) = t
            /\ entity_matches words (snd e) = true.
Proof.
  induction items as [|[n info] items IH]; cbn [first_table]; [discriminate|].
  destruct (entity_matches words info) eqn:E.
  - intros [= <-]. exists (n, info). repeat split; auto. now left.
  - intros H. destruct (IH H) as (e & He & Ht & Hm).
    exists e. repeat split; auto. now right.
Qed.

Lemma no_synonym_iff words :
  (forall e, In e entity_mapping -> entity_matches words (snd e) = false)
  <-> (forall w, In w words -> ~ In w all_patterns).
Proof.
  unfold all_patterns. split.
  - intros H w Hw Hin. apply in_flat_map in Hin as (e & He & Hp).
    specialize (H e He).
    assert (entity_matches words (snd e) = true)
      by (apply entity_matches_iff; eauto).
    congruence.
  - intros H e He.
    destruct (entity_matches words (snd e)) eqn:E; [|reflexivity].
    apply entity_matches_iff in E as (syn & Hs & Hw).
    exfalso. apply (H syn Hw). apply in_flat_map. eauto.
Qed.

(** X2.  [identify_table] finds no table exactly when no word is a synonym
    of the catalog, and a table it finds is the table of an entity one of
    whose synonyms is among the words. *)
Theorem identify_table_sound_complete words :
  (identify_table words = Return None
   <-> forall w, In w words -> ~ In w all_patterns)
  /\ (forall t, identify_table words = Return (Some t) ->
                exists name info syn,
                  In (name, info) entity_mapping /\ table info = t
                  /\ In syn (patterns info) /\ In syn words).
Proof.
  rewrite identify_table_returns. split.
  - split.
    + intros [= H]. apply (proj1 (no_synonym_iff words)).
      now apply (proj1 (first_table_none words entity_mapping)).
    + intros H.
      now rewrite (proj2 (first_table_none words entity_mapping)
                         (proj2 (no_synonym_iff words) H)).
  - intros t E.
    assert (H : first_table words entity_mapping = Some t) by congruence.
    apply first_table_some in H as ([n info] & He & Ht & Hm).
    apply entity_matches_iff in Hm as (syn & Hs & Hw).
    exists n, info, syn. auto.
Qed.

(** X3.  [identify_table] reads its words as a set: two lists with the same
    members, in any order and with any repetitions, resolve alike. *)
Theorem identify_table_set words1 words2 :
  (forall w, In w words1 <-> In w words2) ->
  identify_table words1 = identify_table words2.
Proof.
  intros H. rewrite !identify_table_returns. f_equal.
  assert (Hm : forall info, entity_matches words1 info = entity_matches words2 info).
  { intros info.
    destruct (entity_matches words1 info) eqn:E1;
      destruct (entity_matches words2 info) eqn:E2; try reflexivity.
    - apply entity_matches_iff in E1 as (syn & Hs & Hw).
      assert (entity_matches words2 info = true)
        by (apply entity_matches_iff; exists syn; split; [|apply H]; auto).
      congruence.
    - apply entity_matches_iff in E2 as (syn & Hs & Hw).
      assert (entity_matches words1 info = true)
        by (apply entity_matches_iff; exists syn; split; [|apply H]; auto).
      congruence. }
  induction entity_mapping as [|[n info] items IH]; cbn [first_table];
    [reflexivity|].
  now rewrite Hm, IH.
Qed.

(** X4.  [build_sql_query] never returns the InternalFault value: every
    fault below it is caught nearer, and each [group(1)] is read behind a
    test of its match. *)
Theorem internal_fault_unreachable text repo_id :
  build_sql_query word_tokenize stop_words text repo_id <> Return InternalFault.
Proof.
  destruct (preprocess_text_returns word_tokenize stop_words text)
    as [[|tok toks] Hpre].
  - rewrite (build_sql_query_no_tokens _ _ _ _ Hpre). discriminate.
  - destruct (build_sql_query_kept _ _ text repo_id _ _ Hpre) as (s & -> & [Hs | ->]);
      [|discriminate].
    intros [= ->]. discriminate.
Qed.

(** X5.  [build_sql_query] returns the NoEntity error exactly when
    normalization keeps a token, no special-case template matches the
    lowercased text, and no kept token is a synonym of the catalog. *)
Theorem no_entity_iff text repo_id :
  build_sql_query word_tokenize stop_words text repo_id = Return NoEntity
  <-> exists tokens,
      preprocess_text word_tokenize stop_words text = Return tokens
      /\ tokens <> []
      /\ first_match (lower text) = None
      /\ forall w, In w tokens -> ~ In w all_patterns.
Proof.
  destruct (preprocess_text_returns word_tokenize stop_words text)
    as [[|tok toks] Hpre].
  - rewrite (build_sql_query_no_tokens _ _ _ _ Hpre). split; [discriminate|].
    intros (tokens & Ht & Hne & _). congruence.
  - rewrite (build_sql_query_cases _ _ _ _ _ _ Hpre).
    destruct (first_match (lower text)) as [t|] eqn:Hm.
    + split.
      * intros [= H]. pose proof (render_is_statement t (lower text) repo_id) as Hs.
        rewrite H in Hs. discriminate.
      * intros (tokens & _ & _ & Hf & _). discriminate.
    + rewrite generic_path_returns.
      destruct (generic_path_cases (tok :: toks) text)
        as [[Hn H]|(a & t & c & k & _ & Ha & Ht & _ & _ & _ & _ & _ & H)];
        rewrite H.
      * split; [|reflexivity]. intros _. exists (tok :: toks).
        repeat split; auto; [discriminate|].
        apply (proj1 (no_synonym_iff _)), (proj1 (first_table_none _ _)), Hn.
      * split.
        -- intros [= E]. pose proof (assemble_is_statement a t c k (lower text) Ha) as Hs.
           rewrite E in Hs. discriminate.
        -- intros (tokens & Hp & _ & _ & Hno).
           rewrite Hpre in Hp. injection Hp as <-.
           pose proof (proj2 (first_table_none _ entity_mapping)
                             (proj2 (no_synonym_iff _) Hno)).
           congruence.
Qed.

(** X6.  The result depends on the repository identifier exactly through
    the repo-aware templates: when none of them fires, every identifier,
    and none, gives the same result; when one fires on a text with a kept
    token, the result with an identifier differs from the one without. *)
Theorem repo_id_dependence text :
  (match first_match (lower text) with
   | Some t => repo_scoped t = false
   | None => True
   end ->
   forall r1 r2,
     build_sql_query word_tokenize stop_words text r1
     = build_sql_query word_tokenize stop_words text r2)
  /\ (forall tok toks t r,
         preprocess_text word_tokenize stop_words text = Return (tok :: toks) ->
         first_match (lower text) = Some t -> repo_scoped t = true ->
         build_sql_query word_tokenize stop_words text (Some r)
         <> build_sql_query word_tokenize stop_words text None).
Proof.
  split.
  - intros H r1 r2.
    destruct (preprocess_text_returns word_tokenize stop_words text)
      as [[|tok toks] Hpre].
    + now rewrite !(build_sql_query_no_tokens _ _ _ _ Hpre).
    + rewrite !(build_sql_query_cases _ _ _ _ _ _ Hpre).
      destruct (first_match (lower text)) as [t|]; [|reflexivity].
      destruct t; try discriminate H; reflexivity.
  - intros tok toks t r Hpre Hm Hs.
    rewrite !(build_sql_query_cases _ _ _ _ _ _ Hpre), Hm. intros [= E].
    destruct (render_scoped t (lower text) Hs) as [Hsome Hnone].
    specialize (Hsome r). rewrite E in Hsome.
    apply existsb_exists in Hsome as (c & Hc & Hin).
    assert (Hw : str_in "WHERE" c = true).
    { cbn in Hc. destruct Hc as [<-|[<-|[<-|[]]]]; apply str_in_here; reflexivity. }
    apply str_in_elim in Hin as (x & y & Hxy).
    apply str_in_elim in Hw as (x' & y' & ->).
    rewrite Hxy in Hnone.
    rewrite !append_assoc in Hnone.
    rewrite str_in_app_r in Hnone; [discriminate|].
    apply str_in_app_r, str_in_here, prefix_app.
Qed.

Lemma table_info_of_some tbl items info :
  table_info_of tbl items = Some info ->
  tbl = Some (table info) /\ In info (map snd items).
Proof.
  induction items as [|[n i] items IH]; cbn [table_info_of]; [discriminate|].
  destruct tbl as [t|].
  - destruct (String.eqb_spec (table i) t) as [<-|].
    + intros [= <-]. split; [reflexivity | now left].
    + intros H. destruct (IH H) as [? ?]. split; [assumption | now right].
  - intros H. destruct (IH H) as [? ?]. split; [assumption | now right].
Qed.

Lemma table_info_of_none t :
  ~ In t tables -> table_info_of (Some t) entity_mapping = None.
Proof.
  intros H. destruct (table_info_of (Some t) entity_mapping) as [info|] eqn:E;
    [|reflexivity].
  apply table_info_of_some in E as [[= ->] Hin]. exfalso. apply H.
  unfold tables. rewrite in_map_iff in *. destruct Hin as ([n i] & <- & Hi).
  now exists (n, i).
Qed.

Ltac catalog_cases H :=
  cbn in H;
  repeat match type of H with
         | _ \/ _ => destruct H as [H|H]
         | False => destruct H
         end.

(** X7.  For a table of the catalog [identify_columns] returns the
    aggregate alone or a nonempty list of columns of that table, without
    repetition; for any other table it returns the aggregate or the
    wildcard.  It never names a column from outside the table. *)
Theorem identify_columns_in_table words :
  (forall name info,
      In (name, info) entity_mapping ->
      exists cols,
        identify_columns words (Some (table info)) = Return cols
        /\ cols <> []
        /\ (cols = ["COUNT(*)"] \/ (incl cols (columns info) /\ NoDup cols)))
  /\ (forall t, ~ In t tables ->
                identify_columns words (Some t) = Return ["COUNT(*)"]
                \/ identify_columns words (Some t) = Return ["*"])
  /\ (identify_columns words None = Return ["COUNT(*)"]
      \/ identify_columns words None = Return ["*"]).
Proof.
  split; [|split].
  - intros name info Hin. unfold identify_columns.
    destruct (existsb _ words).
    { eexists. split; [reflexivity|]. split; [discriminate | now left]. }
    catalog_cases Hin; injection Hin as <- <-;
      cbn [table_info_of entity_mapping table String.eqb Ascii.eqb Bool.eqb columns].
    all: match goal with
         | |- context [filter ?f ?l] =>
             pose proof (fun x => proj1 (filter_In f x l)) as Hf;
             pose proof (NoDup_filter f (l:=l)) as Hnd;
             destruct (filter f l) as [|c cs] eqn:Efl
         end.
    all: eexists; (split; [reflexivity|]); (split; [discriminate|]); right.
    all: split;
      [ intros x Hx;
        first [ now apply (Hf x) | cbn in Hx |- *; intuition ]
      | first [ apply Hnd | idtac ];
        repeat constructor; cbn; intuition discriminate ].
  - intros t Ht. unfold identify_columns.
    destruct (existsb _ words); [now left|]. right.
    now rewrite (table_info_of_none t Ht).
  - unfold identify_columns.
    destruct (existsb _ words); [now left|]. right. reflexivity.
Qed.

Lemma isalnum_how_many : isalnum "how many" = false.
Proof. reflexivity. Qed.

Lemma identify_columns_aggregate words tbl :
  identify_columns words tbl = Return ["COUNT(*)"]
  <-> existsb (fun word => mem word ["count"; "how many"; "total"]) words = true.
Proof.
  unfold identify_columns.
  destruct (existsb _ words); [split; reflexivity|].
  split; [|discriminate]. intros H. exfalso.
  destruct (table_info_of tbl entity_mapping) as [info|] eqn:E;
    [|discriminate].
  apply table_info_of_some in E as [-> Hin].
  catalog_cases Hin; subst info; cbn [table columns] in H.
  all: match type of H with
       | context [filter ?f ?l] =>
           pose proof (proj1 (filter_In f "COUNT(*)" l)) as Hf;
           destruct (filter f l) as [|c cs] eqn:Efl
       end; try discriminate H.
  all: injection H as -> ->.
  all: destruct (Hf (or_introl eq_refl)) as [Hc _].
  all: cbn in Hc; intuition discriminate.
Qed.

(** X8.  Every token [preprocess_text] keeps is alphanumeric, is no stop
    word and comes from the tokenizer; so the phrase "how many" is never a
    token, and on kept tokens [identify_columns] answers with the aggregate
    exactly when "count" or "total" is among them. *)
Theorem retained_tokens text tokens :
  preprocess_text word_tokenize stop_words text = Return tokens ->
  Forall (fun w => isalnum w = true /\ ~ In w stop_words) tokens
  /\ (forall raw, word_tokenize (lower text) = Return raw -> incl tokens raw)
  /\ ~ In "how many" tokens
  /\ forall tbl,
      identify_columns tokens tbl = Return ["COUNT(*)"]
      <-> (In "count" tokens \/ In "total" tokens).
Proof.
  intros Hpre. unfold preprocess_text in Hpre.
  assert (Hall : Forall (fun w => isalnum w = true /\ ~ In w stop_words) tokens).
  { destruct (word_tokenize (lower text)) as [raw|e]; cbn in Hpre;
      injection Hpre as <-; [|constructor].
    apply Forall_forall. intros w Hw. apply filter_In in Hw as [_ Hw].
    apply andb_true_iff in Hw as [Ha Hs]. split; [exact Ha|].
    apply mem_false. now destruct (mem w stop_words). }
  assert (Hno : ~ In "how many" tokens).
  { intros Hin. rewrite Forall_forall in Hall.
    destruct (Hall _ Hin) as [Ha _]. discriminate. }
  repeat split; auto.
  - intros raw Hraw. rewrite Hraw in Hpre. cbn in Hpre. injection Hpre as <-.
    intros w Hw. now apply filter_In in Hw as [Hw _].
  - intros H. apply identify_columns_aggregate in H.
    apply existsb_exists in H as (w & Hw & Hm).
    apply mem_In in Hm. cbn in Hm.
    destruct Hm as [<-|[<-|[<-|[]]]]; auto. contradiction.
  - intros H. apply identify_columns_aggregate. apply existsb_exists.
    destruct H as [H|H]; eexists; (split; [exact H | reflexivity]).
Qed.

End Further.

(** ** Where a matched number stands *)

Lemma take_drop k s : take k s ++ drop k s = s.
Proof.
  revert s; induction k as [|k IH]; intros s; [reflexivity|].
  destruct s as [|c s]; [reflexivity|]. cbn. now rewrite IH.
Qed.

Lemma take_nonempty k s :
  1 <= k -> k <= run_length is_digit s -> take k s <> "".
Proof.
  intros H1 H2. destruct k as [|k]; [lia|].
  destruct s as [|c s]; [cbn in H2; lia | discriminate].
Qed.

Lemma prefix_drop l s : String.prefix l s = true -> s = l ++ drop (String.length l) s.
Proof.
  intros H. destruct (prefix_split _ _ H) as [b ->]. f_equal.
  clear H. induction l as [|c l IH]; [reflexivity | exact IH].
Qed.

Lemma last_char_app a prev c s :
  last_char (a ++ String c s) prev = last_char s (Some c).
Proof.
  revert prev. induction a as [|x a IH]; intros prev; cbn; [reflexivity|].
  apply IH.
Qed.

(** A search succeeds at some position of the text. *)
Lemma search_from_position p s :
  forall prev g,
    search_from p prev s = Some g ->
    exists before rest,
      s = before ++ rest
      /\ match_here p (last_char before prev) rest "" = Some g.
Proof.
  induction s as [|c s IH]; intros prev g; cbn [search_from].
  - destruct (match_here p prev "" "") eqn:E; [|discriminate].
    intros [= <-]. now exists "", "".
  - destruct (match_here p prev (String c s) "") eqn:E.
    + intros [= <-]. now exists "", (String c s).
    + intros H. destruct (IH _ _ H) as (b & r & -> & Hm).
      exists (String c b), r. split; [reflexivity | exact Hm].
Qed.

(** X9.  A match of [(\d+)\s*kw] reads its number off the text: the group
    is a nonempty run of digits that stands in the text right before the
    keyword, with nothing but whitespace between them.  This is the number
    of a star or fork filter. *)
Theorem metric_number_position kw s g :
  re_search [Digits1; Spaces0; Lit kw] s = Some g ->
  exists before ws after,
    s = before ++ g ++ ws ++ kw ++ after
    /\ g <> ""
    /\ forallb_str is_digit g = true
    /\ forallb_str is_space ws = true.
Proof.
  intros H. apply search_from_position in H as (b & r & -> & H).
  cbn [match_here] in H.
  apply try_lengths_some in H as (k & Hk & Hk1 & H).
  apply try_lengths_some in H as (k' & Hk' & _ & H).
  destruct (String.prefix kw (drop k' (drop k r))) eqn:E; [|discriminate].
  injection H as <-.
  exists b, (take k' (drop k r)), (drop (String.length kw) (drop k' (drop k r))).
  repeat split.
  - f_equal. rewrite <- (prefix_drop _ _ E), !take_drop. reflexivity.
  - now apply take_nonempty.
  - now apply take_run.
  - now apply take_run.
Qed.

Lemma digits_are_words g :
  g <> "" -> forallb_str is_digit g = true ->
  exists c, last_char g None = Some c /\ is_word_char c = true.
Proof.
  intros Hne Hd.
  assert (H : forall prev, (forall x, prev = Some x -> is_word_char x = true) ->
                           g <> "" \/ prev <> None ->
                           exists c, last_char g prev = Some c
                                     /\ is_word_char c = true).
  { clear Hne. induction g as [|x g IH]; intros prev Hp Hor; cbn [last_char].
    - destruct prev as [c|]; [eauto | destruct Hor; congruence].
    - cbn in Hd. apply andb_true_iff in Hd as [Hx Hg].
      apply (IH Hg).
      + intros y [= <-]. unfold is_word_char, is_alnum_char.
        unfold is_digit in Hx. now rewrite Hx.
      + right. discriminate. }
  apply H; [discriminate | now left].
Qed.

Lemma take_nonempty_gen f k s :
  1 <= k -> k <= run_length f s -> take k s <> "".
Proof.
  intros H1 H2. destruct k as [|k]; [lia|].
  destruct s as [|c s]; [cbn in H2; lia | discriminate].
Qed.

Lemma last_char_default s prev :
  s <> "" -> last_char s prev = last_char s None.
Proof.
  destruct s as [|c s]; [congruence | reflexivity].
Qed.

(** X10.  A match of [\bkw\s+(\d+)\b] for "top" or "bottom" reads the
    limit off the text: the keyword starts a word, whitespace follows it,
    and the group is the nonempty run of digits after that whitespace,
    ending a word.  This group is the LIMIT of the top-N and bottom-N
    templates. *)
Theorem limit_number_position kw s g :
  In kw ["top"; "bottom"] ->
  re_search [WordBoundary; Lit kw; Spaces1; Digits1; WordBoundary] s = Some g ->
  (exists before ws after,
      s = before ++ kw ++ ws ++ g ++ after
      /\ not_word_end before
      /\ ws <> "" /\ forallb_str is_space ws = true
      /\ g <> "" /\ forallb_str is_digit g = true
      /\ not_word_start after)
  /\ forall default,
      limit_of [WordBoundary; Lit kw; Spaces1; Digits1; WordBoundary] default s = g.
Proof.
  intros Hkw H. split; [|intros d; unfold limit_of; now rewrite H].
  apply search_from_position in H as (b & r & -> & H).
  cbn [match_here] in H.
  destruct (at_boundary (last_char b None) r) eqn:Hb; [|discriminate].
  destruct (String.prefix kw r) eqn:E; [|discriminate].
  apply try_lengths_some in H as (k & Hk & Hk1 & H).
  apply try_lengths_some in H as (k' & Hk' & Hk1' & H).
  set (r1 := drop (String.length kw) r) in *.
  destruct (at_boundary _ (drop k' (drop k r1))) eqn:He; [|discriminate].
  injection H as <-.
  exists b, (take k r1), (drop k' (drop k r1)).
  assert (Hg : take k' (drop k r1) <> "") by now apply take_nonempty_gen with is_digit.
  assert (Hd : forallb_str is_digit (take k' (drop k r1)) = true) by now apply take_run.
  repeat split; auto.
  - f_equal. rewrite (prefix_drop _ _ E) at 1. fold r1. f_equal.
    now rewrite !take_drop.
  - unfold not_word_end. apply prefix_split in E as [x ->].
    unfold at_boundary in Hb.
    destruct (last_char b None) as [c|]; [|exact I].
    destruct Hkw as [<-|[<-|[]]]; cbn in Hb;
      destruct (is_word_char c); [discriminate|reflexivity|discriminate|reflexivity].
  - now apply take_nonempty_gen with is_space.
  - now apply take_run.
  - unfold not_word_start.
    rewrite last_char_default in He by exact Hg.
    destruct (digits_are_words _ Hg Hd) as (c & Ec & Hc).
    rewrite Ec in He. unfold at_boundary in He. rewrite Hc in He.
    destruct (drop k' (drop k r1)) as [|x rest]; [exact I|].
    now destruct (is_word_char x).
Qed.

(** ** [identify_action] *)

Lemma first_keyword_none tokens :
  first_keyword tokens = None
  <-> Forall (fun w => lookup w keywords = None) tokens.
Proof.
  induction tokens as [|t ts IH]; cbn [first_keyword].
  - split; [constructor | reflexivity].
  - destruct (lookup t keywords) eqn:E.
    + split; [discriminate|]. intros H. inversion H. congruence.
    + rewrite IH. split; [now constructor | now inversion 1].
Qed.

Lemma first_keyword_some tokens action :
  first_keyword tokens = Some action
  <-> exists before w after,
      tokens = (before ++ w :: after)%list
      /\ Forall (fun w => lookup w keywords = None) before
      /\ lookup w keywords = Some action.
Proof.
  induction tokens as [|t ts IH]; cbn [first_keyword].
  - split; [discriminate|]. intros (b & w & a & H & _). destruct b; discriminate.
  - destruct (lookup t keywords) eqn:E.
    + split.
      * intros [= <-]. exists [], t, ts. repeat split; auto.
      * intros (b & w & a & H & Hb & Hw). destruct b as [|x b].
        -- injection H as <- <-. congruence.
        -- injection H as <- ->. inversion Hb. congruence.
    + rewrite IH. split.
      * intros (b & w & a & -> & Hb & Hw). exists (t :: b), w, a.
        repeat split; auto.
      * intros (b & w & a & H & Hb & Hw). destruct b as [|x b].
        -- injection H as <- <-. congruence.
        -- injection H as <- ->. exists b, w, a. inversion Hb. auto.
Qed.

Lemma lookup_count w :
  lookup w keywords = Some "SELECT COUNT(*)" <-> w = "count".
Proof.
  split; [|now intros ->].
  unfold keywords. cbn [lookup].
  repeat match goal with
         | |- (if String.eqb ?a ?b then _ else _) = _ -> _ =>
             destruct (String.eqb_spec a b)
         end; try discriminate; auto.
Qed.

(** X11.  [identify_action] answers [SELECT COUNT( * )] in two cases only:
    the first token that is a key of the keyword table is "count", or no
    token is a key and "total" or "sum" is among the tokens.  In every
    other case it answers [SELECT]. *)
Theorem identify_action_count tokens :
  (identify_action tokens = Return "SELECT COUNT(*)"
   <-> (exists before after,
           tokens = (before ++ "count" :: after)%list
           /\ Forall (fun w => lookup w keywords = None) before)
       \/ (Forall (fun w => lookup w keywords = None) tokens
           /\ (In "total" tokens \/ In "sum" tokens)))
  /\ (identify_action tokens <> Return "SELECT COUNT(*)" ->
      identify_action tokens = Return "SELECT").
Proof.
  split; [|destruct (identify_action_range tokens); tauto].
  unfold identify_action.
  destruct (first_keyword tokens) as [a|] eqn:E; cbn [try_except].
  - split.
    + intros [= ->]. left.
      apply first_keyword_some in E as (b & w & af & -> & Hb & Hw).
      apply lookup_count in Hw as ->. eauto.
    + intros [(b & af & -> & Hb)|[Hall _]].
      * rewrite first_keyword_count in E by exact Hb. congruence.
      * apply first_keyword_none in Hall. congruence.
  - apply first_keyword_none in E.
    destruct (existsb _ tokens) eqn:Ex; cbn [try_except].
    + split; [|reflexivity]. intros _. right. split; [exact E|].
      apply existsb_exists in Ex as (w & Hw & Hm). apply mem_In in Hm.
      cbn in Hm. destruct Hm as [<-|[<-|[<-|[]]]]; auto.
      rewrite Forall_forall in E. specialize (E _ Hw). discriminate.
    + split; [discriminate|].
      intros [(b & af & -> & _)|[_ Hin]]; exfalso.
      * rewrite Forall_forall in E.
        assert (Hc : In "count" (b ++ "count" :: af))
          by (apply in_or_app; right; now left).
        specialize (E _ Hc). discriminate.
      * assert (existsb (fun token => mem token ["count"; "total"; "sum"]) tokens
                = true); [|congruence].
        apply existsb_exists.
        destruct Hin as [H|H]; eexists; (split; [exact H | reflexivity]).
Qed.

(** ** The characters of a statement *)

Lemma count_char_app c a b :
  count_char c (a ++ b) = count_char c a + count_char c b.
Proof. induction a as [|x a IH]; cbn; [reflexivity | rewrite IH; lia]. Qed.

Lemma count_char_0 c s : has_char c s = false -> count_char c s = 0.
Proof.
  induction s as [|x s IH]; cbn; [reflexivity|].
  intros H. apply orb_false_iff in H as [-> Hs]. now rewrite IH.
Qed.

Lemma uint_digits d : forallb_str is_digit (NilEmpty.string_of_uint d) = true.
Proof. induction d; cbn; auto. Qed.

(** [str(n)] holds digits, after a minus sign for a negative [n]. *)
Lemma str_int_lacks c z :
  is_digit c = false -> Ascii.eqb "-" c = false -> has_char c (str_int z) = false.
Proof.
  intros Hd Hm. unfold str_int, NilZero.string_of_int.
  assert (Hu : forall d, has_char c (NilZero.string_of_uint d) = false).
  { intros d. apply digits_lack; [exact Hd|].
    destruct d; try apply (uint_digits (_ d)); reflexivity. }
  destruct (Z.to_int z) as [d|d]; [apply Hu|].
  cbn [has_char]. now rewrite Hm, Hu.
Qed.

Ltac marks H :=
  cbn in H; destruct H as [<-|[<-|[]]].

Lemma identify_columns_lack c words t :
  In c [";"; "J"]%char ->
  In t tables ->
  exists cols, identify_columns words (Some t) = Return cols
               /\ Forall (fun x => has_char c x = false) cols.
Proof.
  intros Hc Ht. unfold identify_columns.
  destruct (existsb _ words).
  { eexists; split; [reflexivity|]. marks Hc; repeat constructor. }
  assert (Hf : forall l : list string,
             Forall (fun x => has_char c x = false) l ->
             Forall (fun x => has_char c x = false)
                    (filter (fun col => mem (last (split_on "_" col) "") words) l)).
  { intros l Hl. rewrite Forall_forall in *. intros x Hx.
    apply filter_In in Hx as [Hx _]. auto. }
  cbn in Ht.
  destruct Ht as [<-|[<-|[<-|[<-|[<-|[]]]]]];
    cbn [table_info_of entity_mapping table String.eqb Ascii.eqb Bool.eqb columns].
  all: match goal with
       | |- context [filter ?f ?l] =>
           specialize (Hf l); destruct (filter f l) eqn:Efl
       end.
  all: eexists; split; [reflexivity|].
  all: try (apply Hf); marks Hc; repeat constructor.
Qed.

Lemma identify_conditions_lack c text :
  In c [";"; "J"]%char ->
  exists conds, identify_conditions text = Return conds
                /\ Forall (fun x => has_char c x = false) conds.
Proof.
  intros Hc. rewrite identify_conditions_eq. eexists; split; [reflexivity|].
  assert (Hdig : is_digit c = false) by (marks Hc; reflexivity).
  assert (Hd : has_char c (direction (lower text)) = false).
  { unfold direction. destruct (_ || _); [marks Hc; reflexivity|].
    destruct (str_in "less than" _); marks Hc; reflexivity. }
  assert (Hm : forall m p, has_char c m = false ->
                           Forall (fun x => has_char c x = false)
                                  (metric_filter m p (lower text))).
  { intros m p Hm. unfold metric_filter.
    destruct (re_search p (lower text)) as [num|] eqn:E; constructor; [|constructor].
    apply re_search_digits in E.
    rewrite !has_char_app, Hm, Hd, (digits_lack c num Hdig E).
    marks Hc; reflexivity. }
  rewrite !Forall_app. repeat split; try (apply Hm; marks Hc; reflexivity).
  unfold time_filter.
  destruct (str_in "this month" _); [|destruct (str_in "last month" _)];
    marks Hc; repeat constructor.
Qed.

(** The assembled statement is a body closed by one semicolon; the body has
    no semicolon, and no J either unless the table is commits. *)
Lemma assemble_body_lacks c action tbl cols conds tl :
  In c [";"; "J"]%char ->
  action = "SELECT" \/ action = "SELECT COUNT(*)" ->
  In tbl tables ->
  (c = "J"%char -> tbl <> "commits") ->
  Forall (fun x => has_char c x = false) cols ->
  Forall (fun x => has_char c x = false) conds ->
  exists body,
    assemble action tbl cols conds tl = body ++ ";"
    /\ has_char c body = false.
Proof.
  intros Hc Ha Ht Hj Hcols Hconds.
  assert (Hj1 : has_char c (join ", " cols) = false)
    by (apply has_char_join; [marks Hc; reflexivity | exact Hcols]).
  assert (Hj2 : has_char c (join " AND " conds) = false)
    by (apply has_char_join; [marks Hc; reflexivity | exact Hconds]).
  unfold assemble. cbv zeta. eexists. split; [reflexivity|].
  cbn in Ht.
  destruct Ha as [-> | ->];
    destruct Ht as [<-|[<-|[<-|[<-|[<-|[]]]]]];
    cbn [String.eqb Ascii.eqb Bool.eqb andb];
    rewrite ?andb_false_r, ?andb_true_r;
    repeat match goal with
           | |- context [if ?b then _ else _] => destruct b
           end;
    rewrite ?has_char_app, ?Hj1, ?Hj2;
    marks Hc; try reflexivity; exfalso; now apply Hj.
Qed.

Lemma render_one_semicolon t tl repo_id :
  count_char ";" (render t tl repo_id) = 1.
Proof.
  pose proof (limit_of_digits re_top "" tl eq_refl) as Ht.
  pose proof (limit_of_digits re_bottom "3" tl eq_refl) as Hb.
  destruct t, repo_id as [r|]; cbn [render where_clause];
    rewrite ?count_char_app,
      ?(count_char_0 _ _ (str_int_lacks ";" r eq_refl eq_refl)),
      ?(count_char_0 _ _ (digits_lack ";" _ eq_refl Ht)),
      ?(count_char_0 _ _ (digits_lack ";" _ eq_refl Hb));
    reflexivity.
Qed.

Section Statements.

Variable word_tokenize : string -> outcome (list string).
Variable stop_words : list string.

(** What [build_sql_query] returns on the generic path, with the table it
    resolved. *)
Lemma generic_result text repo_id tok toks :
  preprocess_text word_tokenize stop_words text = Return (tok :: toks) ->
  first_match (lower text) = None ->
  (first_table (tok :: toks) entity_mapping = None
   /\ build_sql_query word_tokenize stop_words text repo_id = Return NoEntity)
  \/ exists a t cols conds,
      (a = "SELECT" \/ a = "SELECT COUNT(*)")
      /\ first_table (tok :: toks) entity_mapping = Some t /\ In t tables
      /\ identify_columns (tok :: toks) (Some t) = Return cols
      /\ identify_conditions text = Return conds
      /\ build_sql_query word_tokenize stop_words text repo_id
         = Return (assemble a t cols conds (lower text)).
Proof.
  intros Hpre Hm.
  rewrite (build_sql_query_cases _ _ _ _ _ _ Hpre), Hm, generic_path_returns.
  destruct (generic_path_cases (tok :: toks) text)
    as [[Hn H]|(a & t & c & k & _ & Ha & Ht & Hin & Hc & _ & Hk & _ & H)];
    rewrite H; [now left | right].
  exists a, t, c, k. auto 10.
Qed.

(** X12.  A statement returned by [build_sql_query] holds exactly one
    semicolon, its last character: whatever the text, no second statement
    is ever appended. *)
Theorem single_statement text repo_id sql :
  build_sql_query word_tokenize stop_words text repo_id = Return sql ->
  is_statement sql = true ->
  count_char ";" sql = 1 /\ ends_with ";" sql = true.
Proof.
  intros Hb Hs. split; [|now apply andb_true_iff in Hs].
  destruct (preprocess_text_returns word_tokenize stop_words text)
    as [[|tok toks] Hpre].
  - rewrite (build_sql_query_no_tokens _ _ _ _ Hpre) in Hb.
    injection Hb as <-. discriminate.
  - destruct (first_match (lower text)) as [t|] eqn:Hm.
    + rewrite (build_sql_query_cases _ _ _ _ _ _ Hpre), Hm in Hb.
      injection Hb as <-. apply render_one_semicolon.
    + destruct (generic_result text repo_id tok toks Hpre Hm)
        as [[_ H]|(a & t & c & k & Ha & _ & Hin & Hc & Hk & H)];
        rewrite H in Hb; injection Hb as <-; [discriminate|].
      destruct (identify_columns_lack ";" (tok :: toks) t) as (c' & Hc' & Hcols);
        [now left | exact Hin |].
      destruct (identify_conditions_lack ";" text) as (k' & Hk' & Hconds);
        [now left|].
      assert (c' = c) by congruence. assert (k' = k) by congruence. subst.
      destruct (assemble_body_lacks ";" a t c k (lower text))
        as (body & -> & Hbody); auto; [now left | discriminate|].
      rewrite count_char_app, (count_char_0 _ _ Hbody). reflexivity.
Qed.

Lemma assemble_join_authors action cols conds tl :
  str_in "author" tl = true ->
  str_in " JOIN authors ON commits.author_id = authors.author_id"
         (assemble action "commits" cols conds tl) = true.
Proof.
  intros H. unfold assemble. cbv zeta.
  cbn [String.eqb Ascii.eqb Bool.eqb]. rewrite H. cbn [andb].
  repeat first
    [ apply str_in_app_r, str_in_self
    | apply str_in_app_l
    | match goal with
      | |- context [if ?b then _ else _] => destruct b
      | |- context [match ?l with [] => _ | _ :: _ => _ end] => destruct l
      end ].
Qed.

(** X13.  On the generic path a JOIN is put for the table commits only:
    for any other table the statement holds no JOIN, whatever the text
    mentions; for commits, a text that mentions "author" gets the join to
    authors. *)
Theorem join_only_for_commits text repo_id tokens t sql :
  preprocess_text word_tokenize stop_words text = Return tokens ->
  first_match (lower text) = None ->
  identify_table tokens = Return (Some t) ->
  build_sql_query word_tokenize stop_words text repo_id = Return sql ->
  (t <> "commits" -> str_in "JOIN" sql = false)
  /\ (t = "commits" -> str_in "author" (lower text) = true ->
      str_in " JOIN authors ON commits.author_id = authors.author_id" sql = true).
Proof.
  intros Hpre Hm Ht Hb.
  rewrite identify_table_returns in Ht.
  assert (Hft : first_table tokens entity_mapping = Some t) by congruence.
  destruct tokens as [|tok toks]; [discriminate|].
  destruct (generic_result text repo_id tok toks Hpre Hm)
    as [[Hn _]|(a & t' & c & k & Ha & Ht' & Hin & Hc & Hk & H)];
    [congruence|].
  assert (t' = t) by congruence. subst t'.
  rewrite H in Hb. injection Hb as <-. split.
  - intros Hne. apply no_char_not_in.
    destruct (identify_columns_lack "J" (tok :: toks) t) as (c' & Hc' & Hcols);
      [right; now left | exact Hin |].
    destruct (identify_conditions_lack "J" text) as (k' & Hk' & Hconds);
      [right; now left|].
    assert (c' = c) by congruence. assert (k' = k) by congruence. subst.
    destruct (assemble_body_lacks "J" a t c k (lower text))
      as (body & -> & Hbody); auto; [right; now left|].
    now rewrite has_char_app, Hbody.
  - intros -> Ha'. now apply assemble_join_authors.
Qed.

Lemma statement_no_error s : is_statement s = true -> String.prefix "Error" s = false.
Proof.
  intros H. apply andb_true_iff in H as [H _].
  apply prefix_split in H as [b ->]. reflexivity.
Qed.

(** X14.  [api_query] hands to the database nothing but a statement that
    [build_sql_query] returned for the repository found; it answers with a
    bad request when there is no repository, when normalization kept no
    token, or when the generic path found no entity, and it raises
    nothing. *)
Theorem api_query_executes_statements user_query repo_obj :
  exists r,
    api_query word_tokenize stop_words user_query repo_obj = Return r
    /\ match r with
       | Execute sql =>
           is_statement sql = true
           /\ exists repo_id,
               repo_obj = Some repo_id
               /\ build_sql_query word_tokenize stop_words user_query (Some repo_id)
                  = Return sql
       | BadRequest e =>
           (repo_obj = None
            /\ e = "No repository found. Please extract the repository first.")
           \/ (exists repo_id,
                  repo_obj = Some repo_id
                  /\ build_sql_query word_tokenize stop_words user_query (Some repo_id)
                     = Return e
                  /\ (e = EmptyInput \/ e = NoEntity))
       end.
Proof.
  unfold api_query. destruct repo_obj as [repo_id|].
  2: { eexists. split; [reflexivity|]. now left. }
  destruct (preprocess_text_returns word_tokenize stop_words user_query)
    as [[|tok toks] Hpre].
  - rewrite (build_sql_query_no_tokens _ _ _ _ Hpre). cbn.
    eexists. split; [reflexivity|]. right. exists repo_id.
    repeat split; auto. now apply build_sql_query_no_tokens.
  - destruct (build_sql_query_kept _ _ user_query (Some repo_id) _ _ Hpre)
      as (s & Hs & [Hk | ->]); rewrite Hs; cbn [bind].
    + rewrite (statement_no_error _ Hk). eexists. split; [reflexivity|].
      split; [exact Hk|]. now exists repo_id.
    + cbn. eexists. split; [reflexivity|]. right. exists repo_id.
      repeat split; auto.
Qed.

End Statements.

(** ** [normalize_sql] *)

Section Normalize.

Lemma spaceless_snoc cur c :
  blank_free cur -> is_space c = false -> blank_free (cur ++ String c "").
Proof.
  unfold blank_free. intros Hc Hs.
  induction cur as [|x cur IH]; cbn in *; [now rewrite Hs|].
  apply andb_true_iff in Hc as [-> Hc]. now apply IH.
Qed.

Lemma flush_words cur : blank_free cur -> Forall split_word (flush cur).
Proof.
  intros H. destruct cur; cbn; [constructor|].
  constructor; [|constructor]. split; [discriminate | exact H].
Qed.

Lemma words_from_words s :
  forall cur, blank_free cur -> Forall split_word (words_from cur s).
Proof.
  induction s as [|c s IH]; intros cur Hc; cbn [words_from].
  - now apply flush_words.
  - destruct (is_space c) eqn:E.
    + apply Forall_app. split; [now apply flush_words | now apply IH].
    + apply IH. now apply spaceless_snoc.
Qed.

Lemma words_from_word w :
  blank_free w -> forall cur rest,
    words_from cur (w ++ rest) = words_from (cur ++ w) rest.
Proof.
  unfold blank_free.
  induction w as [|c w IH]; intros Hw cur rest; cbn [String.append].
  - now rewrite append_empty.
  - cbn in Hw. apply andb_true_iff in Hw as [Hc Hw].
    cbn [words_from]. destruct (is_space c); [discriminate|].
    rewrite (IH Hw). f_equal. now rewrite append_assoc.
Qed.

(** Splitting undoes a join of words by single blanks. *)
Lemma split_join ws :
  Forall split_word ws -> split_whitespace (join " " ws) = ws.
Proof.
  unfold split_whitespace.
  induction 1 as [|w ws [Hne Hw] Hws IH]; [reflexivity|].
  cbn [join]. destruct ws as [|w' ws].
  - pose proof (words_from_word w Hw "" "") as E.
    rewrite append_empty in E. rewrite E. cbn.
    destruct w; [congruence | reflexivity].
  - rewrite (words_from_word w Hw "" _). cbn [String.append words_from].
    change (is_space " ") with true. cbv iota.
    rewrite IH. destruct w; [congruence | reflexivity].
Qed.

Lemma lower_app a b : lower (a ++ b) = lower a ++ lower b.
Proof. induction a as [|c a IH]; cbn; [reflexivity | now rewrite IH]. Qed.

Lemma lower_join ws : lower (join " " ws) = join " " (map lower ws).
Proof.
  induction ws as [|w ws IH]; [reflexivity|].
  cbn [join map]. destruct ws as [|w' ws]; [reflexivity|].
  rewrite !lower_app, IH. reflexivity.
Qed.

Lemma words_from_lower s :
  forall cur, words_from (lower cur) (lower s) = map lower (words_from cur s).
Proof.
  induction s as [|c s IH]; intros cur; cbn [words_from lower].
  - destruct cur; reflexivity.
  - rewrite is_space_lower_char. destruct (is_space c).
    + rewrite map_app. f_equal; [destruct cur; reflexivity | apply (IH "")].
    + rewrite <- IH. f_equal. now rewrite lower_app.
Qed.

Lemma split_lower s :
  split_whitespace (lower s) = map lower (split_whitespace s).
Proof. apply (words_from_lower s ""). Qed.

Lemma split_words s : Forall split_word (split_whitespace s).
Proof. now apply words_from_words. Qed.

Lemma lowered_words s :
  map lower (split_whitespace (lower s)) = split_whitespace (lower s).
Proof.
  rewrite split_lower, map_map.
  apply map_ext. intros w. apply lower_idempotent.
Qed.

(** X15.  [normalize_sql] is idempotent: a normalized text is its own
    normal form. *)
Theorem normalize_sql_idempotent sql :
  normalize_sql (normalize_sql sql) = normalize_sql sql.
Proof.
  unfold normalize_sql.
  rewrite lower_join, lowered_words, split_join; [reflexivity|].
  apply split_words.
Qed.

(** X16.  Two SQL texts have the same normal form, and count as an exact
    match in the accuracy test, exactly when their lowercased forms split
    into the same words: letter case and the kind and amount of
    whitespace, also at the two ends, make no difference, and nothing else
    is forgiven. *)
Theorem normalize_sql_equal sql1 sql2 :
  normalize_sql sql1 = normalize_sql sql2
  <-> split_whitespace (lower sql1) = split_whitespace (lower sql2).
Proof.
  unfold normalize_sql. split; [|now intros ->].
  intros H. apply (f_equal split_whitespace) in H.
  now rewrite !split_join in H by apply split_words.
Qed.

End Normalize.

(** ** [GitHubQueryParser] *)

Section ParserFacts.

Import Parser.

Lemma first_key_some {V} (pats : V -> list string) text items key :
  first_key pats text items = Some key ->
  exists v, In (key, v) items /\ lookup key items <> None
            /\ any_in (pats v) text = true.
Proof.
  induction items as [|[k v] items IH]; cbn [first_key]; [discriminate|].
  destruct (any_in (pats v) text) eqn:E.
  - intros [= <-]. exists v. cbn. rewrite String.eqb_refl.
    repeat split; auto. discriminate.
  - intros H. destruct (IH H) as (v' & Hin & Hl & Ha).
    exists v'. cbn. destruct (String.eqb key k); repeat split; auto.
    discriminate.
Qed.

Lemma first_key_none {V} (pats : V -> list string) text items :
  first_key pats text items = None
  <-> forall k v, In (k, v) items -> any_in (pats v) text = false.
Proof.
  induction items as [|[k v] items IH]; cbn [first_key].
  - split; [intros _ k v [] | reflexivity].
  - destruct (any_in (pats v) text) eqn:E.
    + split; [discriminate|]. intros H.
      specialize (H k v (or_introl eq_refl)). congruence.
    + rewrite IH. split.
      * intros H k' v' [[= <- <-]|Hin]; [exact E | eauto].
      * intros H k' v' Hin. apply (H k' v'). now right.
Qed.

(** X17.  [detect_intent] answers COUNT exactly when the lowercased text
    contains "count", "how many" or "total number", whatever other intent
    words stand in it and wherever; its answer is always one of the five
    intents. *)
Theorem parser_detect_intent doc :
  (detect_intent doc = Return "COUNT"
   <-> any_in ["count"; "how many"; "total number"] (lower (doc_text doc)) = true)
  /\ exists intent,
      detect_intent doc = Return intent
      /\ In intent ["SELECT"; "COUNT"; "UPDATE"; "DELETE"; "INSERT"].
Proof.
  unfold detect_intent. cbv zeta. cbn [getitem lookup intent_patterns String.eqb
    Ascii.eqb Bool.eqb bind].
  set (text := lower (doc_text doc)).
  destruct (any_in ["count"; "how many"; "total number"] text) eqn:Ec.
  - split; [split; reflexivity|]. eexists. split; [reflexivity|]. cbn. auto.
  - destruct (first_key (fun ps => ps) text intent_patterns) as [i|] eqn:Ef.
    + assert (Hi : In i ["SELECT"; "UPDATE"; "DELETE"; "INSERT"]).
      { unfold intent_patterns in Ef. cbn [first_key] in Ef. rewrite Ec in Ef.
        repeat match type of Ef with
               | (if ?b then _ else _) = _ => destruct b
               end;
          try discriminate; injection Ef as <-; cbn; auto. }
      split.
      * split; [|discriminate]. intros [= ->].
        cbn in Hi. intuition discriminate.
      * exists i. split; [reflexivity|]. cbn in Hi |- *. intuition.
    + split; [split; discriminate|]. eexists. split; [reflexivity|]. cbn. auto.
Qed.

Lemma parser_detect_intent_aux doc : exists i, detect_intent doc = Return i.
Proof.
  unfold detect_intent. cbv zeta.
  cbn [getitem lookup intent_patterns String.eqb Ascii.eqb Bool.eqb bind].
  destruct (any_in _ _); [eauto|].
  destruct (first_key _ _ _); eauto.
Qed.

Lemma where_conditions_returns fs :
  forallb well_formed fs = true ->
  exists cs, where_conditions fs = Return cs
             /\ List.length cs = List.length fs.
Proof.
  induction fs as [|f fs IH]; cbn [forallb where_conditions].
  - intros _. now exists [].
  - intros H. apply andb_true_iff in H as [Hf Hfs].
    destruct (IH Hfs) as (cs & -> & Hlen).
    assert (Hr : exists c, render_condition f = Return c).
    { unfold render_condition, well_formed in *. cbv zeta.
      destruct (String.eqb (operator f) "BETWEEN").
      - destruct (value f) as [[|a [|b s]]| |]; try discriminate; eauto.
      - destruct (value f) as [s| |]; eauto.
        destruct (negb (isdigit s)); eauto. }
    destruct Hr as (c & ->). cbn [bind].
    exists (c :: cs). split; [reflexivity | cbn; now rewrite Hlen].
Qed.

Lemma entity_key_table key info :
  In (key, info) entity_mappings ->
  key <> ""
  /\ lookup key entity_mappings = Some info.
Proof.
  unfold entity_mappings. cbn [In].
  intros [H|[H|[H|[H|[]]]]]; injection H as <- <-; split;
    try discriminate; reflexivity.
Qed.

Lemma str_in_join (p sep c : string) cs :
  In c cs -> str_in p c = true -> str_in p (join sep cs) = true.
Proof.
  induction cs as [|d cs IH]; [intros []|].
  intros [->|Hin] Hp; cbn [join].
  - destruct cs; [exact Hp | now apply str_in_app_l].
  - destruct cs as [|e cs]; [destruct Hin|].
    apply str_in_app_r, str_in_app_r. now apply IH.
Qed.

Lemma where_conditions_in f fs cs :
  where_conditions fs = Return cs -> In f fs ->
  exists c, render_condition f = Return c /\ In c cs.
Proof.
  revert cs. induction fs as [|g fs IH]; intros cs H Hin; [destruct Hin|].
  cbn [where_conditions] in H.
  destruct (render_condition g) as [c|] eqn:Eg; [|discriminate].
  cbn [bind] in H.
  destruct (where_conditions fs) as [cs'|]; [|discriminate].
  cbn [bind] in H. injection H as <-.
  destruct Hin as [->|Hin].
  - exists c. split; [exact Eg | now left].
  - destruct (IH cs' eq_refl Hin) as (c' & Hc & Hin').
    exists c'. split; [exact Hc | now right].
Qed.

(** X18.  The intent reaches the text of [build_sql_query] of the parser
    only through the test for COUNT: with any other intent in the place of
    one that is not COUNT the result is the same, so UPDATE, DELETE and
    INSERT are rendered as SELECT is.  A text it returns is its one error
    message or opens with SELECT and is closed by a semicolon.  What
    stands between the two is not checked: the string value of a filter,
    unless it is all digits, is copied between quotes as it is. *)
Theorem parser_intent_as_select pd :
  (forall other,
      intent pd <> "COUNT" -> other <> "COUNT" ->
      Parser.build_sql_query
        {| intent := other; entity := entity pd;
           parsed_columns := parsed_columns pd; filters := filters pd |}
      = Parser.build_sql_query pd)
  /\ (forall sql,
         Parser.build_sql_query pd = Return sql ->
         sql = "Could not determine the table to query"
         \/ (String.prefix "SELECT " sql = true /\ ends_with ";" sql = true))
  /\ (forall sql f s,
         Parser.build_sql_query pd = Return sql ->
         sql <> "Could not determine the table to query" ->
         In f (filters pd) ->
         operator f <> "BETWEEN" -> value f = VStr s -> isdigit s = false ->
         str_in (" " ++ operator f ++ " '" ++ s ++ "'") sql = true).
Proof.
  split; [|split].
  - intros other Hi Ho. unfold Parser.build_sql_query. cbv zeta.
    cbn [intent entity parsed_columns filters].
    apply String.eqb_neq in Hi, Ho. now rewrite Hi, Ho.
  - intros sql. unfold Parser.build_sql_query. cbv zeta.
    destruct (entity pd) as [[|c e]|];
      [now intros [= <-]; left | | now intros [= <-]; left].
    destruct (getitem (String c e) entity_mappings) as [info|]; [|discriminate].
    cbn [bind]. intros H. right.
    assert (Hq : exists b,
               (if String.eqb (intent pd) "COUNT"
                then "SELECT COUNT(*) FROM " ++ table info
                else "SELECT " ++ join ", " (parsed_columns pd) ++ " FROM "
                     ++ table info) = "SELECT " ++ b)
      by (destruct (String.eqb (intent pd) "COUNT"); eexists; reflexivity).
    destruct Hq as [b Hb]. rewrite Hb in H.
    destruct (filters pd) as [|f fs].
    + assert (E : sql = ("SELECT " ++ b) ++ ";") by congruence.
      rewrite E. split; [|apply ends_with_app].
      rewrite append_assoc. apply prefix_app.
    + destruct (where_conditions (f :: fs)) as [cs|]; [|discriminate].
      cbn [bind] in H.
      assert (E : sql = (("SELECT " ++ b) ++ " WHERE " ++ join " AND " cs) ++ ";")
        by congruence.
      rewrite E. split; [|apply ends_with_app].
      rewrite !append_assoc. apply prefix_app.
  - intros sql f s. unfold Parser.build_sql_query. cbv zeta.
    destruct (entity pd) as [[|c e]|];
      [intros [= <-] Hn; now destruct Hn | | intros [= <-] Hn; now destruct Hn].
    destruct (getitem (String c e) entity_mappings) as [info|]; [|discriminate].
    cbn [bind]. intros H _ Hin Hop Hv Hd.
    destruct (filters pd) as [|g fs] eqn:Ef; [destruct Hin|].
    destruct (where_conditions (g :: fs)) as [cs|] eqn:Ew; [|discriminate].
    cbn [bind] in H.
    destruct (where_conditions_in f _ _ Ew Hin) as (cnd & Hc & Hcs).
    assert (Hcnd : cnd = Parser.column f ++ " " ++ operator f ++ " '" ++ s ++ "'").
    { unfold render_condition in Hc. cbv zeta in Hc.
      apply String.eqb_neq in Hop. rewrite Hop, Hv, Hd in Hc.
      cbn [negb] in Hc. congruence. }
    assert (E : sql = ((if String.eqb (intent pd) "COUNT"
                        then "SELECT COUNT(*) FROM " ++ table info
                        else "SELECT " ++ join ", " (parsed_columns pd)
                             ++ " FROM " ++ table info)
                       ++ " WHERE " ++ join " AND " cs) ++ ";") by congruence.
    rewrite E. apply str_in_app_l, str_in_app_r, str_in_app_r.
    apply (str_in_join _ _ cnd); [exact Hcs|].
    rewrite Hcnd. apply str_in_app_r. apply str_in_self.
Qed.

Lemma first_key_first {V} (pats : V -> list string) text items key :
  first_key pats text items = Some key ->
  exists before v after,
    items = (before ++ (key, v) :: after)%list
    /\ any_in (pats v) text = true
    /\ forall k i, In (k, i) before -> any_in (pats i) text = false.
Proof.
  induction items as [|[k v] items IH]; cbn [first_key]; [discriminate|].
  destruct (any_in (pats v) text) eqn:E.
  - intros [= <-]. exists [], v, items. repeat split; auto. intros ? ? [].
  - intros H. destruct (IH H) as (before & v' & after & -> & Ha & Hb).
    exists ((k, v) :: before)%list, v', after. repeat split; auto.
    intros k' i [[= <- <-]|Hin]; [exact E | eauto].
Qed.

Section Parse.

Variable lib : Datetime.
Variable int : string -> outcome Z.
Variable nlp : string -> Doc.

Lemma days_before_some now delta d :
  days_before lib now delta = Return d -> d <> None.
Proof.
  unfold days_before. destruct delta as [x|]; [|discriminate]. cbn [bind].
  destruct (minus lib now x); [|discriminate]. cbn [bind].
  intros [= <-]. discriminate.
Qed.

Lemma create_time_filter_shape reads time_key matches f :
  create_time_filter lib int reads time_key matches = Return (Some f) ->
  Parser.column f = "created_at" /\ operator f = ">="
  /\ exists d, value f = VStr (isoformat lib d).
Proof.
  unfold create_time_filter. cbv zeta.
  match goal with |- context [bind ?m _] => destruct m as [[d|]|e] end;
    cbn [bind]; try discriminate.
  intros [= <-]. cbn. eauto.
Qed.

Lemma create_comparison_filter_shape comp_key matches f :
  create_comparison_filter int comp_key matches = Return (Some f) ->
  well_formed f = true.
Proof.
  unfold create_comparison_filter.
  destruct (String.eqb comp_key "between").
  - destruct (Rx.group 1 matches) as [g1|]; [|discriminate]. cbn [bind].
    destruct (int g1) as [lo|]; [|discriminate]. cbn [bind].
    destruct (Rx.group 2 matches) as [g2|]; [|discriminate]. cbn [bind].
    destruct (int g2) as [hi|]; [|discriminate]. cbn [bind].
    intros [= <-]. reflexivity.
  - destruct (Rx.group 2 matches) as [g2|]; [|discriminate]. cbn [bind].
    destruct (int g2) as [v|]; [|discriminate]. cbn [bind].
    intros [= <-]. unfold well_formed. cbn [operator value].
    destruct (String.eqb comp_key "greater"); [reflexivity|].
    destruct (String.eqb comp_key "less"); reflexivity.
Qed.

Lemma append_filter_well_formed filters created :
  forallb well_formed filters = true ->
  (forall f, created = Some f -> well_formed f = true) ->
  forallb well_formed (append_filter filters created) = true.
Proof.
  intros Hfs Hc. destruct created as [f|]; [|exact Hfs].
  unfold append_filter, list_append. rewrite forallb_app, Hfs.
  cbn. now rewrite (Hc f eq_refl).
Qed.

Lemma time_loop_well_formed items text :
  forall reads filters fs,
    forallb well_formed filters = true ->
    time_loop lib int items text reads filters = Return fs ->
    forallb well_formed fs = true.
Proof.
  induction items as [|[key p] items IH]; intros reads filters fs Hw;
    cbn [time_loop].
  - now intros [= <-].
  - destruct (Rx.search p text) as [m|]; [|now apply IH].
    destruct (create_time_filter lib int reads key m) as [created|] eqn:Ec;
      [|discriminate].
    cbn [bind]. apply IH. apply append_filter_well_formed; [exact Hw|].
    intros f ->. apply create_time_filter_shape in Ec as (_ & Hop & _).
    unfold well_formed. now rewrite Hop.
Qed.

Lemma comparison_loop_well_formed items text :
  forall filters fs,
    forallb well_formed filters = true ->
    comparison_loop int items text filters = Return fs ->
    forallb well_formed fs = true.
Proof.
  induction items as [|[key p] items IH]; intros filters fs Hw;
    cbn [comparison_loop].
  - now intros [= <-].
  - destruct (Rx.search p text) as [m|]; [|now apply IH].
    destruct (create_comparison_filter int key m) as [created|] eqn:Ec;
      [|discriminate].
    cbn [bind]. apply IH. apply append_filter_well_formed; [exact Hw|].
    intros f ->. now apply create_comparison_filter_shape in Ec.
Qed.

Lemma detect_filters_well_formed doc fs :
  detect_filters lib int doc = Return fs -> forallb well_formed fs = true.
Proof.
  unfold detect_filters. cbv zeta.
  destruct (time_loop lib int time_patterns _ 0 []) as [fs1|] eqn:E1;
    [|discriminate].
  cbn [bind].
  destruct (comparison_loop int comparison_patterns _ fs1) as [fs2|] eqn:E2;
    [|discriminate].
  cbn [bind].
  apply time_loop_well_formed in E1; [|reflexivity].
  apply comparison_loop_well_formed in E2; [|exact E1].
  destruct (Rx.search state_pattern _) as [m|]; [|now intros [= <-]].
  destruct (Rx.group 1 m) as [g|]; [|discriminate]. cbn [bind].
  intros [= <-]. unfold list_append. rewrite forallb_app, E2. reflexivity.
Qed.

(** X19.  [build_sql_query] raises on nothing that [parse_query] returns:
    every filter that [detect_filters] makes can be rendered, and the
    entity that [detect_entity] names is a key of the entity table.  The
    text returned is the error message exactly when no entity pattern
    occurs in the lowercased text of the document; otherwise it is built on
    the table of the first entity, in declared order, one of whose patterns
    occurs in it, with the conditions of the filters joined by AND. *)
Theorem parser_build_after_parse query pd :
  parse_query lib int nlp query = Return pd ->
  let text := lower (doc_text (nlp (lower query))) in
  forallb well_formed (filters pd) = true
  /\ exists sql,
      Parser.build_sql_query pd = Return sql
      /\ (sql = "Could not determine the table to query"
          <-> forall key info, In (key, info) entity_mappings ->
                               any_in (patterns info) text = false)
      /\ forall key,
          entity pd = Some key ->
          exists before info after,
            entity_mappings = (before ++ (key, info) :: after)%list
            /\ any_in (patterns info) text = true
            /\ (forall k i, In (k, i) before -> any_in (patterns i) text = false)
            /\ exists body cs,
                where_conditions (filters pd) = Return cs
                /\ sql = (body ++ " FROM " ++ table info)
                         ++ match filters pd with
                            | [] => ""
                            | _ => " WHERE " ++ join " AND " cs
                            end ++ ";".
Proof.
  intros Hp text.
  destruct (parser_detect_intent_aux (nlp (lower query))) as (i & Hi).
  unfold parse_query in Hp. cbv zeta in Hp. rewrite Hi in Hp. cbn [bind] in Hp.
  unfold detect_entity in Hp. cbv zeta in Hp. cbn [bind] in Hp.
  destruct (detect_filters lib int (nlp (lower query))) as [fs|] eqn:Hfs;
    [|discriminate].
  cbn [bind] in Hp.
  pose proof (detect_filters_well_formed _ _ Hfs) as Hwf.
  fold text in Hp.
  destruct (where_conditions_returns fs Hwf) as (cs & Hcs & _).
  destruct (first_key patterns text entity_mappings) as [key|] eqn:Ek.
  - destruct (first_key_first _ _ _ _ Ek) as (before & info & after & Hsplit & Hany & Hbefore).
    assert (Hin : In (key, info) entity_mappings).
    { rewrite Hsplit. apply in_or_app. right. now left. }
    destruct (entity_key_table key info Hin) as [Hne Hl].
    unfold detect_columns in Hp. cbv zeta in Hp. fold text in Hp.
    destruct key as [|c key]; [congruence|].
    rewrite Hl in Hp. unfold getitem at 1 in Hp. rewrite Hl in Hp.
    cbn [bind] in Hp.
    assert (Hcols : exists cols,
               (if any_in ["count"; "number"; "stats"; "statistics"] text
                then Return (stats (columns info))
                else if any_in ["details"; "information"; "full"; "all"] text
                     then Return (details (columns info))
                     else Return (default (columns info))) = Return cols).
    { destruct (any_in ["count"; "number"; "stats"; "statistics"] text); [eauto|].
      destruct (any_in ["details"; "information"; "full"; "all"] text); eauto. }
    destruct Hcols as (cols & Hcols). rewrite Hcols in Hp. cbn [bind] in Hp.
    injection Hp as <-. cbn [filters entity].
    split; [exact Hwf|].
    assert (Hsql : exists body sql,
               match fs with
               | [] => Return ((if String.eqb i "COUNT"
                                then "SELECT COUNT(*) FROM " ++ table info
                                else "SELECT " ++ join ", " cols ++ " FROM "
                                     ++ table info) ++ ";")
               | _ :: _ =>
                   conditions <- Return cs ;;
                   Return (((if String.eqb i "COUNT"
                             then "SELECT COUNT(*) FROM " ++ table info
                             else "SELECT " ++ join ", " cols ++ " FROM "
                                  ++ table info) ++ " WHERE "
                            ++ join " AND " conditions) ++ ";")
               end = Return sql
               /\ sql = (body ++ " FROM " ++ table info)
                        ++ match fs with [] => "" | _ => " WHERE " ++ join " AND " cs end
                        ++ ";"
               /\ sql <> "Could not determine the table to query").
    { destruct (String.eqb i "COUNT");
        [exists "SELECT COUNT(*)" | exists ("SELECT " ++ join ", " cols)];
        destruct fs; cbn [bind]; eexists; (split; [reflexivity|]);
        rewrite ?append_assoc; (split; [reflexivity | discriminate]). }
    destruct Hsql as (body & sql & Hbuild & Hsql & Hne').
    exists sql. split.
    { unfold Parser.build_sql_query. cbv zeta.
      cbn [intent entity parsed_columns filters].
      unfold getitem. rewrite Hl. cbn [bind]. rewrite Hcs. exact Hbuild. }
    split.
    + split.
      * intros E. contradiction.
      * intros H. rewrite (H _ _ Hin) in Hany. discriminate.
    + intros key' [= <-]. exists before, info, after.
      split; [exact Hsplit|]. split; [exact Hany|]. split; [exact Hbefore|].
      exists body, cs. split; [exact Hcs | exact Hsql].
  - unfold detect_columns in Hp. cbv zeta in Hp. cbn [bind] in Hp.
    injection Hp as <-. cbn [filters entity].
    split; [exact Hwf|].
    eexists. split; [reflexivity|].
    split; [|discriminate].
    split; [|reflexivity]. intros _.
    exact (proj1 (first_key_none patterns text entity_mappings) Ek).
Qed.

Lemma search_text p s :
  (str_in p s = true ->
   exists w, Rx.search [Rx.Plain (Rx.Text p)] s
             = Some {| Rx.whole := w; Rx.groups := [] |})
  /\ (str_in p s = false -> Rx.search [Rx.Plain (Rx.Text p)] s = None).
Proof.
  unfold Rx.search.
  induction s as [|c s IH]; cbn [str_in Rx.search_from Rx.match_items Rx.match_rx].
  - destruct (String.prefix p ""); split; try discriminate; eauto.
  - destruct (String.prefix p (String c s)); cbn [orb].
    + split; [eauto | discriminate].
    + exact IH.
Qed.

Lemma time_loop_raises items text key p m :
  In (key, p) items ->
  Rx.search p text = Some m ->
  (forall n, exists e, create_time_filter lib int n key m = Raise e) ->
  forall reads filters,
    exists e, time_loop lib int items text reads filters = Raise e.
Proof.
  intros Hin Hs Hr.
  induction items as [|[k q] items IH]; [destruct Hin|].
  intros reads filters. cbn [time_loop].
  destruct Hin as [[= -> ->]|Hin].
  - rewrite Hs. destruct (Hr reads) as (e & ->). cbn. eauto.
  - destruct (Rx.search q text) as [m'|]; [|now apply IH].
    destruct (create_time_filter lib int reads k m') as [created|e];
      cbn [bind]; [now apply IH | eauto].
Qed.

(** X23.  A query that speaks of this year or of last year makes
    [parse_query] raise: the pattern of either phrase has no group, and
    [create_time_filter] asks its match for group 1.  When none of the six
    phrases before them in [time_patterns] is in the text, what is raised is
    that [IndexError]. *)
Theorem parser_year_phrase_raises query :
  let text := lower (doc_text (nlp (lower query))) in
  str_in "this year" text = true \/ str_in "last year" text = true ->
  (exists e, parse_query lib int nlp query = Raise e)
  /\ (any_in ["today"; "yesterday"; "this week"; "last week"; "this month";
              "last month"] text = false ->
      parse_query lib int nlp query = Raise "IndexError: no such group").
Proof.
  intros text Hy.
  destruct (parser_detect_intent_aux (nlp (lower query))) as (i & Hi).
  unfold parse_query. cbv zeta. rewrite Hi. cbn [bind].
  unfold detect_entity. cbv zeta. cbn [bind].
  unfold detect_filters. cbv zeta. fold text.
  split.
  - assert (H : exists e, time_loop lib int time_patterns text 0 [] = Raise e).
    { destruct Hy as [Hy|Hy];
        destruct (proj1 (search_text _ _) Hy) as (w & Hw).
      - apply (time_loop_raises time_patterns _ "this year" _ _
                 ltac:(do 6 right; left; reflexivity) Hw).
        intros n. eexists. reflexivity.
      - apply (time_loop_raises time_patterns _ "last year" _ _
                 ltac:(do 7 right; left; reflexivity) Hw).
        intros n. eexists. reflexivity. }
    destruct H as (e & ->). cbn. eauto.
  - intros Hn. unfold any_in in Hn. cbn [existsb] in Hn.
    repeat (apply orb_false_iff in Hn as [? Hn]).
    unfold time_patterns. cbn [time_loop].
    repeat match goal with
           | H : str_in ?p text = false |- _ =>
               rewrite (proj2 (search_text p text) H); clear H
           end.
    destruct (str_in "this year" text) eqn:Et.
    + destruct (proj1 (search_text _ _) Et) as (w & ->). reflexivity.
    + rewrite (proj2 (search_text _ _) Et).
      destruct Hy as [Hy|Hy]; [discriminate|].
      destruct (proj1 (search_text _ _) Hy) as (w & ->). reflexivity.
Qed.

Lemma digit_free_drop (f : ascii -> bool) n s :
  forallb_str f s = true -> forallb_str f (drop n s) = true.
Proof.
  revert s. induction n as [|n IH]; intros [|c s] H; cbn [drop]; auto.
  cbn in H. apply andb_true_iff in H as [_ H]. now apply IH.
Qed.

Lemma run_length_free s :
  forallb_str (fun c => negb (is_digit c)) s = true ->
  run_length is_digit s = 0.
Proof.
  destruct s as [|c s]; [reflexivity|]. cbn.
  destruct (is_digit c); [discriminate | reflexivity].
Qed.

Lemma search_none p :
  (forall start s gs,
      forallb_str (fun c => negb (is_digit c)) s = true ->
      Rx.match_items p start s gs = None) ->
  forall s,
    forallb_str (fun c => negb (is_digit c)) s = true -> Rx.search p s = None.
Proof.
  intros Hp. unfold Rx.search.
  induction s as [|c s IH]; intros Hs; cbn [Rx.search_from]; rewrite (Hp _ _ _ Hs).
  - reflexivity.
  - apply IH. cbn in Hs. now apply andb_true_iff in Hs as [_ Hs].
Qed.

Ltac no_number Hs :=
  cbn [Rx.match_items Rx.match_rx Rx.first_alternative ago];
  rewrite ?run_length_free by (repeat apply digit_free_drop; exact Hs);
  cbn [Rx.try_lengths Nat.ltb Nat.leb];
  repeat match goal with
         | |- context [String.prefix ?l ?s] => destruct (String.prefix l s)
         end;
  reflexivity.

Lemma number_patterns_none key p s :
  In (key, p) [ ("days", ago "day"); ("weeks", ago "week");
                ("months", ago "month"); ("years", ago "year") ]
  \/ In (key, p) comparison_patterns ->
  forallb_str (fun c => negb (is_digit c)) s = true ->
  Rx.search p s = None.
Proof.
  intros Hin. apply search_none. intros start s' gs Hs.
  unfold comparison_patterns in Hin. cbn [In] in Hin.
  destruct Hin as [[H|[H|[H|[H|[]]]]]|[H|[H|[H|[H|[]]]]]];
    injection H as <- <-; no_number Hs.
Qed.

Lemma take_length_app (l b : string) :
  take (String.length (l ++ b) - String.length (drop (String.length l) (l ++ b)))
       (l ++ b) = l.
Proof.
  assert (Hd : forall l, drop (String.length l) (l ++ b) = b)
    by (intros l'; induction l'; cbn; auto).
  assert (Hl : forall l, String.length (l ++ b) = String.length l + String.length b)
    by (intros l'; induction l'; cbn; auto).
  assert (Ht : forall l, take (String.length l) (l ++ b) = l)
    by (intros l'; induction l'; cbn; congruence).
  rewrite Hd, Hl.
  replace (String.length l + String.length b - String.length b)
    with (String.length l) by lia.
  apply Ht.
Qed.

Lemma consumed_prefix (l s : string) :
  String.prefix l s = true ->
  Rx.consumed s (drop (String.length l) s) = l.
Proof.
  intros H. destruct (prefix_split _ _ H) as [b ->].
  apply take_length_app.
Qed.

Lemma state_search s :
  match Rx.search state_pattern s with
  | Some m =>
      exists state,
        Rx.groups m = [state]
        /\ In state ["open"; "closed"; "merged"; "pending"]
        /\ str_in state s = true
  | None => any_in ["open"; "closed"; "merged"; "pending"] s = false
  end.
Proof.
  unfold Rx.search.
  assert (Hstep : forall s,
             match Rx.match_items state_pattern s s [] with
             | Some m =>
                 exists state,
                   Rx.groups m = [state]
                   /\ In state ["open"; "closed"; "merged"; "pending"]
                   /\ String.prefix state s = true
             | None =>
                 String.prefix "open" s = false /\ String.prefix "closed" s = false
                 /\ String.prefix "merged" s = false
                 /\ String.prefix "pending" s = false
             end).
  { intros t. unfold state_pattern.
    cbn [Rx.match_items Rx.match_rx Rx.first_alternative list_append app
         Rx.groups].
    destruct (String.prefix "open" t) eqn:E1.
    { cbv iota. exists "open". rewrite (consumed_prefix _ _ E1).
      split; [reflexivity|]. split; [cbn; auto 6 | exact E1]. }
    destruct (String.prefix "closed" t) eqn:E2.
    { cbv iota. exists "closed". rewrite (consumed_prefix _ _ E2).
      split; [reflexivity|]. split; [cbn; auto 6 | exact E2]. }
    destruct (String.prefix "merged" t) eqn:E3.
    { cbv iota. exists "merged". rewrite (consumed_prefix _ _ E3).
      split; [reflexivity|]. split; [cbn; auto 6 | exact E3]. }
    destruct (String.prefix "pending" t) eqn:E4.
    { cbv iota. exists "pending". rewrite (consumed_prefix _ _ E4).
      split; [reflexivity|]. split; [cbn; auto 6 | exact E4]. }
    auto. }
  induction s as [|c s IH]; cbn [Rx.search_from]; specialize (Hstep).
  - pose proof (Hstep "") as H.
    destruct (Rx.match_items state_pattern "" "" []) as [m|].
    + destruct H as (st & Hg & Hin & Hp). exists st. repeat split; auto.
      now apply str_in_here.
    + reflexivity.
  - pose proof (Hstep (String c s)) as H.
    destruct (Rx.match_items state_pattern (String c s) (String c s) []) as [m|].
    + destruct H as (st & Hg & Hin & Hp). exists st. repeat split; auto.
      now apply str_in_here.
    + destruct H as (H1 & H2 & H3 & H4).
      destruct (Rx.search_from state_pattern s) as [m|].
      * destruct IH as (st & Hg & Hin & Hp). exists st. repeat split; auto.
        now apply str_in_cons.
      * unfold any_in in *. cbn [existsb str_in] in *.
        rewrite H1, H2, H3, H4. exact IH.
Qed.

Lemma time_loop_none items text :
  (forall key p, In (key, p) items -> Rx.search p text = None) ->
  forall reads filters,
    time_loop lib int items text reads filters = Return filters.
Proof.
  induction items as [|[k q] items IH]; intros H reads filters;
    cbn [time_loop]; [reflexivity|].
  rewrite (H k q) by now left.
  apply IH. intros key p Hin. apply (H key p). now right.
Qed.

Lemma comparison_loop_none items text :
  (forall key p, In (key, p) items -> Rx.search p text = None) ->
  forall filters, comparison_loop int items text filters = Return filters.
Proof.
  induction items as [|[k q] items IH]; intros H filters;
    cbn [comparison_loop]; [reflexivity|].
  rewrite (H k q) by now left.
  apply IH. intros key p Hin. apply (H key p). now right.
Qed.

Lemma detect_columns_returns doc :
  exists cols,
    detect_columns doc (first_key patterns (lower (doc_text doc)) entity_mappings)
    = Return cols.
Proof.
  destruct (first_key patterns (lower (doc_text doc)) entity_mappings)
    as [key|] eqn:Ek; [|now eexists].
  apply first_key_some in Ek as (info & Hin & _ & _).
  destruct (entity_key_table key info Hin) as [Hne Hl].
  unfold detect_columns. cbv zeta.
  destruct key as [|c key]; [congruence|].
  rewrite Hl. unfold getitem. rewrite Hl. cbn [bind].
  destruct (any_in ["count"; "number"; "stats"; "statistics"] _); [eauto|].
  destruct (any_in ["details"; "information"; "full"; "all"] _); eauto.
Qed.

(** X24.  For a query without a digit and without one of the eight time
    phrases [parse_query] returns, whatever the clock and [int] do, and
    nothing of them is called: no time or comparison pattern matches, and
    the filters are the state filter alone, on one of "open", "closed",
    "merged" and "pending" that is in the text, or no filter when none of
    the four is in it. *)
Theorem parser_plain_query_returns query :
  let text := lower (doc_text (nlp (lower query))) in
  forallb_str (fun c => negb (is_digit c)) text = true ->
  any_in ["today"; "yesterday"; "this week"; "last week"; "this month";
          "last month"; "this year"; "last year"] text = false ->
  exists pd,
    parse_query lib int nlp query = Return pd
    /\ ((filters pd = []
         /\ any_in ["open"; "closed"; "merged"; "pending"] text = false)
        \/ exists state,
            filters pd = [ {| column := "state"; operator := "=";
                              value := VStr state |} ]
            /\ In state ["open"; "closed"; "merged"; "pending"]
            /\ str_in state text = true).
Proof.
  intros text Hd Hn.
  destruct (parser_detect_intent_aux (nlp (lower query))) as (i & Hi).
  unfold parse_query. cbv zeta. rewrite Hi. cbn [bind].
  unfold detect_entity. cbv zeta. cbn [bind].
  assert (Hf : exists fs,
             detect_filters lib int (nlp (lower query)) = Return fs
             /\ ((fs = []
                  /\ any_in ["open"; "closed"; "merged"; "pending"] text = false)
                 \/ exists state,
                     fs = [ {| column := "state"; operator := "=";
                               value := VStr state |} ]
                     /\ In state ["open"; "closed"; "merged"; "pending"]
                     /\ str_in state text = true)).
  { unfold detect_filters. cbv zeta. fold text.
    rewrite time_loop_none.
    2: { intros key p Hin. unfold any_in in Hn. cbn [existsb] in Hn.
         repeat (apply orb_false_iff in Hn as [? Hn]).
         unfold time_patterns in Hin. cbn [In] in Hin.
         repeat (destruct Hin as [Hin|Hin];
                 [injection Hin as <- <-;
                  first [ apply (proj2 (search_text _ _)); assumption
                        | eapply number_patterns_none;
                          [left; cbn; eauto 6 | exact Hd] ]|]).
         destruct Hin. }
    cbn [bind]. rewrite comparison_loop_none.
    2: { intros key p Hin.
         exact (number_patterns_none key p text (or_intror Hin) Hd). }
    cbn [bind].
    pose proof (state_search text) as Hs.
    destruct (Rx.search state_pattern text) as [m|].
    - destruct Hs as (st & Hg & Hin & Hp).
      unfold Rx.group. rewrite Hg. cbn [nth_error bind list_append app].
      eexists. split; [reflexivity|]. right. exists st. auto.
    - eexists. split; [reflexivity|]. left. auto. }
  destruct Hf as (fs & -> & Hfs). cbn [bind].
  destruct (detect_columns_returns (nlp (lower query))) as (cols & ->).
  cbn [bind]. eexists. split; [reflexivity|]. exact Hfs.
Qed.

End Parse.



End ParserFacts.

(** ** A special case that never fires *)

Lemma str_in_trans a b c :
  str_in a b = true -> str_in b c = true -> str_in a c = true.
Proof.
  intros Hab Hbc.
  apply str_in_elim in Hab as (x & y & ->).
  apply str_in_elim in Hbc as (x' & y' & ->).
  rewrite !append_assoc. apply str_in_app_r, str_in_app_r, str_in_here, prefix_app.
Qed.

(** X21.  The last special case, "count commits per repository", can never
    be selected: a text with that phrase contains "count" and "commit", so
    the count-commits case, which is tested before it, holds as well, and
    the first match is that case or one before it. *)
Theorem per_repository_case_shadowed text_lower :
  (trigger CommitsPerRepository text_lower = true ->
   trigger CountCommits text_lower = true)
  /\ first_match text_lower <> Some CommitsPerRepository.
Proof.
  assert (Hs : trigger CommitsPerRepository text_lower = true ->
               trigger CountCommits text_lower = true).
  { cbn [trigger]. intros H.
    rewrite (str_in_trans "count" "count commits per repository" _ eq_refl H),
      (str_in_trans "commit" "count commits per repository" _ eq_refl H).
    now rewrite orb_true_r. }
  split; [exact Hs|].
  unfold first_match, special_cases. cbn [find].
  repeat match goal with
         | |- (if ?b then _ else _) <> _ => destruct b eqn:?
         end;
    try discriminate.
  intros _. discriminate (Hs eq_refl).
Qed.

(** ** Concrete runs of the further properties *)

Lemma case_insensitive_witness :
  build_sql_query simple_tokenize english_stop_words "TOP 5 Contributors" None
  = build_sql_query simple_tokenize english_stop_words "top 5 contributors" None.
Proof.
  apply (case_insensitive simple_tokenize english_stop_words
           "TOP 5 Contributors" "top 5 contributors" None).
  reflexivity.
Defined.

Lemma identify_table_set_witness :
  identify_table ["files"; "show"; "files"] = identify_table ["show"; "files"].
Proof.
  apply (identify_table_set ["files"; "show"; "files"] ["show"; "files"]).
  intros w. cbn. tauto.
Defined.

Lemma repo_id_dependence_witness :
  build_sql_query simple_tokenize english_stop_words "list repos per owner" (Some 42%Z)
  = build_sql_query simple_tokenize english_stop_words "list repos per owner" None.
Proof.
  apply (proj1 (repo_id_dependence simple_tokenize english_stop_words
                  "list repos per owner")).
  vm_compute. exact I.
Defined.

Lemma retained_tokens_witness :
  ~ In "how many" ["many"; "files"]
  /\ (identify_columns ["many"; "files"] (Some "files") = Return ["COUNT(*)"]
      <-> In "count" ["many"; "files"] \/ In "total" ["many"; "files"]).
Proof.
  assert (Hpre : preprocess_text simple_tokenize english_stop_words "How many files?"
                 = Return ["many"; "files"]) by (vm_compute; reflexivity).
  destruct (retained_tokens simple_tokenize english_stop_words _ _ Hpre)
    as (_ & _ & Hno & Hagg).
  split; [exact Hno | apply Hagg].
Defined.

Lemma metric_number_position_witness :
  exists before ws after,
    "more than 1000 stars" = before ++ "1000" ++ ws ++ "stars" ++ after
    /\ forallb_str is_space ws = true.
Proof.
  destruct (metric_number_position "stars" "more than 1000 stars" "1000")
    as (b & ws & a & E & _ & _ & Hws); [reflexivity|].
  exists b, ws, a. split; [exact E | exact Hws].
Defined.

Lemma limit_number_position_witness :
  limit_of re_top "" "the top  5 files" = "5".
Proof.
  apply (limit_number_position "top" "the top  5 files" "5").
  - left. reflexivity.
  - reflexivity.
Defined.

Lemma single_statement_witness :
  count_char ";" "SELECT stars FROM repositories WHERE stars >= 1000;" = 1.
Proof.
  apply (single_statement simple_tokenize english_stop_words
           "Show repositories with more than 1000 stars; DROP TABLE x" None).
  - vm_compute. reflexivity.
  - reflexivity.
Defined.

Lemma join_only_for_commits_witness :
  str_in " JOIN authors ON commits.author_id = authors.author_id"
         "SELECT commit_id, hash, timestamp FROM commits JOIN authors ON commits.author_id = authors.author_id;"
  = true.
Proof.
  apply (join_only_for_commits simple_tokenize english_stop_words
           "show commits coauthored" None ["show"; "commits"; "coauthored"]
           "commits").
  - vm_compute. reflexivity.
  - vm_compute. reflexivity.
  - reflexivity.
  - vm_compute. reflexivity.
  - reflexivity.
  - vm_compute. reflexivity.
Defined.

Lemma parser_intent_as_select_witness :
  let pd := {| Parser.intent := "DELETE"; Parser.entity := Some "commit";
               Parser.parsed_columns := ["id"];
               Parser.filters :=
                 [ {| Parser.column := "message"; Parser.operator := "=";
                      Parser.value := Parser.VStr "x'; DELETE FROM commits; --" |} ] |} in
  Parser.build_sql_query pd
  = Return "SELECT id FROM commits WHERE message = 'x'; DELETE FROM commits; --';"
  /\ Parser.build_sql_query
       {| Parser.intent := "SELECT"; Parser.entity := Parser.entity pd;
          Parser.parsed_columns := Parser.parsed_columns pd;
          Parser.filters := Parser.filters pd |}
     = Parser.build_sql_query pd
  /\ str_in " = 'x'; DELETE FROM commits; --'"
            "SELECT id FROM commits WHERE message = 'x'; DELETE FROM commits; --';"
     = true.
Proof.
  intros pd.
  assert (Hb : Parser.build_sql_query pd
               = Return "SELECT id FROM commits WHERE message = 'x'; DELETE FROM commits; --';")
    by (vm_compute; reflexivity).
  destruct (parser_intent_as_select pd) as (H1 & _ & H3).
  split; [exact Hb|]. split.
  - apply (H1 "SELECT"); discriminate.
  - apply (H3 _ {| Parser.column := "message"; Parser.operator := "=";
                   Parser.value := Parser.VStr "x'; DELETE FROM commits; --" |}
              "x'; DELETE FROM commits; --" Hb);
      [discriminate | now left | discriminate | reflexivity | reflexivity].
Defined.

Lemma parser_build_after_parse_witness :
  let pd := {| Parser.intent := "COUNT"; Parser.entity := Some "issue";
               Parser.parsed_columns := ["comments_count"; "reactions_count"];
               Parser.filters :=
                 [ {| Parser.column := "count"; Parser.operator := ">=";
                      Parser.value := Parser.VInt 5 |};
                   {| Parser.column := "state"; Parser.operator := "=";
                      Parser.value := Parser.VStr "open" |} ] |} in
  Parser.parse_query Parser.unread_clock Parser.decimal_int
                     (fun s => {| Parser.doc_text := s |})
                     "Count open issues with more than 5 comments"
  = Return pd
  /\ Parser.build_sql_query pd
     = Return "SELECT COUNT(*) FROM issues WHERE count >= 5 AND state = 'open';"
  /\ exists sql, Parser.build_sql_query pd = Return sql.
Proof.
  intros pd.
  assert (Hp : Parser.parse_query Parser.unread_clock Parser.decimal_int
                 (fun s => {| Parser.doc_text := s |})
                 "Count open issues with more than 5 comments" = Return pd)
    by (vm_compute; reflexivity).
  split; [exact Hp|]. split; [vm_compute; reflexivity|].
  destruct (parser_build_after_parse _ _ _ _ _ Hp) as (_ & sql & Hb & _).
  exists sql. exact Hb.
Defined.

Lemma parser_year_phrase_raises_witness :
  Parser.parse_query Parser.unread_clock Parser.decimal_int
                     (fun s => {| Parser.doc_text := s |})
                     "Issues created this year"
  = Raise "IndexError: no such group".
Proof.
  apply (parser_year_phrase_raises Parser.unread_clock Parser.decimal_int
           (fun s => {| Parser.doc_text := s |}) "Issues created this year");
    [left|]; reflexivity.
Defined.

Lemma parser_plain_query_returns_witness :
  exists pd,
    Parser.parse_query Parser.unread_clock Parser.decimal_int
                       (fun s => {| Parser.doc_text := s |})
                       "Show reopened issues"
    = Return pd.
Proof.
  destruct (parser_plain_query_returns Parser.unread_clock Parser.decimal_int
              (fun s => {| Parser.doc_text := s |}) "Show reopened issues")
    as (pd & Hp & _); [reflexivity | reflexivity |].
  exists pd. exact Hp.
Defined.

(** ** Conditions without a number *)

Lemma time_filter_off m :
  In m ["stars"; "forks"] -> forall tl, filters_on m (time_filter tl) = [].
Proof.
  intros Hm tl. unfold filters_on, time_filter.
  destruct Hm as [<-|[<-|[]]];
    destruct (str_in "this month" tl); try reflexivity;
    destruct (str_in "last month" tl); reflexivity.
Qed.

Lemma metric_filter_off m m' q tl :
  In (m, m') [("stars", "forks"); ("forks", "stars")] ->
  filters_on m (metric_filter m' q tl) = [].
Proof.
  intros Hm. unfold filters_on, metric_filter.
  destruct (re_search q tl); [|reflexivity].
  destruct Hm as [[= <- <-]|[[= <- <-]|[]]]; reflexivity.
Qed.

Lemma short_filters m p tl :
  List.length (metric_filter m p tl) <= 1 /\ List.length (time_filter tl) <= 1.
Proof.
  unfold metric_filter, time_filter. split.
  - destruct (re_search p tl); cbn; lia.
  - destruct (str_in "this month" tl); [cbn; lia|].
    destruct (str_in "last month" tl); cbn; lia.
Qed.

(** X22.  For every text [identify_conditions] returns at most three
    conditions, and with "this month" in the text the last of them is the
    this-month condition.  A metric gets a filter only from a number that
    stands before it: when no run of digits is followed by the keyword,
    with at most whitespace between, the conditions hold no filter on that
    metric, whatever numbers and directional phrases the text has
    elsewhere. *)
Theorem no_number_no_filter text :
  exists conds,
    identify_conditions text = Return conds
    /\ List.length conds <= 3
    /\ (str_in "this month" (lower text) = true ->
        exists front, conds = (front ++ ["EXTRACT(MONTH FROM created_at) = EXTRACT(MONTH FROM CURRENT_DATE) AND EXTRACT(YEAR FROM created_at) = EXTRACT(YEAR FROM CURRENT_DATE)"])%list)
    /\ forall metric p,
        In (metric, p) metrics ->
        re_search p (lower text) = None ->
        filters_on metric conds = [].
Proof.
  rewrite identify_conditions_eq.
  eexists. split; [reflexivity|].
  destruct (short_filters "stars" re_stars (lower text)) as [Hs Ht].
  destruct (short_filters "forks" re_forks (lower text)) as [Hf _].
  split; [|split].
  - rewrite !length_app. lia.
  - intros Hm. exists (metric_filter "stars" re_stars (lower text)
                       ++ metric_filter "forks" re_forks (lower text))%list.
    unfold time_filter. rewrite Hm. now rewrite app_assoc.
  - intros metric p Hin Hre.
    unfold filters_on. rewrite !filter_app.
    fold (filters_on metric (time_filter (lower text))).
    fold (filters_on metric (metric_filter "forks" re_forks (lower text))).
    fold (filters_on metric (metric_filter "stars" re_stars (lower text))).
    destruct Hin as [[= <- <-]|[[= <- <-]|[]]].
    + rewrite (metric_filter_off "stars" "forks"), time_filter_off
        by (cbn; auto).
      unfold metric_filter. now rewrite Hre.
    + rewrite (metric_filter_off "forks" "stars"), time_filter_off
        by (cbn; auto).
      unfold metric_filter. now rewrite Hre.
Qed.

Lemma no_number_no_filter_witness :
  re_search re_stars (lower "Repositories with stars above 1000") = None
  /\ exists conds,
      identify_conditions "Repositories with stars above 1000" = Return conds
      /\ List.length conds <= 3
      /\ filters_on "stars" conds = [].
Proof.
  split; [reflexivity|].
  destruct (no_number_no_filter "Repositories with stars above 1000")
    as (conds & Hc & Hl & _ & Hf).
  exists conds. split; [exact Hc | split; [exact Hl|]].
  apply (Hf "stars" re_stars); [now left | reflexivity].
Defined.
